(** * Verification of the release-reconciliation action (run.ts, gitUtils.ts)

    A shallow embedding of the TypeScript sources in Rocq.

    - JavaScript strings are sequences of UTF-16 code units: [str] is
      [list N], one [N] per code unit.  The regular expressions of the
      sources carry no [u] flag, so they work on code units too.
    - Regular expressions are kept as syntax trees ([regex]) and run by a
      backtracking matcher ([rmatch]) that follows the ECMAScript
      semantics: alternatives left to right, greedy and lazy quantifiers,
      capture groups, the assertions [^] and [$] with and without the
      [m] flag.
    - Effects (file system, release host, git clone) are explicit state
      in a [World] record that the procedures pass along; exceptions are
      a sum type. *)

From Stdlib Require Import ZArith NArith Ascii String Lia.
From stdpp Require Import base option list gmap sorting.
From Equations Require Import Equations.

Local Open Scope N_scope.

(** ** Strings as code-unit sequences *)

Abbreviation char := N.
Abbreviation str := (list N).

(** The code unit of an ASCII character (bit 0 first). *)
Definition bit_cons (b : bool) (n : N) : N :=
  if b then N.succ_double n else N.double n.

Definition char_of_ascii (a : ascii) : char :=
  match a with
  | Ascii b0 b1 b2 b3 b4 b5 b6 b7 =>
      bit_cons b0 (bit_cons b1 (bit_cons b2 (bit_cons b3
        (bit_cons b4 (bit_cons b5 (bit_cons b6 (bit_cons b7 0)))))))
  end.

Fixpoint lit (s : string) : str :=
  match s with
  | EmptyString => []
  | String a s' => char_of_ascii a :: lit s'
  end.

Definition chr (s : string) : char :=
  match s with
  | String a _ => char_of_ascii a
  | EmptyString => 0
  end.

(** Line feed, the separator of [split("\n")]. *)
Definition LF : char := 10.

(** ECMAScript LineTerminator: LF, CR, LS, PS. *)
Definition is_line_terminator (c : char) : bool :=
  (c =? 10) || (c =? 13) || (c =? 0x2028) || (c =? 0x2029).

(** ECMAScript WhiteSpace and LineTerminator, the set of [\s] and of
    [String.prototype.trim]. *)
Definition is_space (c : char) : bool :=
  (c =? 9) || (c =? 10) || (c =? 11) || (c =? 12) || (c =? 13) || (c =? 32)
  || (c =? 0xA0) || (c =? 0x1680) || ((0x2000 <=? c) && (c <=? 0x200A))
  || (c =? 0x2028) || (c =? 0x2029) || (c =? 0x202F) || (c =? 0x205F)
  || (c =? 0x3000) || (c =? 0xFEFF).

(** [\d] *)
Definition is_digit (c : char) : bool := (48 <=? c) && (c <=? 57).

(** [.] without the [s] flag *)
Definition is_dot (c : char) : bool := negb (is_line_terminator c).

(** [[^]] *)
Definition is_any (c : char) : bool := true.

Definition is_char (x : char) (c : char) : bool := c =? x.
Definition is_not_char (x : char) (c : char) : bool := negb (c =? x).
Definition is_not_space (c : char) : bool := negb (is_space c).

(** The longest prefix of code units of a class, and what follows it. *)
Fixpoint takeWhile (p : char -> bool) (u : str) : str :=
  match u with
  | c :: t => if p c then c :: takeWhile p t else []
  | [] => []
  end.

Fixpoint dropWhile (p : char -> bool) (u : str) : str :=
  match u with
  | c :: t => if p c then dropWhile p t else u
  | [] => []
  end.

(** [String.prototype.trimStart], [trimEnd], [trim] *)
Definition trimStart (s : str) : str := dropWhile is_space s.

Definition trimEnd (s : str) : str := rev (trimStart (rev s)).

Definition trim (s : str) : str := trimEnd (trimStart s).

(** [s.split("\n")]: the pieces between line feeds; never empty. *)
Fixpoint split_lines (s : str) : list str :=
  match s with
  | [] => [[]]
  | c :: s' =>
      if c =? LF then [] :: split_lines s'
      else match split_lines s' with
           | l :: ls => (c :: l) :: ls
           | [] => [[c]]
           end
  end.

(** [s.slice(a, b)] for [0 <= a], [0 <= b]. *)
Definition slice (s : str) (a b : nat) : str := take (b - a) (drop a s).

(** [s.slice(a)] *)
Definition slice_from (s : str) (a : nat) : str := drop a s.

(** ** Regular expressions *)

Inductive regex : Type :=
| Eps                                   (* empty pattern *)
| Chr (p : char -> bool)                (* one code unit of a class *)
| Cat (r1 r2 : regex)                   (* r1 r2 *)
| Alt (r1 r2 : regex)                   (* r1 | r2 *)
| Star (greedy : bool) (r : regex)      (* r* and r*? *)
| Grp (i : nat) (r : regex)             (* capture group number i *)
| Bol (multiline : bool)                (* ^ *)
| Eol (multiline : bool).               (* $ *)

(** r+ and r+? *)
Definition Plus (greedy : bool) (r : regex) : regex := Cat r (Star greedy r).

(** A literal run of code units. *)
Fixpoint Lit (w : str) : regex :=
  match w with
  | [] => Eps
  | c :: w' => Cat (Chr (is_char c)) (Lit w')
  end.

(** The matcher state: the code unit before the current position (for
    [^]), the input still to read, and the captures made so far (the
    latest binding of a group comes first). *)
Record mstate : Type := MState {
  prev : option char;
  rest : str;
  caps : list (nat * str)
}.

Definition advance (c : char) (t : str) (s : mstate) : mstate :=
  MState (Some c) t (caps s).

Definition at_bol (multiline : bool) (s : mstate) : bool :=
  match prev s with
  | None => true
  | Some c => multiline && is_line_terminator c
  end.

Definition at_eol (multiline : bool) (s : mstate) : bool :=
  match rest s with
  | [] => true
  | c :: _ => multiline && is_line_terminator c
  end.

(** Text read between two states of one run. *)
Definition consumed (s0 s1 : mstate) : str :=
  take (length (rest s0) - length (rest s1)) (rest s0).

Definition set_cap (i : nat) (s0 s1 : mstate) : mstate :=
  MState (prev s1) (rest s1) ((i, consumed s0 s1) :: caps s1).

(** The loop of a quantifier [r*] / [r*?] over the matcher [body] of
    [r].  An iteration that reads nothing is rejected, as in ECMAScript;
    the loop therefore needs at most one round per code unit left, which
    is the [fuel] it is started with. *)
Fixpoint star_loop (body : mstate -> (mstate -> option mstate) -> option mstate)
    (greedy : bool) (k : mstate -> option mstate) (fuel : nat) (s : mstate)
  : option mstate :=
  match fuel with
  | O => k s
  | S fuel' =>
      if greedy then
        match body s (fun s1 =>
                if (length (rest s1) <? length (rest s))%nat
                then star_loop body greedy k fuel' s1 else None) with
        | Some x => Some x
        | None => k s
        end
      else
        match k s with
        | Some x => Some x
        | None =>
            body s (fun s1 =>
              if (length (rest s1) <? length (rest s))%nat
              then star_loop body greedy k fuel' s1 else None)
        end
  end.

(** Backtracking matcher in continuation-passing style: [rmatch r s k]
    matches [r] at [s] and hands every end state, in priority order, to
    [k] until [k] accepts one. *)
Fixpoint rmatch (r : regex) (s : mstate) (k : mstate -> option mstate)
  : option mstate :=
  match r with
  | Eps => k s
  | Chr p =>
      match rest s with
      | c :: t => if p c then k (advance c t s) else None
      | [] => None
      end
  | Cat r1 r2 => rmatch r1 s (fun s1 => rmatch r2 s1 k)
  | Alt r1 r2 =>
      match rmatch r1 s k with
      | Some x => Some x
      | None => rmatch r2 s k
      end
  | Star greedy r1 => star_loop (rmatch r1) greedy k (S (length (rest s))) s
  | Grp i r1 => rmatch r1 s (fun s1 => k (set_cap i s s1))
  | Bol ml => if at_bol ml s then k s else None
  | Eol ml => if at_eol ml s then k s else None
  end.

(** The result of [RegExp.prototype.exec] / [String.prototype.match]
    without the [g] flag: index, matched text, groups. *)
Record MatchResult : Type := MkMatch {
  index : nat;
  matched : str;
  groups : list (nat * str)
}.

Fixpoint assoc (i : nat) (l : list (nat * str)) : option str :=
  match l with
  | [] => None
  | (j, v) :: l' => if (i =? j)%nat then Some v else assoc i l'
  end.

(** [m[i]] of a match result. *)
Definition group (i : nat) (m : MatchResult) : option str := assoc i (groups m).

(** Try the pattern at the current position, then at each later one. *)
Fixpoint search (r : regex) (p : option char) (input : str) (idx : nat)
  : option MatchResult :=
  let s0 := MState p input [] in
  match rmatch r s0 Some with
  | Some s1 => Some (MkMatch idx (consumed s0 s1) (caps s1))
  | None =>
      match input with
      | [] => None
      | c :: t => search r (Some c) t (S idx)
      end
  end.

(** [re.exec(input)] with [re.lastIndex = from] (0 for a fresh or
    non-global pattern). *)
Definition exec_from (r : regex) (input : str) (from : nat) : option MatchResult :=
  if (length input <? from)%nat then None
  else search r (last (take from input)) (drop from input) from.

Definition exec (r : regex) (input : str) : option MatchResult :=
  exec_from r input 0.

Definition lastIndex (m : MatchResult) : nat := (index m + length (matched m))%nat.

(** A sequence of patterns. *)
Fixpoint Seq (rs : list regex) : regex :=
  match rs with
  | [] => Eps
  | r :: rs' => Cat r (Seq rs')
  end.

(** ** Numbers in text *)

(** A JavaScript number as far as the sources use one: NaN or an
    integer.  The integers are exact in [Z]; JavaScript agrees with this
    on the integers a double holds exactly. *)
Inductive jsnum : Type :=
| NaN
| Num (z : Z).

(** Decimal digits of a natural number, least significant first. *)
Fixpoint digits_le (fuel : nat) (n : N) : str :=
  match fuel with
  | O => [48 + n mod 10]
  | S fuel' =>
      if n <? 10 then [48 + n]
      else (48 + n mod 10) :: digits_le fuel' (n / 10)
  end.

Definition decimal (n : N) : str := rev (digits_le (N.to_nat (N.size n)) n).

(** [Number::toString] (radix 10) on an integer below 10^21 in absolute
    value: the decimal digits, with a minus sign for negative numbers.
    (From 10^21 on JavaScript switches to exponent notation, which is not
    modelled.) *)
Definition number_to_string (z : Z) : str :=
  if (z <? 0)%Z then chr "-" :: decimal (Z.to_N (- z)) else decimal (Z.to_N z).

(** Value of a code unit as a digit of the radix. *)
Definition digit_val (radix : N) (c : char) : option N :=
  let v :=
    if (48 <=? c) && (c <=? 57) then Some (c - 48)
    else if (97 <=? c) && (c <=? 122) then Some (c - 87)
    else if (65 <=? c) && (c <=? 90) then Some (c - 55)
    else None in
  match v with
  | Some d => if d <? radix then Some d else None
  | None => None
  end.

(** Reads the longest prefix of digits; [None] when there is none. *)
Fixpoint parse_digits (radix : N) (acc : option N) (s : str) : option N :=
  match s with
  | c :: s' =>
      match digit_val radix c with
      | Some d => parse_digits radix (Some (default 0 acc * radix + d)) s'
      | None => acc
      end
  | [] => acc
  end.

(** [parseInt(s)] with no radix argument (ECMAScript 19.2.5): leading
    white space is skipped, a sign is read, a [0x]/[0X] prefix selects
    radix 16, and the longest prefix of digits gives the value; NaN when
    there is no digit. *)
Definition parseInt (s : str) : jsnum :=
  let s1 := trimStart s in
  let '(neg, s2) :=
    match s1 with
    | c :: t => if c =? chr "-" then (true, t)
                else if c =? chr "+" then (false, t) else (false, s1)
    | [] => (false, s1)
    end in
  let '(radix, s3) :=
    match s2 with
    | c0 :: c1 :: t =>
        if (c0 =? chr "0") && ((c1 =? chr "x") || (c1 =? chr "X"))
        then (16, t) else (10, s2)
    | _ => (10, s2)
    end in
  match parse_digits radix None s3 with
  | Some n => Num (if neg then - Z.of_N n else Z.of_N n)
  | None => NaN
  end.

(** ** run.ts: the changelog extractor *)

Definition digit : regex := Chr is_digit.
Definition space : regex := Chr is_space.
Definition dot : regex := Chr is_dot.

(** [/^## \d+\.\d+\.\d+/gm] *)
Definition versionHeader : regex :=
  Seq [Bol true; Lit (lit "## "); Plus true digit; Lit (lit ".");
       Plus true digit; Lit (lit "."); Plus true digit].

(** [/## (.+)\s*$/m] *)
Definition headerLine : regex :=
  Seq [Lit (lit "## "); Grp 1 (Plus true dot); Star true space; Eol true].

Record ChangelogEntry : Type := MkEntry {
  version : str;
  content : str
}.

(** An exception that leaves the procedure. *)
Inductive exn : Type :=
| TypeError                       (* property access on null, from a [!] *)
| Error (msg : str)               (* [throw new Error(msg)] *)
| FsError (code : str)            (* a failed file or module lookup, with [err.code] *)
| HostError.                      (* a failed request to the release host *)

(** The body of [getLatestChangelogEntry] after the file is read.  The
    pattern has the [g] flag, so the second [exec] starts at the
    [lastIndex] the first one left. *)
Definition latestChangelogEntryOf (changelog : str) : exn + ChangelogEntry :=
  match exec_from versionHeader changelog 0 with
  | None => inl TypeError
  | Some m1 =>
      let start := index m1 in
      let endExecResult := exec_from versionHeader changelog (lastIndex m1) in
      let end_ := match endExecResult with
                  | Some m2 => index m2
                  | None => length changelog
                  end in
      let latestChangelogEntry := slice changelog start end_ in
      match exec headerLine latestChangelogEntry with
      | None => inl TypeError
      | Some m =>
          match group 1 m with
          | None => inl TypeError
          | Some version =>
              inr (MkEntry version
                     (trim (slice_from latestChangelogEntry (length (matched m)))))
          end
      end
  end.

(** ** run.ts: the frontmatter codec *)

Record Frontmatter : Type := MkFrontmatter {
  draftId : option Z;
  checksum : option str
}.

(** [/\s*---([^]*?)\n\s*---\s*\n/] *)
Definition frontmatterRegex : regex :=
  Seq [Star true space; Lit (lit "---"); Grp 1 (Star false (Chr is_any));
       Chr (is_char LF); Star true space; Lit (lit "---"); Star true space;
       Chr (is_char LF)].

(** [/^draft_id:(.+)/] *)
Definition draftIdRegex : regex :=
  Seq [Bol false; Lit (lit "draft_id:"); Grp 1 (Plus true dot)].

(** [/^checksum:(.+)/] *)
Definition checksumRegex : regex :=
  Seq [Bol false; Lit (lit "checksum:"); Grp 1 (Plus true dot)].

(** One round of the [for] loop over the lines of the block; the state
    is the pair of the local variables [draftId] and [checksum]. *)
Definition frontmatterLine (acc : option jsnum * option str) (line : str)
  : option jsnum * option str :=
  match exec draftIdRegex line with
  | Some draftIdMatch =>
      (Some (parseInt (trim (default [] (group 1 draftIdMatch)))), acc.2)
  | None =>
      match exec checksumRegex line with
      | Some checksumMatch =>
          (acc.1, Some (trim (default [] (group 1 checksumMatch))))
      | None => acc
      end
  end.

Definition getPullFrontmatterData (pullBody : str) : option Frontmatter :=
  match exec frontmatterRegex pullBody with
  | None => None
  | Some frontmatterMatch =>
      let frontmatterContent := default [] (group 1 frontmatterMatch) in
      let '(draftId, checksum) :=
        foldl frontmatterLine (None, None) (split_lines frontmatterContent) in
      Some (MkFrontmatter
              (match draftId with
               | Some (Num n) => Some n
               | _ => None
               end)
              checksum)
  end.

(** [createPullFrontmatter({ draftId, checksum })] *)
Definition createPullFrontmatter (draftId : Z) (checksum : str) : str :=
  lit "---" ++ [LF] ++ lit "draft_id: " ++ number_to_string draftId ++ [LF]
  ++ lit "checksum: " ++ checksum ++ [LF] ++ lit "---".


(** ** Reading the matcher: list functions that say what a pattern does *)

Fixpoint starts_with (w u : str) : bool :=
  match w, u with
  | [], _ => true
  | c :: w', d :: u' => (d =? c) && starts_with w' u'
  | _ :: _, [] => false
  end.

(** The code unit before the position reached by reading [w]. *)
Definition prev_after (pv : option char) (w : str) : option char :=
  match last w with
  | Some c => Some c
  | None => pv
  end.

(** What [p*] does before a continuation [k]: longest run first. *)
Fixpoint star_greedy (p : char -> bool) (k : mstate -> option mstate)
    (pv : option char) (u : str) (cs : list (nat * str)) : option mstate :=
  match u with
  | c :: t =>
      if p c then
        match star_greedy p k (Some c) t cs with
        | Some x => Some x
        | None => k (MState pv u cs)
        end
      else k (MState pv u cs)
  | [] => k (MState pv [] cs)
  end.

(** What [p*?] does before a continuation [k]: shortest run first. *)
Fixpoint star_lazy (p : char -> bool) (k : mstate -> option mstate)
    (pv : option char) (u : str) (cs : list (nat * str)) : option mstate :=
  match k (MState pv u cs) with
  | Some x => Some x
  | None =>
      match u with
      | c :: t => if p c then star_lazy p k (Some c) t cs else None
      | [] => None
      end
  end.

(** A pattern without capture groups. *)
Fixpoint no_groups (r : regex) : bool :=
  match r with
  | Eps | Chr _ | Bol _ | Eol _ => true
  | Cat r1 r2 | Alt r1 r2 => no_groups r1 && no_groups r2
  | Star _ r1 => no_groups r1
  | Grp _ _ => false
  end.

(** *** The frontmatter pattern, read as list functions *)

(** The tail of [frontmatterRegex] after its capture group. *)
Definition closeRegex : regex :=
  Seq [Chr (is_char LF); Star true space; Lit (lit "---"); Star true space;
       Chr (is_char LF)].

(** The white-space run at the start of [u] holds a line feed. *)
Fixpoint space_run_has_lf (u : str) : bool :=
  match u with
  | c :: t => if c =? LF then true
              else if is_space c then space_run_has_lf t else false
  | [] => false
  end.

(** [u] starts with a closing delimiter: a line feed, white space,
    [---], white space, a line feed. *)
Definition closesb (u : str) : bool :=
  match u with
  | c :: u1 =>
      (c =? LF) && starts_with (lit "---") (trimStart u1)
      && space_run_has_lf (drop 3 (trimStart u1))
  | [] => false
  end.

(** The text before the first closing delimiter. *)
Fixpoint find_close (u : str) : option str :=
  if closesb u then Some []
  else match u with
       | c :: t => cons c <$> find_close t
       | [] => None
       end.

(** The block that opens at [u]: white space, [---], then the text up to
    the first closing delimiter. *)
Definition block_at (u : str) : option str :=
  if starts_with (lit "---") (trimStart u)
  then find_close (drop 3 (trimStart u)) else None.

(** The first block of a text, scanning the start positions from the left. *)
Fixpoint first_block (u : str) : option str :=
  match block_at u with
  | Some c => Some c
  | None =>
      match u with
      | _ :: t => first_block t
      | [] => None
      end
  end.

(** The value of a [key:value] line: the text after the key up to the
    first line terminator, when the line starts with the key and that
    text is not empty. *)
Definition key_value (key line : str) : option str :=
  if starts_with key line then
    match takeWhile is_dot (drop (length key) line) with
    | [] => None
    | v => Some v
    end
  else None.

(** The value of the last line with the key. *)
Definition last_value (key : str) (lines : list str) : option str :=
  last (omap (key_value key) lines).

(** [/^key(.+)/] *)
Definition keyRegex (key : str) : regex :=
  Seq [Bol false; Lit key; Grp 1 (Plus true dot)].

(** The integer a value text denotes for [parseInt], if any. *)
Definition int_value (v : str) : option Z :=
  match parseInt (trim v) with
  | Num n => Some n
  | NaN => None
  end.

(** The frontmatter a block text holds: each field from the last line
    that carries its key, the two fields independently of each other. *)
Definition decode_block (blk : str) : Frontmatter :=
  MkFrontmatter
    (last_value (lit "draft_id:") (split_lines blk) ≫= int_value)
    (trim <$> last_value (lit "checksum:") (split_lines blk)).

(** A text holds a block: somewhere [---], later a closing delimiter
    (line feed, white space, [---], white space, line feed). *)
Definition has_block (body : str) : Prop :=
  exists pre blk w1 w2 post,
    body = pre ++ lit "---" ++ blk ++ [LF] ++ w1 ++ lit "---" ++ w2 ++ [LF] ++ post
    /\ Forall (fun c => is_space c = true) w1
    /\ Forall (fun c => is_space c = true) w2.

(** A delimiter line in the words of the specification: optional
    leading white space, then [---] and nothing else. *)
Definition delimiter_line (l : str) : bool :=
  bool_decide (trimStart l = lit "---").

Definition delimiter_lines (body : str) : list str :=
  filter (fun l => delimiter_line l = true) (split_lines body).

(** *** The changelog patterns, read as list functions *)

(** [\d+]: what follows the digits, when there is at least one. *)
Definition digits_then (u : str) : option str :=
  match u with
  | c :: t => if is_digit c then Some (dropWhile is_digit t) else None
  | [] => None
  end.

(** One given code unit: what follows it. *)
Definition char_then (x : char) (u : str) : option str :=
  match u with
  | c :: t => if c =? x then Some t else None
  | [] => None
  end.

(** [## \d+\.\d+\.\d+] read at the start of [u]: what follows the match. *)
Definition header_rest (u : str) : option str :=
  if starts_with (lit "## ") u then
    r1 ← digits_then (drop 3 u) ≫= char_then (chr ".");
    r2 ← digits_then r1 ≫= char_then (chr ".");
    digits_then r2
  else None.

(** [^] with the [m] flag. *)
Definition line_start (pv : option char) : bool :=
  match pv with
  | None => true
  | Some c => is_line_terminator c
  end.

Definition header_at (pv : option char) (u : str) : option str :=
  if line_start pv then header_rest u else None.

(** The text split at its first version header: what comes before the
    header, the header text [## x.y.z], what comes after it. *)
Fixpoint split_header (pv : option char) (u : str) : option (str * str * str) :=
  match header_at pv u with
  | Some r => Some ([], take (length u - length r) u, r)
  | None =>
      match u with
      | c :: t =>
          match split_header (Some c) t with
          | Some (b, h, a) => Some (c :: b, h, a)
          | None => None
          end
      | [] => None
      end
  end.

(** The extractor without patterns: the entry runs from the first header
    to the next one (or to the end), its version is the rest of its
    first line, its content is what follows that line, trimmed. *)
Definition entry_of (changelog : str) : option ChangelogEntry :=
  match split_header None changelog with
  | None => None
  | Some (_, h, a) =>
      let body := match split_header (last h) a with
                  | Some (b2, _, _) => b2
                  | None => a
                  end in
      let entry := h ++ body in
      Some (MkEntry (takeWhile is_dot (drop 3 entry))
                    (trim (dropWhile is_dot (drop 3 entry))))
  end.

(** The text holds no [## ] followed by a digit. *)
Definition hash_digit_at (u : str) : bool :=
  match u with
  | c0 :: c1 :: c2 :: c3 :: _ =>
      (c0 =? chr "#") && (c1 =? chr "#") && (c2 =? chr " ") && is_digit c3
  | _ => false
  end.

Fixpoint no_hash_digit (u : str) : bool :=
  match u with
  | [] => true
  | c :: t => negb (hash_digit_at (c :: t)) && no_hash_digit t
  end.

(** The text is empty or ends with a line terminator, so that what
    follows it starts a line. *)
Definition ends_line (u : str) : bool :=
  match last u with
  | None => true
  | Some c => is_line_terminator c
  end.

(** No white space at either end. *)
Definition trimmed (s : str) : Prop :=
  match s with c :: _ => is_space c = false | [] => True end
  /\ match last s with Some c => is_space c = false | None => True end.

(** ** The world the procedures act on

    The file system, the release host and the git clone are explicit
    state.  What the environment answers (the output of a command, the
    pull requests of a commit, the packages of the workspace) is data of
    the world; what the procedures do to the environment is recorded in
    [events], in order. *)

Record PackageJson : Type := MkPackageJson {
  pkg_name : str;                 (* packageJson.name *)
  pkg_version : str               (* packageJson.version *)
}.

Record Package : Type := MkPackage {
  dir : str;
  packageJson : PackageJson
}.

Record Release : Type := MkRelease {
  release_id : Z;
  release_name : str;
  tag_name : str;
  release_body : str;
  draft : bool;
  prerelease : bool
}.

Record Pull : Type := MkPull {
  pull_id : Z;
  pull_number : Z;
  pull_body : option str;         (* [None] is null *)
  merged_at : option str          (* [None] is null *)
}.

Inductive Event : Type :=
| Exec (cmd : str) (args : list str)          (* a command was run *)
| CreateRelease (r : Release)                 (* repos.createRelease *)
| UpdateRelease (r : Release)                 (* repos.updateRelease, the release after it *)
| CreatePull (base head title body : str)     (* pulls.create *)
| UpdatePull (number : Z) (title body : str)  (* pulls.update *)
| Unlink (path : str).                        (* fs.unlink *)

(** A file is readable with some content, or access to it fails with an
    error code; a path that is not in the map does not exist (ENOENT). *)
Inductive FileEntry : Type :=
| Content (text : str)
| Failing (code : str).

Record World : Type := MkWorld {
  files : gmap str FileEntry;
  releases : gmap Z Release;                  (* the releases of the host, by id *)
  next_release_id : Z;                        (* the id the host gives out next *)
  commit_pulls : str -> list Pull;            (* listPullRequestsAssociatedWithCommit *)
  search_items : str -> list Pull;            (* search.issuesAndPullRequests, by query *)
  workspace : list Package * str;             (* getPackages: packages and tool *)
  pre_state : option str;                     (* readChangesetState: preState.tag *)
  changesets_cli : exn + (str * bool);        (* loading the CLI: the error thrown, or
                                                 the bin.js path and version < 2.0.0 *)
  stdout_of : str -> list str -> str;         (* what a command prints *)
  stderr_of : str -> list str -> str;
  files_after : str -> list str -> gmap str FileEntry -> gmap str FileEntry;
                                              (* what a command does to the files *)
  history_len : nat;                          (* commits in the full history *)
  depth : nat;                                (* commits the clone holds *)
  deletion_commit : nat -> str;               (* output of the deletion query at a depth *)
  old_git : bool;                             (* git < 2.15 *)
  events : list Event
}.

Definition set_files (f : gmap str FileEntry) (w : World) : World :=
  MkWorld f (releases w) (next_release_id w) (commit_pulls w) (search_items w)
    (workspace w) (pre_state w) (changesets_cli w) (stdout_of w) (stderr_of w)
    (files_after w) (history_len w) (depth w) (deletion_commit w) (old_git w)
    (events w).

Definition set_releases (r : gmap Z Release) (n : Z) (w : World) : World :=
  MkWorld (files w) r n (commit_pulls w) (search_items w)
    (workspace w) (pre_state w) (changesets_cli w) (stdout_of w) (stderr_of w)
    (files_after w) (history_len w) (depth w) (deletion_commit w) (old_git w)
    (events w).

Definition set_depth (d : nat) (w : World) : World :=
  MkWorld (files w) (releases w) (next_release_id w) (commit_pulls w)
    (search_items w) (workspace w) (pre_state w) (changesets_cli w)
    (stdout_of w) (stderr_of w) (files_after w) (history_len w) d
    (deletion_commit w) (old_git w) (events w).

Definition add_event (e : Event) (w : World) : World :=
  MkWorld (files w) (releases w) (next_release_id w) (commit_pulls w)
    (search_items w) (workspace w) (pre_state w) (changesets_cli w)
    (stdout_of w) (stderr_of w) (files_after w) (history_len w) (depth w)
    (deletion_commit w) (old_git w) (events w ++ [e]).

(** The clone is shallow: it holds less than the full history. *)
Definition shallow (w : World) : bool := (depth w <? history_len w)%nat.

(** *** Procedures: state and exceptions *)

Definition M (A : Type) : Type := World -> World * (exn + A).

#[global] Instance M_ret : MRet M := fun A x w => (w, inr x).

#[global] Instance M_bind : MBind M := fun A B f m w =>
  match m w with
  | (w1, inr x) => f x w1
  | (w1, inl e) => (w1, inl e)
  end.

Definition throw {A} (e : exn) : M A := fun w => (w, inl e).

(** [try { m } catch (err) { h err }] *)
Definition try_catch {A} (m : M A) (h : exn -> M A) : M A := fun w =>
  match m w with
  | (w1, inl e) => h e w1
  | (w1, inr x) => (w1, inr x)
  end.

Definition emit (e : Event) : M unit := fun w => (add_event e w, inr tt).

Definition ask {A} (f : World -> A) : M A := fun w => (w, inr (f w)).

(** [err.code] *)
Definition err_code (e : exn) : option str :=
  match e with
  | FsError code => Some code
  | _ => None
  end.

(** [path.join(a, b)] for a directory and a file name (no normalisation
    of the result is modelled). *)
Definition path_join (a b : str) : str := a ++ lit "/" ++ b.

(** [fs.readFile(path, "utf8")] *)
Definition readFile (path : str) : M str := fun w =>
  match files w !! path with
  | Some (Content text) => (w, inr text)
  | Some (Failing code) => (w, inl (FsError code))
  | None => (w, inl (FsError (lit "ENOENT")))
  end.

(** [fs.unlink(path)] *)
Definition unlink (path : str) : M unit := fun w =>
  match files w !! path with
  | Some (Content _) => (add_event (Unlink path) (set_files (delete path (files w)) w), inr tt)
  | Some (Failing code) => (w, inl (FsError code))
  | None => (w, inl (FsError (lit "ENOENT")))
  end.

Definition git : str := lit "git".

Definition deletion_query : list str :=
  [lit "log"; lit "--max-count=1"; lit "--diff-filter=D";
   lit "--pretty=format:%h"; lit "--"; lit ".changeset/*.md"].

Definition shallow_query : list str :=
  [lit "rev-parse"; lit "--is-shallow-repository"].

Definition list_eqb (a b : list str) : bool := bool_decide (a = b).

(** What a command prints.  The two git queries of the commit locator
    depend on the clone: the deletion query on its depth, the shallow
    query on whether it is shallow (an old git does not know the option
    and prints it back). *)
Definition command_stdout (w : World) (cmd : str) (args : list str) : str :=
  if bool_decide (cmd = git) && list_eqb args deletion_query
  then deletion_commit w (depth w)
  else if bool_decide (cmd = git) && list_eqb args shallow_query
  then (if old_git w then lit "--is-shallow-repository"
        else if shallow w then lit "true" else lit "false") ++ [LF]
  else stdout_of w cmd args.

(** [exec(cmd, args)] of @actions/exec *)
Definition exec_command (cmd : str) (args : list str) : M unit := fun w =>
  (add_event (Exec cmd args) (set_files (files_after w cmd args (files w)) w), inr tt).

(** [execWithOutput(cmd, args)] of utils: the pair of stdout and stderr. *)
Definition execWithOutput (cmd : str) (args : list str) : M (str * str) := fun w =>
  (add_event (Exec cmd args) (set_files (files_after w cmd args (files w)) w),
   inr (command_stdout w cmd args, stderr_of w cmd args)).

(** *** The release host *)

(** [octokit.repos.createRelease]: the host stores the release under a
    fresh id and returns it. *)
Definition repos_createRelease (name tag body : str) (is_draft is_prerelease : bool)
  : M Release := fun w =>
  let r := MkRelease (next_release_id w) name tag body is_draft is_prerelease in
  (add_event (CreateRelease r)
     (set_releases (<[next_release_id w := r]> (releases w))
        (next_release_id w + 1)%Z w),
   inr r).

(** [octokit.repos.getRelease] *)
Definition repos_getRelease (id : Z) : M Release := fun w =>
  match releases w !! id with
  | Some r => (w, inr r)
  | None => (w, inl HostError)
  end.

(** [octokit.repos.updateRelease]: the fields that are given replace
    the stored ones; the updated release is returned. *)
Definition repos_updateRelease (id : Z) (is_draft : bool)
    (fields : option (str * str * str)) : M Release := fun w =>
  match releases w !! id with
  | Some r =>
      let r' := match fields with
                | Some (name, tag, body) =>
                    MkRelease id name tag body is_draft (prerelease r)
                | None =>
                    MkRelease id (release_name r) (tag_name r) (release_body r)
                      is_draft (prerelease r)
                end in
      (add_event (UpdateRelease r')
         (set_releases (<[id := r']> (releases w)) (next_release_id w) w),
       inr r')
  | None => (w, inl HostError)
  end.

(** ** gitUtils.ts *)

(** What [git fetch --deepen=by] does to the clone: it holds [by] more
    commits, up to the full history. *)
Definition git_deepened (by_ : nat) : M unit := fun w =>
  (set_depth ((depth w + by_) `min` history_len w) w, inr tt).

Definition pushTags : M unit :=
  exec_command git [lit "push"; lit "origin"; lit "--tags"].

Definition push (branch : str) (force : bool) : M unit :=
  exec_command git
    ([lit "push"; lit "origin"; lit "HEAD:" ++ branch]
     ++ (if force then [lit "--force"] else [])).

(** [s.includes(t)] *)
Fixpoint includes (t s : str) : bool :=
  starts_with t s
  || match s with
     | [] => false
     | _ :: s' => includes t s'
     end.

Definition switchToMaybeExistingBranch (branch : str) : M unit :=
  '(_, stderr) ← execWithOutput git [lit "checkout"; branch];
  let isCreatingBranch :=
    negb (includes (lit "Switched to a new branch '" ++ branch ++ lit "'") stderr) in
  if isCreatingBranch then exec_command git [lit "checkout"; lit "-b"; branch]
  else mret tt.

(** [reset(pathSpec)] with the default mode [hard] *)
Definition reset (pathSpec : str) : M unit :=
  exec_command git [lit "reset"; lit "--hard"; pathSpec].

Definition commitAll (message : str) : M unit :=
  exec_command git [lit "add"; lit "."];;
  exec_command git [lit "commit"; lit "-m"; message].

Definition checkIfClean : M bool :=
  '(stdout, _) ← execWithOutput git [lit "status"; lit "--porcelain"];
  mret (bool_decide (stdout = [])).

Definition isRepoShallow : M bool :=
  '(out, _) ← execWithOutput git shallow_query;
  let isShallowRepoOutput := trim out in
  if bool_decide (isShallowRepoOutput = lit "--is-shallow-repository") then
    (* an old git: look for the file [shallow] in the git directory,
       which is there exactly when the clone is shallow *)
    execWithOutput git [lit "rev-parse"; lit "--git-dir"];;
    ask shallow
  else mret (bool_decide (isShallowRepoOutput = lit "true")).

Definition deepenCloneBy (by_ : nat) : M unit :=
  exec_command git [lit "fetch"; lit "--deepen=" ++ decimal (N.of_nat by_)];;
  git_deepened by_.

(** One round of the [while (true)] loop of
    [getLatestChangesetVersionCommit]: [Some r] when the round returns
    [r], [None] when it ends with the deepening and the loop goes on. *)
Definition locator_round : M (option (option str)) :=
  '(out, _) ← execWithOutput git deletion_query;
  let commitHash := trim out in
  if negb (bool_decide (commitHash = [])) then mret (Some (Some commitHash))
  else
    isShallow ← isRepoShallow;
    if negb isShallow then mret (Some None)
    else deepenCloneBy 50;; mret None.

Definition inspect {A} (a : A) : {b : A | a = b} := exist _ a eq_refl.

(** The loop.  A round that goes on has deepened a shallow clone, so the
    part of the history that the clone lacks shrinks with every round. *)
Equations? getLatestChangesetVersionCommit (w : World) : World * (exn + option str)
  by wf (history_len w - depth w)%nat lt :=
  getLatestChangesetVersionCommit w with inspect (locator_round w) := {
    | exist _ (w1, inl e) _ => (w1, inl e)
    | exist _ (w1, inr (Some r)) _ => (w1, inr r)
    | exist _ (w1, inr None) H => getLatestChangesetVersionCommit w1
  }.
Proof.
  clear getLatestChangesetVersionCommit.
  cbv beta iota zeta delta [locator_round isRepoShallow deepenCloneBy git_deepened
    execWithOutput exec_command ask mbind M_bind mret M_ret] in H.
  repeat (match type of H with
          | context [if ?b then _ else _] => destruct b eqn:?
          end; cbv beta iota zeta in H); try discriminate.
  - (* an old git: the file [shallow] was there *)
    injection H as <-.
    match goal with E : negb (shallow _) = false |- _ =>
      apply negb_false_iff, Nat.ltb_lt in E;
      cbn [history_len depth set_depth add_event set_files] in E |- * end.
    lia.
  - (* the shallow query printed [true] *)
    injection H as <-.
    match goal with
    | E0 : bool_decide (trim (command_stdout ?w0 _ _) = _) = false,
      E1 : negb (bool_decide (trim (command_stdout ?w0 _ _) = _)) = false |- _ =>
        unfold command_stdout in E0, E1;
        change (bool_decide (git = git) && list_eqb shallow_query deletion_query)
          with false in E0, E1;
        change (bool_decide (git = git) && list_eqb shallow_query shallow_query)
          with true in E0, E1;
        cbv iota in E0, E1;
        destruct (old_git w0); [vm_compute in E0; discriminate|];
        destruct (shallow w0) eqn:Es; [|vm_compute in E1; discriminate];
        apply Nat.ltb_lt in Es;
        cbn [history_len depth set_depth add_event set_files] in Es |- *
    end.
    lia.
Qed.

(** *** Reading the locator *)

(** Two worlds with the same clone: only files and events may differ. *)
Definition same_clone (w w' : World) : Prop :=
  history_len w' = history_len w /\ depth w' = depth w
  /\ deletion_commit w' = deletion_commit w /\ old_git w' = old_git w.

(** The commands of one round up to the shallow test. *)
Definition query_events (w : World) : list Event :=
  Exec git deletion_query :: Exec git shallow_query
  :: (if old_git w then [Exec git [lit "rev-parse"; lit "--git-dir"]] else []).

Definition deepen_event : Event := Exec git [lit "fetch"; lit "--deepen=50"].

(** The depth of a clone of depth [d] in a history of [h] commits after
    [n] deepenings by 50. *)
Fixpoint depth_after (n d h : nat) : nat :=
  match n with
  | O => d
  | S n' => depth_after n' ((d + 50) `min` h) h
  end.

(** The events of [n] rounds that each ended with a deepening. *)
Fixpoint rounds_events (n : nat) (w : World) : list Event :=
  match n with
  | O => []
  | S n' => query_events w ++ deepen_event :: rounds_events n' w
  end.

(** ** run.ts: publishing *)

(** *** Dates

    [new Date(s)] as far as the comparator of the pull requests needs
    it: the time value of the date-time texts of the release host,
    [YYYY-MM-DDTHH:MM:SSZ], and of the date form [YYYY-MM-DD] (both
    UTC), in milliseconds since the epoch; NaN for any other text. *)

Definition digit_of (c : char) : option Z :=
  if is_digit c then Some (Z.of_N (c - 48)) else None.

Fixpoint number_of (acc : Z) (s : str) : option Z :=
  match s with
  | [] => Some acc
  | c :: s' =>
      match digit_of c with
      | Some d => number_of (acc * 10 + d) s'
      | None => None
      end
  end.

Definition is_leap (y : Z) : bool :=
  ((y mod 4 =? 0) && negb (y mod 100 =? 0) || (y mod 400 =? 0))%Z.

Definition days_in_month (y m : Z) : Z :=
  if (m =? 2)%Z then (if is_leap y then 29 else 28)
  else if ((m =? 4) || (m =? 6) || (m =? 9) || (m =? 11))%Z then 30 else 31.

(** Days from 1970-01-01 to the given day of the civil calendar. *)
Definition days_from_civil (y m d : Z) : Z :=
  let y1 := (if m <=? 2 then y - 1 else y)%Z in
  let era := (y1 / 400)%Z in
  let yoe := (y1 - era * 400)%Z in
  let doy := ((153 * (if m >? 2 then m - 3 else m + 9) + 2) / 5 + d - 1)%Z in
  let doe := (yoe * 365 + yoe / 4 - yoe / 100 + doy)%Z in
  (era * 146097 + doe - 719468)%Z.

Definition date_part (s : str) : option Z :=
  match s with
  | [y1; y2; y3; y4; s1; m1; m2; s2; d1; d2] =>
      if (s1 =? chr "-") && (s2 =? chr "-") then
        y ← number_of 0 [y1; y2; y3; y4];
        m ← number_of 0 [m1; m2];
        d ← number_of 0 [d1; d2];
        if ((1 <=? m) && (m <=? 12) && (1 <=? d) && (d <=? days_in_month y m))%Z
        then Some (days_from_civil y m d * 86400000)%Z else None
      else None
  | _ => None
  end.

Definition time_part (s : str) : option Z :=
  match s with
  | [t; h1; h2; s1; m1; m2; s2; c1; c2; z] =>
      if (t =? chr "T") && (s1 =? chr ":") && (s2 =? chr ":") && (z =? chr "Z") then
        h ← number_of 0 [h1; h2];
        m ← number_of 0 [m1; m2];
        c ← number_of 0 [c1; c2];
        if ((h <=? 23) && (m <=? 59) && (c <=? 59))%Z
        then Some ((h * 3600 + m * 60 + c) * 1000)%Z else None
      else None
  | _ => None
  end.

Definition Date (s : str) : jsnum :=
  match date_part (take 10 s) with
  | Some day =>
      match drop 10 s with
      | [] => Num day
      | t => match time_part t with
             | Some ms => Num (day + ms)
             | None => NaN
             end
      end
  | None => NaN
  end.

(** [a > b] and [a < b] on numbers: false when either is NaN. *)
Definition js_gt (a b : jsnum) : bool :=
  match a, b with
  | Num x, Num y => (y <? x)%Z
  | _, _ => false
  end.

Definition js_lt (a b : jsnum) : bool :=
  match a, b with
  | Num x, Num y => (x <? y)%Z
  | _, _ => false
  end.

(** *** The pull request of a commit *)

(** The comparator given to [pulls.sort]. *)
Definition compare_pulls (a b : Pull) : Z :=
  match merged_at a, merged_at b with
  | None, None => 0
  | None, Some _ => 1
  | Some _, None => -1
  | Some ta, Some tb =>
      let mergedAtA := Date ta in
      let mergedAtB := Date tb in
      if js_gt mergedAtA mergedAtB then 1
      else if js_lt mergedAtA mergedAtB then -1 else 0
  end.

(** [Array.prototype.sort] with a comparator.  The sort is stable; for a
    comparator that orders by a key, as this one does on valid dates,
    every stable sort gives the same array, here by insertion from the
    right: an element goes before the first one it is not greater than. *)
Fixpoint insert_sorted {A} (cmp : A -> A -> Z) (x : A) (l : list A) : list A :=
  match l with
  | [] => [x]
  | y :: l' =>
      if (cmp x y <=? 0)%Z then x :: y :: l' else y :: insert_sorted cmp x l'
  end.

Definition array_sort {A} (cmp : A -> A -> Z) (l : list A) : list A :=
  foldr (insert_sorted cmp) [] l.

(** [pulls.sort(...)[0] || null] *)
Definition select_pull (pulls : list Pull) : option Pull :=
  head (array_sort compare_pulls pulls).

(** *** The publish output *)

(** [/New tag:\s+(@[^/]+\/[^@]+|[^/]+)@([^\s]+)/] *)
Definition newTagRegex : regex :=
  Seq [Lit (lit "New tag:"); Plus true space;
       Grp 1 (Alt (Seq [Lit (lit "@"); Plus true (Chr (is_not_char (chr "/")));
                        Lit (lit "/"); Plus true (Chr (is_not_char (chr "@")))])
                  (Plus true (Chr (is_not_char (chr "/")))));
       Lit (lit "@"); Grp 2 (Plus true (Chr is_not_space))].

(** [/New tag:/] *)
Definition newTagRootRegex : regex := Lit (lit "New tag:").

(** [new Map(packages.map((x) => [x.packageJson.name, x]))]: a later
    package of the same name replaces an earlier one. *)
Definition packagesByName_of (packages : list Package) : gmap str Package :=
  foldl (fun m x => <[pkg_name (packageJson x) := x]> m) ∅ packages.

Definition not_found_message (pkgName : str) : str :=
  lit "Package " ++ [34] ++ pkgName ++ [34]
  ++ lit " not found.This is probably a bug in the action, please open an issue".

(** The [for] loop over the lines of the output in a workspace of
    several packages; [releasedPackages] is the array built so far. *)
Fixpoint released_loop (packagesByName : gmap str Package) (lines : list str)
    (releasedPackages : list Package) : exn + list Package :=
  match lines with
  | [] => inr releasedPackages
  | line :: lines' =>
      match exec newTagRegex line with
      | None => released_loop packagesByName lines' releasedPackages
      | Some m =>
          let pkgName := default [] (group 1 m) in
          match packagesByName !! pkgName with
          | None => inl (Error (not_found_message pkgName))
          | Some pkg =>
              released_loop packagesByName lines' (releasedPackages ++ [pkg])
          end
      end
  end.

Record PublishedPackage : Type := MkPublished {
  published_name : str;
  published_version : str
}.

Inductive PublishResult : Type :=
| Published (publishedPackages : list PublishedPackage)   (* published: true *)
| NotPublished.                                           (* published: false *)

Definition lift {A} (r : exn + A) : M A := fun w => (w, r).

(** [script.split(/\s+/)]: the pieces between runs of white space. *)
Fixpoint split_ws_from (in_space : bool) (s : str) : list str :=
  match s with
  | [] => [[]]
  | c :: t =>
      if is_space c then
        (if in_space then split_ws_from true t else [] :: split_ws_from true t)
      else
        match split_ws_from false t with
        | l :: ls => (c :: l) :: ls
        | [] => [[c]]
        end
  end.

Definition split_ws (s : str) : list str := split_ws_from false s.

(** The part of [runPublish] for a workspace of several packages once
    packages were released: find the commit that removed the changesets,
    its pull request, and promote the draft release that pull request
    names. *)
Definition promote_draft : M unit :=
  commit ← (getLatestChangesetVersionCommit : M (option str));
  match commit with
  | Some commit =>
      if bool_decide (commit = []) then mret tt
      else
        pulls ← ask (fun w => commit_pulls w commit);
        match select_pull pulls with
        | Some pull =>
            let frontmatterData := getPullFrontmatterData (default [] (pull_body pull)) in
            match frontmatterData with
            | Some (MkFrontmatter (Some draftId) _) =>
                if (draftId =? 0)%Z then mret tt
                else repos_updateRelease draftId false None;; mret tt
            | _ => mret tt
            end
        | None => mret tt
        end
  | None => mret tt
  end.

Section Publish.

(** [getChangelogEntry(changelog, version)] of utils: the content of
    the entry of that version, if the changelog has one. *)
Variable getChangelogEntry : str -> str -> option str.

Definition createRelease (pkg : Package) (tagName : str) : M unit :=
  try_catch
    (let changelogFileName := path_join (dir pkg) (lit "CHANGELOG.md") in
     changelog ← readFile changelogFileName;
     match getChangelogEntry changelog (pkg_version (packageJson pkg)) with
     | None =>
         throw (Error (lit "Could not find changelog entry for "
                       ++ pkg_name (packageJson pkg) ++ lit "@"
                       ++ pkg_version (packageJson pkg)))
     | Some changelogEntry_content =>
         repos_createRelease tagName tagName changelogEntry_content false
           (includes (lit "-") (pkg_version (packageJson pkg)));;
         mret tt
     end)
    (fun err =>
       (* if we can't find a changelog, the user has probably disabled changelogs *)
       if bool_decide (err_code err = Some (lit "ENOENT")) then mret tt
       else throw err).

(** The [for] loop over the lines of the output in a workspace of one
    package: the first line with the marker releases the package and
    ends the loop. *)
Fixpoint root_loop (pkg : Package) (lines : list str)
    (releasedPackages : list Package) : M (list Package) :=
  match lines with
  | [] => mret releasedPackages
  | line :: lines' =>
      match exec newTagRootRegex line with
      | Some _ =>
          createRelease pkg (lit "v" ++ pkg_version (packageJson pkg));;
          mret (releasedPackages ++ [pkg])
      | None => root_loop pkg lines' releasedPackages
      end
  end.

(** The [if (tool !== "root") ... else ...] of [runPublish]: the
    packages that the output reports as released. *)
Definition released_packages (packages : list Package) (tool : str)
    (stdout : str) : M (list Package) :=
  if negb (bool_decide (tool = lit "root")) then
    let packagesByName := packagesByName_of packages in
    releasedPackages ← lift (released_loop packagesByName (split_lines stdout) []);
    (if negb (bool_decide (releasedPackages = [])) then promote_draft
     else mret tt);;
    mret releasedPackages
  else
    match packages with
    | [] =>
        throw (Error (lit "No package found.This is probably a bug in the action, please open an issue"))
    | pkg :: _ => root_loop pkg (split_lines stdout) []
    end.

(** The value [runPublish] returns for the released packages. *)
Definition publish_result (releasedPackages : list Package) : PublishResult :=
  if negb (bool_decide (releasedPackages = [])) then
    Published
      (map (fun pkg => MkPublished (pkg_name (packageJson pkg))
                         (pkg_version (packageJson pkg)))
         releasedPackages)
  else NotPublished.

Definition runPublish (script : str) : M PublishResult :=
  let publishCommand := default [] (head (split_ws script)) in
  let publishArgs := tail (split_ws script) in
  '(stdout, _) ← execWithOutput publishCommand publishArgs;
  pushTags;;
  '(packages, tool) ← ask workspace;
  releasedPackages ← released_packages packages tool stdout;
  mret (publish_result releasedPackages).

End Publish.

(** *** Reading the resolver and the matcher *)

(** The merge time of a pull request, when it has a merge timestamp that
    is a date. *)
Definition merge_time (p : Pull) : option Z :=
  match merged_at p with
  | Some s => match Date s with Num t => Some t | NaN => None end
  | None => None
  end.

(** Every merge timestamp of the list is a date. *)
Definition valid_dates (pulls : list Pull) : bool :=
  forallb (fun p => match merged_at p with
                    | Some s => match Date s with Num _ => true | NaN => false end
                    | None => true
                    end) pulls.

(** [p] does not come after [q] in the order of the comparator: merged
    before unmerged, earlier merge first. *)
Definition not_after (p q : Pull) : Prop :=
  match merge_time p, merge_time q with
  | Some a, Some b => (a <= b)%Z
  | Some _, None => True
  | None, Some _ => False
  | None, None => True
  end.

(** The names that the lines of the publish output report, in order. *)
Definition reported_names (stdout : str) : list str :=
  omap (fun line => default [] ∘ group 1 <$> exec newTagRegex line)
    (split_lines stdout).

(** The candidates of the example in the specification. *)
Definition pr_unmerged : Pull := MkPull 1 101 None None.
Definition pr_february : Pull := MkPull 2 102 None (Some (lit "2023-02-01")).
Definition pr_january : Pull := MkPull 3 103 None (Some (lit "2023-01-01")).

(** The world when [runPublish] starts to read the output: the publish
    command was run and the tags were pushed. *)
Definition after_publish_command (script : str) (w : World) : World :=
  let cmd := default [] (head (split_ws script)) in
  let args := tail (split_ws script) in
  add_event (Exec git [lit "push"; lit "origin"; lit "--tags"])
    (set_files (files_after w git [lit "push"; lit "origin"; lit "--tags"]
                  (files_after w cmd args (files w)))
       (add_event (Exec cmd args) w)).

(** The output of the publish command. *)
Definition publish_stdout (script : str) (w : World) : str :=
  command_stdout w (default [] (head (split_ws script))) (tail (split_ws script)).

(** The packages of a list of names, in order, or the first name that
    the map does not hold. *)
Fixpoint lookup_all (m : gmap str Package) (names : list str) : str + list Package :=
  match names with
  | [] => inr []
  | n :: ns =>
      match m !! n with
      | None => inl n
      | Some p =>
          match lookup_all m ns with
          | inl e => inl e
          | inr ps => inr (p :: ps)
          end
      end
  end.

Definition to_published (pkg : Package) : PublishedPackage :=
  MkPublished (pkg_name (packageJson pkg)) (pkg_version (packageJson pkg)).

(** The publish output of the example in the specification. *)
Definition two_tags_stdout : str :=
  lit "New tag: pkg-a@1.2.0" ++ [LF] ++ lit "New tag: @scope/pkg-b@0.1.0".

Definition pkg_a : Package :=
  MkPackage (lit "packages/a") (MkPackageJson (lit "pkg-a") (lit "1.2.0")).

Definition pkg_b : Package :=
  MkPackage (lit "packages/b") (MkPackageJson (lit "@scope/pkg-b") (lit "0.1.0")).

(** A world for examples: a full clone without a changeset commit, a
    host without releases and pull requests, commands that print [out]
    and leave the files alone. *)
Definition sample_world (ws : list Package * str) (out : str)
    (fs : gmap str FileEntry) : World :=
  MkWorld fs ∅ 1 (fun _ => []) (fun _ => []) ws None (inl HostError)
    (fun _ _ => out) (fun _ _ => []) (fun _ _ f => f) 1 1 (fun _ => []) false [].

Definition two_tags_world : World :=
  sample_world ([pkg_a; pkg_b], lit "yarn") two_tags_stdout ∅.

(** The line holds the marker [New tag:]. *)
Definition marker_line (line : str) : bool := includes (lit "New tag:") line.

(** The number of releases created on the host so far. *)
Definition is_create_release (e : Event) : bool :=
  match e with
  | CreateRelease _ => true
  | _ => false
  end.

Definition created_releases (w : World) : nat :=
  length (List.filter is_create_release (events w)).

Definition no_package_message : str :=
  lit "No package found.This is probably a bug in the action, please open an issue".

(** A workspace of one package, [pkg-a], with its changelog, and a
    publish output with two marker lines. *)
Definition root_world : World :=
  sample_world ([pkg_a], lit "root")
    (lit "New tag: v1.2.0" ++ [LF] ++ lit "New tag: v1.2.0-again")
    (<[lit "packages/a/CHANGELOG.md" := Content (lit "## 1.2.0")]> ∅).

(** The same without the changelog file. *)
Definition root_world_no_changelog : World :=
  sample_world ([pkg_a], lit "root")
    (lit "New tag: v1.2.0" ++ [LF] ++ lit "New tag: v1.2.0-again") ∅.

(** A root workspace that reports two packages; nothing was published. *)
Definition two_package_root_world : World :=
  sample_world ([pkg_a; pkg_b], lit "root") (lit "nothing to publish") ∅.

(** ** run.ts: versioning *)

(** [github.context] *)
Record Context : Type := MkContext {
  ctx_owner : str;
  ctx_repo : str;
  ctx_ref : str;
  ctx_sha : str
}.

(** [s.replace(pat, by)] with a text pattern: the first occurrence. *)
Fixpoint replace_first (pat by_ s : str) : str :=
  if starts_with pat s then by_ ++ drop (length pat) s
  else match s with
       | [] => []
       | c :: t => c :: replace_first pat by_ t
       end.

(** The warning sign of the pull request text: U+26A0 U+FE0F, six times. *)
Definition warning_signs : str :=
  concat (replicate 6 [0x26A0; 0xFE0F]).

(** The text of the pull request below the frontmatter. *)
Definition pull_text (hasPublishScript : bool) (branch : str)
    (preState : option str) (entry_content : str) : str :=
  lit "This PR was opened by the [Changesets release](https://github.com/changesets/action) GitHub action. When you're ready to do a release, you can merge this and "
  ++ (if hasPublishScript
      then lit "the packages will be published to npm automatically"
      else lit "publish to npm yourself or [setup this action to publish automatically](https://github.com/changesets/action#with-publishing)")
  ++ lit ". If you're not ready to do a release yet, that's fine, whenever you add more changesets to "
  ++ branch ++ lit ", this PR will be updated." ++ [LF]
  ++ (match preState with
      | Some _ =>
          [LF] ++ warning_signs ++ [LF; LF]
          ++ lit "`" ++ branch
          ++ lit "` is currently in **pre mode** so this branch has prereleases rather than normal releases. If you want to exit prereleases, run `changeset pre exit` on `"
          ++ branch ++ lit "`." ++ [LF; LF] ++ warning_signs ++ [LF]
      | None => []
      end)
  ++ [LF] ++ lit "# Releases" ++ [LF] ++ entry_content.

(** The title and the commit message get the tag of the pre mode. *)
Definition with_pre_tag (s : str) (preState : option str) : str :=
  s ++ match preState with
       | Some tag => lit " (" ++ tag ++ lit ")"
       | None => []
       end.

Definition pulls_create (base head title body : str) : M unit :=
  emit (CreatePull base head title body).

Definition pulls_update (number : Z) (title body : str) : M unit :=
  emit (UpdatePull number title body).

Section Version.

(** [md5(str)]: the hex digest of the text, from the crypto library. *)
Variable md5 : str -> str.

(** [getLatestChangelogEntry(filePath)] *)
Definition getLatestChangelogEntry (filePath : str) : M ChangelogEntry :=
  changelog ← readFile filePath;
  lift (latestChangelogEntryOf changelog).

(** [require(resolveFrom(cwd, "@changesets/cli/package.json"))]: the
    world says what loading the package gives or throws. *)
Definition require_cli : M (str * bool) := fun w => (w, changesets_cli w).

(** [requireChangesetsCliPkgJson(cwd)] *)
Definition requireChangesetsCliPkgJson (cwd : str) : M (str * bool) :=
  try_catch require_cli
    (fun err =>
       if bool_decide (err_code err = Some (lit "MODULE_NOT_FOUND")) then
         throw (Error (lit "Have you forgotten to install `@changesets/cli` in "
                       ++ [34] ++ cwd ++ [34] ++ lit "?"))
       else throw err).

(** The versioning command: the script, or the changesets CLI. *)
Definition run_version_command (script : option str) (cwd : str) : M unit :=
  match script with
  | Some (c :: s) =>
      let parts := split_ws (c :: s) in
      exec_command (default [] (head parts)) (tail parts)
  | _ =>
      '(bin, before_2_0_0) ← requireChangesetsCliPkgJson cwd;
      let cmd := if before_2_0_0 : bool then lit "bump" else lit "version" in
      exec_command (lit "node") [bin; cmd]
  end.

(** [runVersion] up to the push of the versioning branch: the result
    is what the rest needs, the pull requests found by the search, the
    latest changelog entry, the pull request text and title. *)
Definition prepare_version (ctx : Context) (script : option str) (cwd : str)
    (prTitle commitMessage : str) (hasPublishScript : bool)
  : M (list Pull * ChangelogEntry * str * str) :=
  let repo := ctx_owner ctx ++ lit "/" ++ ctx_repo ctx in
  let branch := replace_first (lit "refs/heads/") [] (ctx_ref ctx) in
  let versionBranch := lit "changeset-release/" ++ branch in
  preState ← ask pre_state;
  switchToMaybeExistingBranch versionBranch;;
  reset (ctx_sha ctx);;
  run_version_command script cwd;;
  let searchQuery :=
    lit "repo:" ++ repo ++ lit "+state:open+head:" ++ versionBranch
    ++ lit "+base:" ++ branch in
  searchResult ← ask (fun w => search_items w searchQuery);
  latestChangelogEntry ← getLatestChangelogEntry (path_join cwd (lit "CHANGELOG.md"));
  let prBody := pull_text hasPublishScript branch preState
                  (content latestChangelogEntry) in
  let finalPrTitle := with_pre_tag prTitle preState in
  clean ← checkIfClean;
  (if negb clean then
     unlink (path_join cwd (lit "CHANGELOG.md"));;
     commitAll (with_pre_tag commitMessage preState)
   else mret tt);;
  push versionBranch true;;
  mret (searchResult, latestChangelogEntry, prBody, finalPrTitle).

(** The body for a pull request that exists already: the checksum
    guard.  [body] is the pull request text without frontmatter. *)
Definition existing_pull_body (pull : Pull) (latestChangelogEntry : ChangelogEntry)
    (body : str) : M str :=
  let frontmatterData := getPullFrontmatterData (default [] (pull_body pull)) in
  match frontmatterData with
  | Some (MkFrontmatter (Some draftId) (Some checksum)) =>
      if (draftId =? 0)%Z || bool_decide (checksum = []) then mret body
      else
        draftRelease ← repos_getRelease draftId;
        let releaseContentHash := md5 (release_body draftRelease) in
        if bool_decide (releaseContentHash = checksum) then
          updatedRelease ←
            repos_updateRelease draftId true
              (Some (lit "v" ++ version latestChangelogEntry,
                     lit "v" ++ version latestChangelogEntry,
                     content latestChangelogEntry));
          mret (createPullFrontmatter draftId (md5 (release_body updatedRelease))
                ++ [LF; LF] ++ body)
        else
          (* preserve whatever there is so the next run of the action can
             also bail out on the checksum mismatch *)
          mret (createPullFrontmatter draftId checksum ++ [LF; LF] ++ body)
  | _ => mret body
  end.

(** The rest of [runVersion]: create the draft release and the pull
    request, or bring the existing pull request up to date. *)
Definition reconcile_pull (ctx : Context)
    (prepared : list Pull * ChangelogEntry * str * str) : M unit :=
  let '(items, latestChangelogEntry, prBody, finalPrTitle) := prepared in
  let branch := replace_first (lit "refs/heads/") [] (ctx_ref ctx) in
  let versionBranch := lit "changeset-release/" ++ branch in
  match items with
  | [] =>
      draftRelease ←
        repos_createRelease (lit "v" ++ version latestChangelogEntry)
          (lit "v" ++ version latestChangelogEntry)
          (content latestChangelogEntry) true false;
      let body := createPullFrontmatter (release_id draftRelease)
                    (md5 (release_body draftRelease))
                  ++ [LF; LF] ++ prBody in
      pulls_create branch versionBranch finalPrTitle body
  | pull :: _ =>
      body ← existing_pull_body pull latestChangelogEntry prBody;
      pulls_update (pull_number pull) finalPrTitle body
  end.

Definition runVersion (ctx : Context) (script : option str) (cwd : str)
    (prTitle commitMessage : str) (hasPublishScript : bool) : M unit :=
  prepare_version ctx script cwd prTitle commitMessage hasPublishScript
  ≫= reconcile_pull ctx.

End Version.

(** *** Worlds for examples of [runVersion] *)

(** A stand-in for the digest in examples: the length of the text, in
    digits.  The theorems hold for every digest function. *)
Definition demo_hash (s : str) : str := decimal (N.of_nat (length s)).

Definition demo_context : Context :=
  MkContext (lit "owner") (lit "repo") (lit "refs/heads/main") (lit "0123abc").

Definition demo_changelog : str :=
  lit "# pkg" ++ [LF; LF] ++ lit "## 1.1.0" ++ [LF; LF] ++ lit "- new notes" ++ [LF; LF]
  ++ lit "## 1.0.0" ++ [LF; LF] ++ lit "- first" ++ [LF].

(** A world in which the versioning pull request is open with the given
    body and the host holds one draft release, under [id], with the body
    [old notes]. *)
Definition version_world (id : Z) (pr_body : str) : World :=
  MkWorld (<[lit "./CHANGELOG.md" := Content demo_changelog]> ∅)
    (<[id := MkRelease id (lit "v1.0.1") (lit "v1.0.1") (lit "old notes") true false]> ∅)
    (id + 1)
    (fun _ => [])
    (fun _ => [MkPull 900 7 (Some pr_body) None])
    ([], lit "root") None (inl HostError)
    (fun _ _ => []) (fun _ _ => []) (fun _ _ f => f) 1 1 (fun _ => []) false [].

Definition demo_runVersion (w : World) : World * (exn + unit) :=
  runVersion demo_hash demo_context (Some (lit "yarn version")) (lit ".")
    (lit "Version Packages") (lit "Version Packages") false w.

Definition demo_prepare (w : World)
  : World * (exn + (list Pull * ChangelogEntry * str * str)) :=
  prepare_version demo_context (Some (lit "yarn version")) (lit ".")
    (lit "Version Packages") (lit "Version Packages") false w.

(** The last pull request body the procedure wrote. *)
Definition last_pull_body (w : World) : option str :=
  match last (events w) with
  | Some (UpdatePull _ _ body) => Some body
  | Some (CreatePull _ _ _ body) => Some body
  | _ => None
  end.

(** A procedure that leaves the releases of the host as they are. *)
Definition keeps_releases {A} (m : M A) : Prop :=
  forall w w1 r, m w = (w1, r) -> releases w1 = releases w.

(** The pull request body with draft id 0 and the digest of [old notes]. *)
Definition zero_id_body : str :=
  createPullFrontmatter 0 (demo_hash (lit "old notes")) ++ [LF; LF] ++ lit "text".

(** The same with draft id 5, and with draft id 5 and another digest. *)
Definition matching_body : str :=
  createPullFrontmatter 5 (demo_hash (lit "old notes")) ++ [LF; LF] ++ lit "text".

Definition drifted_body : str :=
  createPullFrontmatter 5 (lit "ffff") ++ [LF; LF] ++ lit "text".

(** A body whose frontmatter names the draft 5 and holds a checksum
    line with nothing but blanks after the key. *)
Definition blank_checksum_body : str :=
  lit "---" ++ [LF] ++ lit "draft_id: 5" ++ [LF] ++ lit "checksum:  " ++ [LF]
  ++ lit "---" ++ [LF; LF] ++ lit "text".
(** ** Observations and sample worlds for the properties of whole runs *)

(** ** Counting what the procedures did *)

(** The event is a deepening of the clone by the commit locator. *)
Definition is_deepen (e : Event) : bool :=
  match e with
  | Exec cmd args =>
      bool_decide (cmd = git) && list_eqb args [lit "fetch"; lit "--deepen=50"]
  | _ => false
  end.

(** The number of deepenings run so far. *)
Definition deepenings (w : World) : nat :=
  length (List.filter is_deepen (events w)).

(** [t] occurs in [s]. *)
Definition occurs_in (t s : str) : Prop := exists pre post, s = pre ++ t ++ post.

(** *** Lines of the publish output *)

(** A code unit of a package name without scope: no white space, no
    [/], no [@]. *)
Definition is_name_char (c : char) : bool :=
  is_not_space c && is_not_char (chr "/") c && is_not_char (chr "@") c.

(** The text is empty or starts with white space. *)
Definition space_or_end (s : str) : bool :=
  match s with
  | [] => true
  | c :: _ => is_space c
  end.

(** A line of the publish output that reports a tag: any text without
    an [N], the marker, white space, the name, [@], the version, and
    whatever follows. *)
Definition tag_line (pre sp name ver rest_ : str) : str :=
  pre ++ lit "New tag:" ++ sp ++ name ++ lit "@" ++ ver ++ rest_.

(** The release [r] once it is published: the draft flag is taken
    off, the rest stays. *)
Definition promoted (id : Z) (r : Release) : Release :=
  MkRelease id (release_name r) (tag_name r) (release_body r) false (prerelease r).

(** What the commit locator leaves alone: the releases of the host and
    their count, the pull requests of the commits. *)
Definition same_host (w w' : World) : Prop :=
  releases w' = releases w
  /\ next_release_id w' = next_release_id w
  /\ commit_pulls w' = commit_pulls w
  /\ created_releases w' = created_releases w.

(** A world for examples of the promotion: two packages, both reported
    by the publish output; the deletion query finds a commit, whose pull
    request names the draft release 5 with a checksum that is not the
    digest of its body. *)
Definition promote_world (rel : gmap Z Release) : World :=
  MkWorld ∅ rel 6
    (fun _ => [MkPull 900 7 (Some drifted_body) (Some (lit "2023-01-01T00:00:00Z"))])
    (fun _ => []) ([pkg_a; pkg_b], lit "yarn") None (inl HostError)
    (fun _ _ => two_tags_stdout) (fun _ _ => []) (fun _ _ f => f) 1 1
    (fun _ => lit "abc1234" ++ [LF]) false [].

Definition draft_five : Release :=
  MkRelease 5 (lit "v1.0.1") (lit "v1.0.1") (lit "old notes") true false.

(** *** The world along [runVersion] *)

(** The world after a command was run in it. *)
Definition exec_world (cmd : str) (args : list str) (w : World) : World :=
  add_event (Exec cmd args) (set_files (files_after w cmd args (files w)) w).

(** The base branch and the versioning branch of a run. *)
Definition base_branch (ctx : Context) : str :=
  replace_first (lit "refs/heads/") [] (ctx_ref ctx).

Definition version_branch (ctx : Context) : str :=
  lit "changeset-release/" ++ base_branch ctx.

(** The world after [switchToMaybeExistingBranch]. *)
Definition switched (branch : str) (w : World) : World :=
  if includes (lit "Switched to a new branch '" ++ branch ++ lit "'")
       (stderr_of w git [lit "checkout"; branch])
  then exec_world git [lit "checkout"; branch] w
  else exec_world git [lit "checkout"; lit "-b"; branch]
         (exec_world git [lit "checkout"; branch] w).

(** The world when [runVersion] has switched to the versioning branch
    and reset it to the commit of the run. *)
Definition after_reset (ctx : Context) (w : World) : World :=
  exec_world git [lit "reset"; lit "--hard"; ctx_sha ctx]
    (switched (version_branch ctx) w).

(** The world after the versioning script was run. *)
Definition after_version_script (ctx : Context) (script : str) (w : World) : World :=
  exec_world (default [] (head (split_ws script))) (tail (split_ws script))
    (after_reset ctx w).

(** The force push of the versioning branch. *)
Definition push_event (ctx : Context) : Event :=
  Exec git [lit "push"; lit "origin"; lit "HEAD:" ++ version_branch ctx; lit "--force"].

(** What was done on the release host so far: releases and pull
    requests created or updated. *)
Definition is_host_event (e : Event) : bool :=
  match e with
  | CreateRelease _ | UpdateRelease _ | CreatePull _ _ _ _ | UpdatePull _ _ _ => true
  | _ => false
  end.

Definition host_events (w : World) : list Event :=
  List.filter is_host_event (events w).

(** A procedure under which an observation of the world stays the same. *)
Definition keeps {A B} (f : World -> B) (m : M A) : Prop :=
  forall w w1 r, m w = (w1, r) -> f w1 = f w.

(** The world of the examples with no versioning pull request open. *)
Definition first_run_world : World :=
  MkWorld (<[lit "./CHANGELOG.md" := Content demo_changelog]> ∅) ∅ 1
    (fun _ => []) (fun _ => []) ([], lit "root") None (inl HostError)
    (fun _ _ => []) (fun _ _ => []) (fun _ _ f => f) 1 1 (fun _ => []) false [].

Definition demo_entry : ChangelogEntry := MkEntry (lit "1.1.0") (lit "- new notes").

Definition demo_pull_text : str :=
  pull_text false (lit "main") None (lit "- new notes").

(** A world in which the CLI of changesets is not installed. *)
Definition no_cli_world : World :=
  MkWorld ∅ ∅ 1 (fun _ => []) (fun _ => []) ([], lit "root") None
    (inl (FsError (lit "MODULE_NOT_FOUND")))
    (fun _ _ => []) (fun _ _ => []) (fun _ _ f => f) 1 1 (fun _ => []) false [].

(** The error of [requireChangesetsCliPkgJson] for the error [err] of
    the loading. *)
Definition cli_error (cwd : str) (err : exn) : exn :=
  if bool_decide (err_code err = Some (lit "MODULE_NOT_FOUND")) then
    Error (lit "Have you forgotten to install `@changesets/cli` in "
           ++ [34] ++ cwd ++ [34] ++ lit "?")
  else err.

(** *** Paths

    [path_join] puts a [/] between its two parts, which is what
    [path.join] gives when the first part is a directory path that needs
    no normalisation: absolute or relative, and every segment a name
    (not empty, not [.] and not [..]). *)
Fixpoint path_segments_from (cur : str) (p : str) : list str :=
  match p with
  | [] => [cur]
  | c :: t =>
      if c =? chr "/" then cur :: path_segments_from [] t
      else path_segments_from (cur ++ [c]) t
  end.

Definition path_segments (p : str) : list str := path_segments_from [] p.

Definition plain_segment (s : str) : bool :=
  negb (bool_decide (s = [])) && negb (bool_decide (s = lit "."))
  && negb (bool_decide (s = lit "..")).

Definition normal_dir (p : str) : bool :=
  match path_segments p with
  | [] => false
  | first :: rest =>
      (plain_segment first
       || (bool_decide (first = []) && negb (bool_decide (rest = []))))
      && forallb plain_segment rest
  end.

(** A world for a run in [/repo] with changes in the working tree: git
    status prints a line, the changelog is there, the versioning pull
    request is open and names the draft release 5, which nobody
    edited. *)
Definition dirty_world : World :=
  MkWorld (<[lit "/repo/CHANGELOG.md" := Content demo_changelog]> ∅)
    (<[5%Z := draft_five]> ∅) 6
    (fun _ => []) (fun _ => [MkPull 900 7 (Some matching_body) None])
    ([], lit "root") None (inl HostError)
    (fun _ _ => lit " M package.json" ++ [LF]) (fun _ _ => [])
    (fun _ _ f => f) 1 1 (fun _ => []) false [].

(** *** Exit codes

    The procedures above take a command that is run to end with the
    exit code 0.  [exec] of @actions/exec throws for any other exit
    code, unless it is called with [ignoreReturnCode]; for
    [switchToMaybeExistingBranch], which uses both, the exit codes are
    written out here.  The world does not say how commands end, so the
    exit code of a command in a world and the error that [exec] makes
    of it are parameters. *)
Module Strict.

Section ExitCodes.

Variable exit_code : World -> str -> list str -> Z.
Variable exit_error : str -> list str -> Z -> exn.

(** [exec(cmd, args)]: the command runs, then a code other than 0 is
    thrown. *)
Definition exec_command (cmd : str) (args : list str) : M unit := fun w =>
  let code := exit_code w cmd args in
  if (code =? 0)%Z then (exec_world cmd args w, inr tt)
  else (exec_world cmd args w, inl (exit_error cmd args code)).

(** [execWithOutput(cmd, args, { ignoreReturnCode: true })]: the exit
    code comes back with the output and nothing is thrown. *)
Definition execWithOutput_ignoring (cmd : str) (args : list str)
  : M (Z * str * str) := fun w =>
  (exec_world cmd args w,
   inr (exit_code w cmd args, command_stdout w cmd args, stderr_of w cmd args)).

Definition switchToMaybeExistingBranch (branch : str) : M unit :=
  '(_, _, stderr) ← execWithOutput_ignoring git [lit "checkout"; branch];
  let isCreatingBranch :=
    negb (includes (lit "Switched to a new branch '" ++ branch ++ lit "'") stderr) in
  if isCreatingBranch then exec_command git [lit "checkout"; lit "-b"; branch]
  else mret tt.

End ExitCodes.

End Strict.

(** Exit codes for an example: every command fails, one with three
    arguments, as [git checkout -b <branch>], with 128 and any other
    with 1; the error is the one @actions/exec throws. *)
Definition demo_exit_code (w : World) (cmd : str) (args : list str) : Z :=
  match args with
  | [_; _; _] => 128
  | _ => 1
  end.

Definition demo_exit_error (cmd : str) (args : list str) (code : Z) : exn :=
  Error (lit "The process '" ++ cmd ++ lit "' failed with exit code "
         ++ number_to_string code).


(** * Part II: proofs *)

(** ** The matcher *)

Lemma prev_after_nil pv : prev_after pv [] = pv.
Proof. reflexivity. Qed.

Lemma prev_after_cons pv c w : prev_after pv (c :: w) = prev_after (Some c) w.
Proof.
  unfold prev_after. destruct w as [|d w]; [reflexivity|].
  change (last (c :: d :: w)) with (last (d :: w)).
  destruct (last (d :: w)) eqn:E; [reflexivity|].
  exfalso. revert E. clear. revert d. induction w as [|e w IH]; intros d; [discriminate|].
  change (last (d :: e :: w)) with (last (e :: w)). apply IH.
Qed.

Lemma prev_after_app pv a b : prev_after pv (a ++ b) = prev_after (prev_after pv a) b.
Proof.
  revert pv. induction a as [|c a IH]; intros pv; [reflexivity|].
  rewrite <- app_comm_cons, !prev_after_cons. apply IH.
Qed.

Lemma starts_with_app w t : starts_with w (w ++ t) = true.
Proof. induction w as [|c w IH]; [reflexivity|]. simpl. rewrite N.eqb_refl. exact IH. Qed.

Lemma starts_with_spec w u : starts_with w u = true <-> exists t, u = w ++ t.
Proof.
  revert u. induction w as [|c w IH]; intros u; simpl.
  - split; [eauto|reflexivity].
  - destruct u as [|d u]; simpl.
    + split; [discriminate|]. intros [t Ht]. discriminate.
    + rewrite andb_true_iff, N.eqb_eq, IH. split.
      * intros [-> [t ->]]. eauto.
      * intros [t Ht]. injection Ht as -> ->. eauto.
Qed.

Lemma starts_with_drop w u : starts_with w u = true -> u = w ++ drop (length w) u.
Proof.
  intros H. apply starts_with_spec in H as [t ->].
  by rewrite drop_app_length.
Qed.

(** A literal reads exactly its text. *)
Lemma rmatch_Lit w pv u cs k :
  rmatch (Lit w) (MState pv u cs) k =
  if starts_with w u then k (MState (prev_after pv w) (drop (length w) u) cs)
  else None.
Proof.
  revert pv u. induction w as [|c w IH]; intros pv u.
  - reflexivity.
  - destruct u as [|d u]; [reflexivity|].
    cbn [Lit rmatch rest starts_with]. unfold is_char at 1.
    destruct (d =? c) eqn:E; [|reflexivity].
    apply N.eqb_eq in E as ->. unfold advance. cbn [caps andb].
    rewrite IH, prev_after_cons. reflexivity.
Qed.

Lemma rmatch_Chr p pv u cs k :
  rmatch (Chr p) (MState pv u cs) k =
  match u with
  | c :: t => if p c then k (MState (Some c) t cs) else None
  | [] => None
  end.
Proof. reflexivity. Qed.

Lemma rmatch_Cat r1 r2 s k :
  rmatch (Cat r1 r2) s k = rmatch r1 s (fun s1 => rmatch r2 s1 k).
Proof. reflexivity. Qed.

Lemma rmatch_Seq_cons r rs s k :
  rmatch (Seq (r :: rs)) s k = rmatch r s (fun s1 => rmatch (Seq rs) s1 k).
Proof. reflexivity. Qed.

Lemma rmatch_Seq_nil s k : rmatch (Seq []) s k = k s.
Proof. reflexivity. Qed.

Lemma star_loop_greedy p k u : forall fuel pv cs,
  (length u < fuel)%nat ->
  star_loop (rmatch (Chr p)) true k fuel (MState pv u cs) = star_greedy p k pv u cs.
Proof.
  induction u as [|c t IH]; intros fuel pv cs Hf.
  - destruct fuel; [lia|]. reflexivity.
  - destruct fuel as [|fuel]; [simpl in Hf; lia|].
    cbn [star_loop star_greedy]. rewrite rmatch_Chr.
    destruct (p c); [|reflexivity].
    cbn [rest]. replace (length t <? length (c :: t))%nat with true
      by (symmetry; apply Nat.ltb_lt; simpl; lia).
    rewrite IH by (simpl in Hf; lia). reflexivity.
Qed.

Lemma rmatch_Star_greedy p k pv u cs :
  rmatch (Star true (Chr p)) (MState pv u cs) k = star_greedy p k pv u cs.
Proof. cbn [rmatch rest]. apply star_loop_greedy. lia. Qed.

Lemma star_loop_lazy p k u : forall fuel pv cs,
  (length u < fuel)%nat ->
  star_loop (rmatch (Chr p)) false k fuel (MState pv u cs) = star_lazy p k pv u cs.
Proof.
  induction u as [|c t IH]; intros fuel pv cs Hf.
  - destruct fuel; [lia|]. cbn [star_loop star_lazy]. rewrite rmatch_Chr. reflexivity.
  - destruct fuel as [|fuel]; [simpl in Hf; lia|].
    cbn [star_loop star_lazy]. rewrite rmatch_Chr.
    destruct (k (MState pv (c :: t) cs)); [reflexivity|].
    destruct (p c); [|reflexivity].
    cbn [rest]. replace (length t <? length (c :: t))%nat with true
      by (symmetry; apply Nat.ltb_lt; simpl; lia).
    rewrite IH by (simpl in Hf; lia). reflexivity.
Qed.

Lemma rmatch_Star_lazy p k pv u cs :
  rmatch (Star false (Chr p)) (MState pv u cs) k = star_lazy p k pv u cs.
Proof. cbn [rmatch rest]. apply star_loop_lazy. lia. Qed.

Lemma rmatch_Plus_greedy p k pv u cs :
  rmatch (Plus true (Chr p)) (MState pv u cs) k =
  match u with
  | c :: t => if p c then star_greedy p k (Some c) t cs else None
  | [] => None
  end.
Proof.
  unfold Plus. rewrite rmatch_Cat, rmatch_Chr.
  destruct u as [|c t]; [reflexivity|]. destruct (p c); [|reflexivity].
  apply rmatch_Star_greedy.
Qed.

Lemma rmatch_Grp i r pv u cs k :
  rmatch (Grp i r) (MState pv u cs) k =
  rmatch r (MState pv u cs) (fun s1 => k (set_cap i (MState pv u cs) s1)).
Proof. reflexivity. Qed.

Lemma takeWhile_dropWhile p u : takeWhile p u ++ dropWhile p u = u.
Proof. induction u as [|c t IH]; [reflexivity|]. simpl. destruct (p c); simpl; congruence. Qed.

Lemma takeWhile_Forall p u : Forall (fun c => p c = true) (takeWhile p u).
Proof.
  induction u as [|c t IH]; simpl; [constructor|].
  destruct (p c) eqn:E; constructor; assumption.
Qed.

Lemma dropWhile_head p u c t : dropWhile p u = c :: t -> p c = false.
Proof.
  induction u as [|d u IH]; simpl; [discriminate|].
  destruct (p d) eqn:E; [exact IH|]. intros [= -> ->]. exact E.
Qed.

(** When the continuation cannot start with a code unit of the class,
    a greedy star hands over exactly after the longest run. *)
Lemma star_greedy_max p k u : forall pv cs,
  (forall pv' c t cs', p c = true -> k (MState pv' (c :: t) cs') = None) ->
  star_greedy p k pv u cs =
  k (MState (prev_after pv (takeWhile p u)) (dropWhile p u) cs).
Proof.
  induction u as [|c t IH]; intros pv cs Hk; [reflexivity|].
  simpl. destruct (p c) eqn:E; [|reflexivity].
  rewrite IH by exact Hk. rewrite prev_after_cons.
  destruct (k _) eqn:Ek; [reflexivity|].
  apply Hk. exact E.
Qed.

(** A star succeeds exactly when its continuation succeeds after some
    run of the class. *)
Lemma star_greedy_Some p k u : forall pv cs,
  is_Some (star_greedy p k pv u cs) <->
  exists a b, u = a ++ b /\ Forall (fun c => p c = true) a /\
              is_Some (k (MState (prev_after pv a) b cs)).
Proof.
  induction u as [|c t IH]; intros pv cs.
  - simpl. split.
    + intros H. exists [], []. auto.
    + intros (a & b & Hab & _ & H). symmetry in Hab.
      apply app_eq_nil in Hab as [-> ->]. exact H.
  - simpl. destruct (p c) eqn:E.
    + destruct (star_greedy p k (Some c) t cs) eqn:Es.
      * split; [|eauto]. intros _.
        destruct (proj1 (IH (Some c) cs)) as (a & b & -> & Ha & H); [rewrite Es; eauto|].
        exists (c :: a), b. rewrite prev_after_cons. auto.
      * split.
        -- intros H. exists [], (c :: t). auto.
        -- intros (a & b & Hab & Ha & H).
           destruct a as [|d a]; simpl in Hab.
           ++ subst b. exact H.
           ++ injection Hab as <- ->. rewrite prev_after_cons in H.
              exfalso. apply (is_Some_None (A:=mstate)). rewrite <- Es.
              apply IH. exists a, b. inversion Ha; subst. auto.
    + split.
      * intros H. exists [], (c :: t). auto.
      * intros (a & b & Hab & Ha & H).
        destruct a as [|d a]; simpl in Hab.
        -- subst b. exact H.
        -- injection Hab as <- ->. inversion Ha; subst. congruence.
Qed.

Lemma consumed_app pv pv' a b cs cs' :
  consumed (MState pv (a ++ b) cs) (MState pv' b cs') = a.
Proof.
  unfold consumed. cbn [rest]. rewrite length_app.
  replace (length a + length b - length b)%nat with (length a) by lia.
  by rewrite take_app_length.
Qed.

(** ** The frontmatter pattern *)

Lemma is_space_not_dash c : is_space c = true -> (c =? 45) = false.
Proof.
  intros H. destruct (c =? 45) eqn:E; [|reflexivity].
  apply N.eqb_eq in E. subst c. discriminate.
Qed.

Lemma Lit_dashes_space_fail pv c t cs k :
  is_space c = true ->
  rmatch (Lit (lit "---")) (MState pv (c :: t) cs) k = None.
Proof.
  intros H. rewrite rmatch_Lit. cbn [lit starts_with].
  change (char_of_ascii "-") with 45.
  rewrite (is_space_not_dash _ H). reflexivity.
Qed.

(** [\s*\n] at the end of the pattern. *)
Lemma tail_space_lf u : forall pv cs,
  match star_greedy is_space (fun s => rmatch (Seq [Chr (is_char LF)]) s Some) pv u cs with
  | Some x => space_run_has_lf u = true /\ caps x = cs
  | None => space_run_has_lf u = false
  end.
Proof.
  induction u as [|c t IH]; intros pv cs; [reflexivity|].
  cbn [star_greedy space_run_has_lf].
  destruct (is_space c) eqn:Es.
  - specialize (IH (Some c) cs).
    destruct (star_greedy _ _ (Some c) t cs) eqn:E.
    + destruct IH as [IH1 IH2]. rewrite IH1. destruct (c =? LF); auto.
    + rewrite rmatch_Seq_cons, rmatch_Chr. unfold is_char.
      destruct (c =? LF); [split; reflexivity|exact IH].
  - rewrite rmatch_Seq_cons, rmatch_Chr. unfold is_char.
    destruct (c =? LF) eqn:E; [split; reflexivity|reflexivity].
Qed.

Lemma close_spec pv u cs :
  match rmatch closeRegex (MState pv u cs) Some with
  | Some x => closesb u = true /\ caps x = cs
  | None => closesb u = false
  end.
Proof.
  unfold closeRegex. rewrite rmatch_Seq_cons, rmatch_Chr.
  destruct u as [|c u1]; [reflexivity|].
  unfold is_char, closesb. destruct (c =? LF); [|reflexivity].
  cbn [andb]. rewrite rmatch_Seq_cons. unfold space at 1.
  rewrite rmatch_Star_greedy, star_greedy_max.
  2:{ intros. rewrite rmatch_Seq_cons. by apply Lit_dashes_space_fail. }
  rewrite rmatch_Seq_cons, rmatch_Lit. fold (trimStart u1).
  destruct (starts_with (lit "---") (trimStart u1)); [|reflexivity].
  cbn [andb]. rewrite rmatch_Seq_cons. unfold space.
  rewrite rmatch_Star_greedy.
  apply tail_space_lf.
Qed.

(** The lazy group [([^]*?)] stops at the first closing delimiter. *)
Lemma lazy_block pv0 u0 b : forall a pv,
  u0 = a ++ b ->
  match star_lazy is_any
          (fun s1 => rmatch closeRegex (set_cap 1 (MState pv0 u0 []) s1) Some)
          pv b [] with
  | Some x => exists c, find_close b = Some c /\ caps x = [(1%nat, a ++ c)]
  | None => find_close b = None
  end.
Proof.
  induction b as [|c t IH]; intros a pv ->.
  - cbn [star_lazy find_close]. unfold set_cap. cbn [prev rest caps].
    rewrite consumed_app.
    pose proof (close_spec pv [] [(1%nat, a)]) as H.
    destruct (rmatch closeRegex _ Some); [destruct H; discriminate|].
    reflexivity.
  - cbn [star_lazy find_close]. unfold set_cap at 1. cbn [prev rest caps].
    rewrite consumed_app.
    pose proof (close_spec pv (c :: t) [(1%nat, a)]) as H.
    destruct (rmatch closeRegex _ Some).
    + destruct H as [-> ->]. exists []. by rewrite app_nil_r.
    + rewrite H. cbn [is_any].
      specialize (IH (a ++ [c]) (Some c)). rewrite <- app_assoc in IH.
      specialize (IH eq_refl).
      destruct (star_lazy _ _ _ t _).
      * destruct IH as (c' & -> & ->). exists (c :: c').
        by rewrite <- app_assoc.
      * by rewrite IH.
Qed.

(** One attempt of the pattern at a start position. *)
Lemma frontmatter_attempt pv u :
  match rmatch frontmatterRegex (MState pv u []) Some with
  | Some x => exists c, block_at u = Some c /\ caps x = [(1%nat, c)]
  | None => block_at u = None
  end.
Proof.
  unfold frontmatterRegex, block_at, space. rewrite rmatch_Seq_cons.
  rewrite rmatch_Star_greedy, star_greedy_max.
  2:{ intros. rewrite rmatch_Seq_cons. by apply Lit_dashes_space_fail. }
  rewrite rmatch_Seq_cons, rmatch_Lit. fold (trimStart u).
  destruct (starts_with (lit "---") (trimStart u)); [|reflexivity].
  rewrite rmatch_Seq_cons, rmatch_Grp, rmatch_Star_lazy.
  apply (lazy_block _ _ _ []). reflexivity.
Qed.

Lemma frontmatter_search u : forall pv idx,
  match search frontmatterRegex pv u idx with
  | Some m => exists c, first_block u = Some c /\ group 1 m = Some c
  | None => first_block u = None
  end.
Proof.
  induction u as [|c t IH]; intros pv idx.
  - cbn [search first_block].
    pose proof (frontmatter_attempt pv []) as H.
    destruct (rmatch frontmatterRegex _ Some).
    + destruct H as (c & -> & Hc). exists c. split; [reflexivity|].
      unfold group. cbn [groups]. rewrite Hc. reflexivity.
    + by rewrite H.
  - cbn [search first_block].
    pose proof (frontmatter_attempt pv (c :: t)) as H.
    destruct (rmatch frontmatterRegex _ Some).
    + destruct H as (c' & -> & Hc). exists c'. split; [reflexivity|].
      unfold group. cbn [groups]. rewrite Hc. reflexivity.
    + rewrite H. apply IH.
Qed.

Lemma exec_unfold r u : exec r u = search r None u 0.
Proof. unfold exec, exec_from. cbn. by rewrite drop_0. Qed.

(** [pullBody.match(frontmatterRegex)] finds the first block, and its
    group 1 is the text of that block. *)
Lemma frontmatter_exec u :
  match exec frontmatterRegex u with
  | Some m => exists c, first_block u = Some c /\ group 1 m = Some c
  | None => first_block u = None
  end.
Proof. rewrite exec_unfold. apply frontmatter_search. Qed.

(** A greedy star hands over after the longest run when the
    continuation accepts there. *)
Lemma star_greedy_first p k u : forall pv cs x,
  k (MState (prev_after pv (takeWhile p u)) (dropWhile p u) cs) = Some x ->
  star_greedy p k pv u cs = Some x.
Proof.
  induction u as [|c t IH]; intros pv cs x H; [exact H|].
  simpl in *. destruct (p c) eqn:E; [|exact H].
  rewrite prev_after_cons in H. by rewrite (IH _ _ _ H).
Qed.

Lemma search_not_bol r u : forall c idx,
  search (Cat (Bol false) r) (Some c) u idx = None.
Proof.
  induction u as [|d t IH]; intros c idx; cbn [search]; rewrite rmatch_Cat;
    cbn [rmatch at_bol prev]; [reflexivity|apply IH].
Qed.

Lemma consumed_eq s0 s1 a : rest s0 = a ++ rest s1 -> consumed s0 s1 = a.
Proof.
  intros H. unfold consumed. rewrite H, length_app.
  replace (length a + length (rest s1) - length (rest s1))%nat with (length a) by lia.
  by rewrite take_app_length.
Qed.

Lemma search_bol_head r line :
  search (Cat (Bol false) r) None line 0 =
  match rmatch (Cat (Bol false) r) (MState None line []) Some with
  | Some s1 => Some (MkMatch 0 (consumed (MState None line []) s1) (caps s1))
  | None => None
  end.
Proof.
  destruct line as [|c t]; cbn [search]; destruct (rmatch _ _ Some); try reflexivity.
  apply search_not_bol.
Qed.

Lemma key_exec key line :
  exec (keyRegex key) line =
  match key_value key line with
  | Some v => Some (MkMatch 0 (key ++ v) [(1%nat, v)])
  | None => None
  end.
Proof.
  rewrite exec_unfold. unfold keyRegex, key_value.
  cbn [Seq]. rewrite search_bol_head.
  rewrite rmatch_Cat. cbn [rmatch at_bol prev]. fold (Lit key).
  rewrite rmatch_Lit.
  destruct (starts_with key line) eqn:E; [|reflexivity].
  apply starts_with_drop in E.
  set (u := drop (length key) line) in *.
  unfold dot. rewrite rmatch_Plus_greedy.
  destruct u as [|c t] eqn:Eu; [reflexivity|].
  cbn [takeWhile]. destruct (is_dot c) eqn:Ec; [|reflexivity].
  erewrite star_greedy_first; [|reflexivity].
  unfold set_cap. cbn [prev rest caps].
  assert (Hc : c :: t = (c :: takeWhile is_dot t) ++ dropWhile is_dot t).
  { simpl. by rewrite takeWhile_dropWhile. }
  f_equal. f_equal.
  - apply consumed_eq. cbn [rest]. by rewrite E, Hc at 1; rewrite app_assoc.
  - f_equal. f_equal. apply consumed_eq. exact Hc.
Qed.

Lemma group1_single v idx w : group 1 (MkMatch idx w [(1%nat, v)]) = Some v.
Proof. reflexivity. Qed.

Lemma frontmatterLine_spec acc line :
  frontmatterLine acc line =
  match key_value (lit "draft_id:") line with
  | Some v => (Some (parseInt (trim v)), acc.2)
  | None =>
      match key_value (lit "checksum:") line with
      | Some v => (acc.1, Some (trim v))
      | None => acc
      end
  end.
Proof.
  unfold frontmatterLine.
  change draftIdRegex with (keyRegex (lit "draft_id:")).
  change checksumRegex with (keyRegex (lit "checksum:")).
  rewrite !key_exec.
  destruct (key_value (lit "draft_id:") line); [reflexivity|].
  destruct (key_value (lit "checksum:") line); reflexivity.
Qed.

(** No line carries both keys. *)
Lemma keys_exclusive line v :
  key_value (lit "draft_id:") line = Some v ->
  key_value (lit "checksum:") line = None.
Proof.
  unfold key_value. destruct line as [|c t]; [discriminate|].
  cbn [lit starts_with]. change (char_of_ascii "d") with 100.
  change (char_of_ascii "c") with 99.
  destruct (c =? 100) eqn:E; [|discriminate].
  apply N.eqb_eq in E. subst c. reflexivity.
Qed.

Lemma last_value_cons key l ls :
  last_value key (l :: ls) =
  match last_value key ls with
  | Some w => Some w
  | None => key_value key l
  end.
Proof.
  unfold last_value. cbn [omap list_omap].
  destruct (key_value key l) as [v|].
  - rewrite last_cons. reflexivity.
  - by destruct (last _).
Qed.

Lemma frontmatter_loop lines : forall acc,
  foldl frontmatterLine acc lines =
  (match last_value (lit "draft_id:") lines with
   | Some v => Some (parseInt (trim v))
   | None => acc.1
   end,
   match last_value (lit "checksum:") lines with
   | Some v => Some (trim v)
   | None => acc.2
   end).
Proof.
  induction lines as [|l ls IH]; intros [a b]; [reflexivity|].
  cbn [foldl]. rewrite IH, frontmatterLine_spec, !last_value_cons.
  destruct (key_value (lit "draft_id:") l) as [v|] eqn:Ed.
  - rewrite (keys_exclusive _ _ Ed). cbn [fst snd].
    destruct (last_value (lit "draft_id:") ls), (last_value (lit "checksum:") ls); reflexivity.
  - destruct (key_value (lit "checksum:") l) as [v|]; cbn [fst snd];
      destruct (last_value (lit "draft_id:") ls), (last_value (lit "checksum:") ls); reflexivity.
Qed.

(** [getPullFrontmatterData] decodes the first block of the body. *)
Lemma getPullFrontmatterData_spec body :
  getPullFrontmatterData body = decode_block <$> first_block body.
Proof.
  unfold getPullFrontmatterData.
  pose proof (frontmatter_exec body) as H.
  destruct (exec frontmatterRegex body) as [m|].
  - destruct H as (c & -> & ->). change (default [] (Some c)) with c.
    change (decode_block <$> Some c) with (Some (decode_block c)).
    rewrite frontmatter_loop. cbn [fst snd]. unfold decode_block, int_value.
    destruct (last_value (lit "draft_id:") (split_lines c)) as [v|];
      [cbn [mbind option_bind]; destruct (parseInt (trim v))|];
      destruct (last_value (lit "checksum:") (split_lines c)); reflexivity.
  - rewrite H. reflexivity.
Qed.

(** *** A block in the text, and the first block found *)

Lemma dropWhile_app_all p a b :
  Forall (fun c => p c = true) a -> dropWhile p (a ++ b) = dropWhile p b.
Proof. induction 1 as [|c a Hc _ IH]; [reflexivity|]. simpl. by rewrite Hc. Qed.

Lemma takeWhile_app_all p a b :
  Forall (fun c => p c = true) a -> takeWhile p (a ++ b) = a ++ takeWhile p b.
Proof. induction 1 as [|c a Hc _ IH]; [reflexivity|]. simpl. by rewrite Hc, IH. Qed.

Lemma takeWhile_all p a : Forall (fun c => p c = true) a -> takeWhile p a = a.
Proof.
  intros H. rewrite <- (app_nil_r a) at 1. rewrite takeWhile_app_all by done.
  by rewrite app_nil_r.
Qed.

Lemma trimStart_app_spaces w u :
  Forall (fun c => is_space c = true) w -> trimStart (w ++ u) = trimStart u.
Proof. apply dropWhile_app_all. Qed.

Lemma trimStart_dashes u : trimStart (lit "---" ++ u) = lit "---" ++ u.
Proof. reflexivity. Qed.

Lemma space_run_has_lf_spec u :
  space_run_has_lf u = true <->
  exists w post, u = w ++ [LF] ++ post /\ Forall (fun c => is_space c = true) w.
Proof.
  induction u as [|c t IH]; simpl.
  - split; [discriminate|]. intros (w & post & H & _). by destruct w.
  - destruct (c =? LF) eqn:E.
    + apply N.eqb_eq in E as ->. split; [|done]. intros _. by exists [], t.
    + destruct (is_space c) eqn:Es.
      * rewrite IH. split.
        -- intros (w & post & -> & Hw). exists (c :: w), post. split; [done|]. by constructor.
        -- intros (w & post & H & Hw). destruct w as [|d w]; simpl in H.
           ++ injection H as -> _. by rewrite N.eqb_refl in E.
           ++ injection H as <- ->. inversion Hw; subst. eauto.
      * split; [discriminate|]. intros (w & post & H & Hw).
        destruct w as [|d w]; simpl in H.
        -- injection H as -> _. by rewrite N.eqb_refl in E.
        -- injection H as <- ->. inversion Hw; subst. congruence.
Qed.

Lemma starts_with_dashes_trim u :
  starts_with (lit "---") (trimStart u) = true <->
  exists w t, u = w ++ lit "---" ++ t /\ Forall (fun c => is_space c = true) w
              /\ trimStart u = lit "---" ++ t.
Proof.
  split.
  - intros H. apply starts_with_spec in H as [t Ht].
    exists (takeWhile is_space u), t. split; [|split; [apply takeWhile_Forall|done]].
    rewrite <- Ht. symmetry. apply takeWhile_dropWhile.
  - intros (w & t & -> & Hw & _). rewrite trimStart_app_spaces by done.
    rewrite trimStart_dashes. apply starts_with_app.
Qed.

Lemma closesb_spec u :
  closesb u = true <->
  exists w1 w2 post,
    u = [LF] ++ w1 ++ lit "---" ++ w2 ++ [LF] ++ post
    /\ Forall (fun c => is_space c = true) w1
    /\ Forall (fun c => is_space c = true) w2.
Proof.
  unfold closesb. destruct u as [|c u1].
  - split; [discriminate|]. intros (? & ? & ? & H & _). discriminate.
  - rewrite !andb_true_iff, N.eqb_eq, starts_with_dashes_trim, space_run_has_lf_spec.
    split.
    + intros [[-> (w1 & t & -> & Hw1 & Ht)] (w2 & post & H & Hw2)].
      rewrite Ht in H. change (drop 3 (lit "---" ++ t)) with t in H. subst t.
      by exists w1, w2, post.
    + intros (w1 & w2 & post & H & Hw1 & Hw2). injection H as -> ->.
      split; [split; [done|]|].
      * exists w1, (w2 ++ [LF] ++ post). split; [done|]. split; [done|].
        by rewrite trimStart_app_spaces.
      * rewrite trimStart_app_spaces by done. simpl. by exists w2, post.
Qed.

Lemma find_close_Some u : forall blk,
  find_close u = Some blk -> exists rem, u = blk ++ rem /\ closesb rem = true.
Proof.
  induction u as [|c t IH]; intros blk; cbn [find_close].
  - destruct (closesb []) eqn:E; [|discriminate]. intros [= <-]. by exists [].
  - destruct (closesb (c :: t)) eqn:E.
    + intros [= <-]. by exists (c :: t).
    + destruct (find_close t) as [b|]; [|discriminate]. intros [= <-].
      destruct (IH b eq_refl) as (rem & -> & Hrem). by exists rem.
Qed.

Lemma find_close_complete a rem :
  closesb rem = true -> is_Some (find_close (a ++ rem)).
Proof.
  intros Hrem. induction a as [|c a IH].
  - destruct rem; [discriminate|]. cbn [app find_close]. rewrite Hrem. eauto.
  - cbn [app find_close]. destruct (closesb (c :: a ++ rem)); [eauto|].
    destruct IH as [b ->]. cbn. eauto.
Qed.

Lemma first_block_Some u : forall blk,
  first_block u = Some blk ->
  exists pre rem, u = pre ++ lit "---" ++ blk ++ rem /\ closesb rem = true.
Proof.
  assert (Hat : forall u blk, block_at u = Some blk ->
            exists pre rem, u = pre ++ lit "---" ++ blk ++ rem /\ closesb rem = true).
  { intros v blk. unfold block_at.
    destruct (starts_with (lit "---") (trimStart v)) eqn:E; [|discriminate].
    apply starts_with_dashes_trim in E as (w & t & -> & Hw & ->).
    change (drop 3 (lit "---" ++ t)) with t. intros H.
    apply find_close_Some in H as (rem & -> & Hrem). by exists w, rem. }
  induction u as [|c t IH]; intros blk; cbn [first_block].
  - destruct (block_at []) eqn:E; [|discriminate]. intros [= <-]. by apply Hat.
  - destruct (block_at (c :: t)) eqn:E.
    + intros [= <-]. by apply Hat.
    + intros H. destruct (IH _ H) as (pre & rem & -> & Hrem).
      by exists (c :: pre), rem.
Qed.

Lemma first_block_complete pre blk rem :
  closesb rem = true -> is_Some (first_block (pre ++ lit "---" ++ blk ++ rem)).
Proof.
  intros Hrem. induction pre as [|c pre IH].
  - cbn [app]. assert (H : is_Some (block_at (lit "---" ++ blk ++ rem))).
    { unfold block_at. rewrite trimStart_dashes, starts_with_app.
      change (drop 3 (lit "---" ++ ?t)) with t. by apply find_close_complete. }
    destruct H as [b Hb]. change (lit "---" ++ blk ++ rem) with
      (45 :: 45 :: 45 :: blk ++ rem) in *. cbn [first_block]. rewrite Hb. eauto.
  - cbn [app first_block]. destruct (block_at _); [eauto|exact IH].
Qed.

(** The decoder finds a block exactly when the text holds one. *)
Lemma first_block_has_block body : is_Some (first_block body) <-> has_block body.
Proof.
  split.
  - intros [blk H]. apply first_block_Some in H as (pre & rem & -> & Hrem).
    apply closesb_spec in Hrem as (w1 & w2 & post & -> & Hw1 & Hw2).
    by exists pre, blk, w1, w2, post.
  - intros (pre & blk & w1 & w2 & post & -> & Hw1 & Hw2).
    apply first_block_complete. apply closesb_spec. by exists w1, w2, post.
Qed.

(** ** Numbers in text *)

Ltac bool_to_prop :=
  repeat match goal with
    | H : _ && _ = true |- _ => apply andb_true_iff in H as [? ?]
    | H : _ || _ = true |- _ => apply orb_true_iff in H as [?|?]
    | H : (_ =? _) = true |- _ => apply N.eqb_eq in H
    | H : (_ <=? _) = true |- _ => apply N.leb_le in H
    | H : (_ <? _) = true |- _ => apply N.ltb_lt in H
    | H : (_ =? _) = false |- _ => apply N.eqb_neq in H
    | H : (_ <=? _) = false |- _ => apply N.leb_gt in H
    | H : (_ <? _) = false |- _ => apply N.ltb_ge in H
    | H : negb _ = true |- _ => apply negb_true_iff in H
    | H : negb _ = false |- _ => apply negb_false_iff in H
    end.

Lemma is_digit_spec c : is_digit c = true <-> 48 <= c <= 57.
Proof. unfold is_digit. rewrite andb_true_iff, !N.leb_le. lia. Qed.

Lemma is_space_cases c :
  is_space c = true ->
  c = 9 \/ c = 10 \/ c = 11 \/ c = 12 \/ c = 13 \/ c = 32 \/ 160 <= c.
Proof. unfold is_space. intros H. bool_to_prop; lia. Qed.

Lemma is_line_terminator_space c : is_line_terminator c = true -> is_space c = true.
Proof.
  unfold is_line_terminator. intros H. bool_to_prop; subst; reflexivity.
Qed.

Lemma printable_not_space c : 33 <= c <= 126 -> is_space c = false.
Proof.
  intros H. destruct (is_space c) eqn:E; [|reflexivity].
  apply is_space_cases in E. lia.
Qed.

Lemma printable_is_dot c : 33 <= c <= 126 -> is_dot c = true.
Proof.
  intros H. unfold is_dot. destruct (is_line_terminator c) eqn:E; [|reflexivity].
  apply is_line_terminator_space in E. rewrite printable_not_space in E; done.
Qed.

Lemma digit_val_digit d : d < 10 -> digit_val 10 (48 + d) = Some d.
Proof.
  intros H. unfold digit_val.
  replace (48 <=? 48 + d) with true by (symmetry; apply N.leb_le; lia).
  replace (48 + d <=? 57) with true by (symmetry; apply N.leb_le; lia).
  cbn [andb]. replace (48 + d - 48) with d by lia.
  by replace (d <? 10) with true by (symmetry; apply N.ltb_lt; lia).
Qed.

Lemma mod10_digit n : 48 <= 48 + n `mod` 10 <= 57.
Proof.
  pose proof (N.mod_lt n 10 ltac:(lia)) as H.
  set (m := n `mod` 10) in *. clearbody m. lia.
Qed.

Lemma digits_le_digits fuel : forall n,
  n < 10 * 2 ^ N.of_nat fuel ->
  Forall (fun c => 48 <= c <= 57) (digits_le fuel n).
Proof.
  induction fuel as [|fuel IH]; intros n Hn.
  - cbn [digits_le]. change (2 ^ N.of_nat 0) with 1 in Hn.
    rewrite N.mod_small by lia. repeat constructor; lia.
  - cbn [digits_le]. destruct (n <? 10) eqn:E; bool_to_prop.
    + repeat constructor; lia.
    + constructor; [apply mod10_digit|].
      apply IH. apply N.Div0.div_lt_upper_bound.
      rewrite Nat2N.inj_succ, N.pow_succ_r' in Hn. lia.
Qed.

Lemma digits_le_parse fuel : forall n acc tl,
  n < 10 * 2 ^ N.of_nat fuel ->
  parse_digits 10 acc (rev (digits_le fuel n) ++ tl) =
  parse_digits 10
    (Some (default 0 acc * 10 ^ N.of_nat (length (digits_le fuel n)) + n)) tl.
Proof.
  induction fuel as [|fuel IH]; intros n acc tl Hn.
  - cbn [digits_le]. change (2 ^ N.of_nat 0) with 1 in Hn.
    rewrite N.mod_small by lia. cbn [rev app length parse_digits].
    rewrite digit_val_digit by lia. do 2 f_equal.
  - cbn [digits_le]. destruct (n <? 10) eqn:E; bool_to_prop.
    + cbn [rev app length parse_digits]. rewrite digit_val_digit by lia. do 2 f_equal.
    + pose proof (mod10_digit n) as Hm.
      cbn [rev length]. rewrite <- app_assoc. rewrite IH.
      2:{ apply N.Div0.div_lt_upper_bound.
          rewrite Nat2N.inj_succ, N.pow_succ_r' in Hn. lia. }
      cbn [app parse_digits]. rewrite digit_val_digit by (apply N.mod_lt; lia).
      do 2 f_equal. cbn [default from_option id].
      rewrite Nat2N.inj_succ, N.pow_succ_r'.
      pose proof (N.div_mod n 10 ltac:(lia)) as Hd.
      set (q := n `div` 10) in *. set (m := n `mod` 10) in *. clearbody q m.
      lia.
Qed.

Lemma size_bound n : n < 10 * 2 ^ N.of_nat (N.to_nat (N.size n)).
Proof. rewrite N2Nat.id. pose proof (N.size_gt n). lia. Qed.

Lemma decimal_digits n : Forall (fun c => 48 <= c <= 57) (decimal n).
Proof.
  unfold decimal. apply Forall_rev, digits_le_digits, size_bound.
Qed.

Lemma decimal_nonempty n : decimal n <> [].
Proof.
  unfold decimal. destruct (N.to_nat (N.size n)); cbn [digits_le].
  - discriminate.
  - destruct (n <? 10); cbn [rev]; intros H; by apply app_eq_nil in H as [_ H].
Qed.

Lemma decimal_parse n : parse_digits 10 None (decimal n) = Some n.
Proof.
  unfold decimal. rewrite <- (app_nil_r (rev _)).
  rewrite digits_le_parse by apply size_bound. reflexivity.
Qed.

(** [parseInt] on a run of decimal digits. *)
Lemma parseInt_decimal s :
  s <> [] -> Forall (fun c => 48 <= c <= 57) s ->
  parseInt s = match parse_digits 10 None s with
               | Some n => Num (Z.of_N n)
               | None => NaN
               end
  /\ parseInt (chr "-" :: s) = match parse_digits 10 None s with
                               | Some n => Num (- Z.of_N n)
                               | None => NaN
                               end.
Proof.
  intros Hne Hs. destruct s as [|c0 t]; [done|].
  inversion Hs as [|? ? Hc0 Ht]; subst.
  assert (Hx : forall c1 t', t = c1 :: t' ->
            (c0 =? chr "0") && ((c1 =? chr "x") || (c1 =? chr "X")) = false).
  { intros c1 t' ->. inversion Ht; subst.
    change (chr "x") with 120. change (chr "X") with 88.
    replace (c1 =? 120) with false by (symmetry; apply N.eqb_neq; lia).
    replace (c1 =? 88) with false by (symmetry; apply N.eqb_neq; lia).
    apply andb_false_r. }
  unfold parseInt, trimStart. cbn [dropWhile].
  rewrite (printable_not_space c0) by lia.
  change (is_space (chr "-")) with false. cbn iota.
  change (chr "-") with 45. change (chr "+") with 43.
  rewrite N.eqb_refl.
  replace (c0 =? 45) with false by (symmetry; apply N.eqb_neq; lia).
  replace (c0 =? 43) with false by (symmetry; apply N.eqb_neq; lia).
  destruct t as [|c1 t']; [split; reflexivity|].
  rewrite (Hx c1 t' eq_refl). split; reflexivity.
Qed.

(** Printing an integer and reading it back with [parseInt]. *)
Lemma parseInt_number_to_string z : parseInt (number_to_string z) = Num z.
Proof.
  unfold number_to_string.
  destruct (z <? 0)%Z eqn:E.
  - apply Z.ltb_lt in E.
    destruct (parseInt_decimal (decimal (Z.to_N (- z)))
                (decimal_nonempty _) (decimal_digits _)) as [_ ->].
    rewrite decimal_parse. f_equal. lia.
  - apply Z.ltb_ge in E.
    destruct (parseInt_decimal (decimal (Z.to_N z))
                (decimal_nonempty _) (decimal_digits _)) as [-> _].
    rewrite decimal_parse. f_equal. lia.
Qed.

(** ** Trimming and splitting *)

Lemma dropWhile_id p s :
  match s with c :: _ => p c = false | [] => True end -> dropWhile p s = s.
Proof. destruct s as [|c t]; [done|]. simpl. by intros ->. Qed.

Lemma trim_no_space s :
  Forall (fun c => is_space c = false) s -> trim s = s.
Proof.
  intros H. unfold trim, trimEnd, trimStart.
  rewrite (dropWhile_id _ s) by (destruct H; done).
  rewrite dropWhile_id; [apply rev_involutive|].
  apply Forall_rev in H. destruct (rev s); [done|]. by inversion H.
Qed.

Lemma trim_leading_space c s : is_space c = true -> trim (c :: s) = trim s.
Proof. intros H. unfold trim, trimStart. simpl. by rewrite H. Qed.

Lemma trimStart_spaces w s :
  Forall (fun c => is_space c = true) w -> trim (w ++ s) = trim s.
Proof. intros H. unfold trim. by rewrite trimStart_app_spaces. Qed.

Lemma split_lines_no_lf l :
  Forall (fun c => c <> LF) l -> split_lines l = [l].
Proof.
  induction 1 as [|c l Hc _ IH]; [reflexivity|].
  cbn [split_lines]. apply N.eqb_neq in Hc. by rewrite Hc, IH.
Qed.

Lemma split_lines_app l u :
  Forall (fun c => c <> LF) l -> split_lines (l ++ LF :: u) = l :: split_lines u.
Proof.
  induction 1 as [|c l Hc _ IH]; [reflexivity|].
  cbn [app split_lines]. apply N.eqb_neq in Hc. by rewrite Hc, IH.
Qed.

Lemma is_dot_not_lf c : is_dot c = true -> c <> LF.
Proof. intros H ->. discriminate. Qed.

Lemma Forall_dot_not_lf l :
  Forall (fun c => is_dot c = true) l -> Forall (fun c => c <> LF) l.
Proof. intros H. eapply Forall_impl; [exact H|]. exact is_dot_not_lf. Qed.

(** ** Decoding a block of the canonical shape *)

Lemma find_close_skip l u :
  Forall (fun c => c <> LF) l -> find_close (l ++ u) = app l <$> find_close u.
Proof.
  induction 1 as [|c l Hc _ IH].
  - cbn [app]. by destruct (find_close u).
  - cbn [app find_close]. unfold closesb at 1.
    apply N.eqb_neq in Hc. rewrite Hc. cbn [andb]. rewrite IH.
    by destruct (find_close u).
Qed.

Lemma find_close_line c l u :
  is_space c = false -> c <> chr "-" -> Forall (fun c => c <> LF) (c :: l) ->
  find_close (LF :: (c :: l) ++ u) = app (LF :: c :: l) <$> find_close u.
Proof.
  intros Hs Hd Hl. cbn [find_close].
  assert (closesb (LF :: (c :: l) ++ u) = false) as ->.
  { unfold closesb, trimStart. cbn [app dropWhile]. rewrite Hs.
    cbn [lit starts_with]. apply N.eqb_neq in Hd.
    change (chr "-") with (char_of_ascii "-") in Hd. rewrite Hd.
    by rewrite andb_false_r. }
  rewrite find_close_skip by done. by destruct (find_close u).
Qed.

Lemma find_close_end R : find_close (LF :: lit "---" ++ LF :: R) = Some [].
Proof. reflexivity. Qed.

Lemma key_value_app key v :
  Forall (fun c => is_dot c = true) v -> v <> [] ->
  key_value key (key ++ v) = Some v.
Proof.
  intros Hv Hne. unfold key_value.
  rewrite starts_with_app, drop_app_length, takeWhile_all by done.
  by destruct v.
Qed.

(** The canonical two-line block followed by a line feed decodes to the
    values of its two lines. *)
Lemma decode_two_lines v1 v2 R :
  Forall (fun c => is_dot c = true) v1 -> v1 <> [] ->
  Forall (fun c => is_dot c = true) v2 -> v2 <> [] ->
  getPullFrontmatterData
    (lit "---" ++ [LF] ++ lit "draft_id:" ++ v1 ++ [LF]
     ++ lit "checksum:" ++ v2 ++ [LF] ++ lit "---" ++ [LF] ++ R)
  = Some (MkFrontmatter (int_value v1) (Some (trim v2))).
Proof.
  intros H1 N1 H2 N2.
  pose proof (Forall_dot_not_lf _ H1) as L1.
  pose proof (Forall_dot_not_lf _ H2) as L2.
  rewrite getPullFrontmatterData_spec.
  pose (l1 := lit "draft_id:" ++ v1). pose (l2 := lit "checksum:" ++ v2).
  assert (Hl1 : Forall (fun c => c <> LF) l1).
  { apply Forall_app. split; [|done]. by repeat constructor. }
  assert (Hl2 : Forall (fun c => c <> LF) l2).
  { apply Forall_app. split; [|done]. by repeat constructor. }
  replace (lit "---" ++ [LF] ++ lit "draft_id:" ++ v1 ++ [LF]
           ++ lit "checksum:" ++ v2 ++ [LF] ++ lit "---" ++ [LF] ++ R)
    with (45 :: 45 :: 45 :: LF :: l1 ++ LF :: l2 ++ LF :: lit "---" ++ LF :: R)
    by (unfold l1, l2; rewrite <- !app_assoc; reflexivity).
  assert (Hb : first_block (45 :: 45 :: 45 :: LF :: l1 ++ LF :: l2 ++ LF
                 :: lit "---" ++ LF :: R) = Some (LF :: l1 ++ LF :: l2)).
  { cbn [first_block]. unfold block_at.
    change (trimStart (45 :: 45 :: 45 :: ?t)) with (45 :: 45 :: 45 :: t).
    change (starts_with (lit "---") (45 :: 45 :: 45 :: ?t)) with true.
    cbv iota. change (drop 3 (45 :: 45 :: 45 :: ?t)) with t.
    unfold l1 at 1. change (lit "draft_id:" ++ v1) with (100 :: (lit "raft_id:" ++ v1)).
    rewrite find_close_line; [|reflexivity|discriminate|exact Hl1].
    unfold l2 at 1.
    change (lit "checksum:" ++ v2) with (99 :: (lit "hecksum:" ++ v2)).
    rewrite find_close_line; [|reflexivity|discriminate|exact Hl2].
    rewrite find_close_end. cbn [fmap option_fmap option_map].
    by rewrite app_nil_r. }
  rewrite Hb. clear Hb.
  cbn [fmap option_fmap option_map]. f_equal. unfold decode_block.
  change (split_lines (LF :: ?t)) with ([] :: split_lines t).
  rewrite split_lines_app, split_lines_no_lf by done.
  rewrite !last_value_cons.
  change (last_value ?k []) with (@None str).
  assert (key_value (lit "draft_id:") l2 = None) as -> by reflexivity.
  assert (key_value (lit "checksum:") [] = None) as -> by reflexivity.
  assert (key_value (lit "draft_id:") [] = None) as -> by reflexivity.
  unfold l1, l2. rewrite !key_value_app by done.
  reflexivity.
Qed.

(** ** The changelog patterns *)

(** Where a greedy star hands over, whatever the continuation. *)
Lemma star_greedy_result p k u : forall pv cs x,
  star_greedy p k pv u cs = Some x ->
  exists a b, u = a ++ b /\ Forall (fun c => p c = true) a /\
              k (MState (prev_after pv a) b cs) = Some x.
Proof.
  induction u as [|c t IH]; intros pv cs x H.
  - exists [], []. auto.
  - simpl in H. destruct (p c) eqn:E.
    + destruct (star_greedy p k (Some c) t cs) eqn:Es.
      * injection H as ->. destruct (IH _ _ _ Es) as (a & b & -> & Ha & Hk).
        exists (c :: a), b. rewrite prev_after_cons. auto.
      * exists [], (c :: t). auto.
    + exists [], (c :: t). auto.
Qed.

Lemma digits_dot_fail pv c t cs k :
  is_digit c = true ->
  rmatch (Lit (lit ".")) (MState pv (c :: t) cs) k = None.
Proof.
  intros H. rewrite rmatch_Lit. cbn [lit starts_with].
  apply is_digit_spec in H.
  replace (c =? char_of_ascii ".") with false; [reflexivity|].
  symmetry. apply N.eqb_neq. change (char_of_ascii ".") with 46. lia.
Qed.

(** [\d+\.] *)
Lemma digits_dot pv u cs k :
  rmatch (Cat (Plus true digit) (Cat (Lit (lit ".")) k)) (MState pv u cs) Some =
  match digits_then u ≫= char_then (chr ".") with
  | Some r => rmatch k (MState (Some (chr ".")) r cs) Some
  | None => None
  end.
Proof.
  rewrite rmatch_Cat. unfold digit. rewrite rmatch_Plus_greedy.
  destruct u as [|c t]; [reflexivity|]. cbn [digits_then].
  destruct (is_digit c); [|reflexivity].
  rewrite star_greedy_max.
  2:{ intros. rewrite rmatch_Cat. by apply digits_dot_fail. }
  rewrite rmatch_Cat, rmatch_Lit. cbn [mbind option_bind].
  destruct (dropWhile is_digit t) as [|d r]; [reflexivity|].
  cbn [lit starts_with char_then]. change (char_of_ascii ".") with (chr ".").
  destruct (d =? chr "."); reflexivity.
Qed.

Lemma rmatch_Bol ml s k : rmatch (Bol ml) s k = if at_bol ml s then k s else None.
Proof. reflexivity. Qed.

Lemma rmatch_Eol ml s k : rmatch (Eol ml) s k = if at_eol ml s then k s else None.
Proof. reflexivity. Qed.

Lemma at_bol_line_start pv u cs : at_bol true (MState pv u cs) = line_start pv.
Proof. by destruct pv. Qed.

(** One attempt of [versionHeader] at a position. *)
Lemma versionHeader_attempt pv u :
  match rmatch versionHeader (MState pv u []) Some with
  | Some x => header_at pv u = Some (rest x) /\ caps x = []
  | None => header_at pv u = None
  end.
Proof.
  unfold versionHeader, header_at. rewrite rmatch_Seq_cons, rmatch_Bol.
  rewrite at_bol_line_start.
  destruct (line_start pv); [|reflexivity].
  unfold header_rest. rewrite rmatch_Seq_cons, rmatch_Lit.
  destruct (starts_with (lit "## ") u); [|reflexivity].
  change (length (lit "## ")) with 3%nat.
  cbn [Seq]. rewrite digits_dot.
  destruct (digits_then (drop 3 u) ≫= char_then (chr ".")) as [r1|]; [|reflexivity].
  cbn [mbind option_bind]. rewrite digits_dot.
  destruct (digits_then r1 ≫= char_then (chr ".")) as [r2|]; [|reflexivity].
  cbn [mbind option_bind]. rewrite rmatch_Cat. unfold digit.
  rewrite rmatch_Plus_greedy.
  destruct r2 as [|c t]; [reflexivity|]. cbn [digits_then].
  destruct (is_digit c); [|reflexivity].
  erewrite star_greedy_first by reflexivity. cbn [rest caps]. auto.
Qed.

(** What a header attempt reads: [## ], a digit, and more. *)
Lemma header_rest_shape u r :
  header_rest u = Some r ->
  exists d m, u = lit "## " ++ d :: m ++ r /\ is_digit d = true
              /\ hash_digit_at u = true.
Proof.
  unfold header_rest. destruct (starts_with (lit "## ") u) eqn:E; [|discriminate].
  apply starts_with_drop in E. change (length (lit "## ")) with 3%nat in E.
  set (u3 := drop 3 u) in *. clearbody u3. subst u.
  assert (Hd : forall v w, digits_then v = Some w ->
            exists d m, v = d :: m ++ w /\ is_digit d = true).
  { intros [|c t] w; cbn [digits_then]; [discriminate|].
    destruct (is_digit c) eqn:Ec; [|discriminate]. intros [= <-].
    exists c, (takeWhile is_digit t). by rewrite takeWhile_dropWhile. }
  assert (Hc : forall x v w, char_then x v = Some w -> v = x :: w).
  { intros x [|c t] w; cbn [char_then]; [discriminate|].
    destruct (c =? x) eqn:Ec; [|discriminate]. intros [= <-].
    by apply N.eqb_eq in Ec as ->. }
  destruct (digits_then u3) as [v1|] eqn:E1; [|discriminate].
  cbn [mbind option_bind].
  destruct (char_then (chr ".") v1) as [v2|] eqn:E2; [|discriminate].
  cbn [mbind option_bind].
  destruct (digits_then v2) as [v3|] eqn:E3; [|discriminate].
  cbn [mbind option_bind].
  destruct (char_then (chr ".") v3) as [v4|] eqn:E4; [|discriminate].
  cbn [mbind option_bind]. intros E5.
  apply Hd in E1 as (d1 & m1 & -> & Hd1). apply Hc in E2 as ->.
  apply Hd in E3 as (d2 & m2 & -> & Hd2). apply Hc in E4 as ->.
  apply Hd in E5 as (d3 & m3 & -> & Hd3).
  exists d1, (m1 ++ chr "." :: d2 :: m2 ++ chr "." :: d3 :: m3).
  split; [|split; [done|]].
  - rewrite <- !app_assoc. cbn [app]. rewrite <- !app_assoc. reflexivity.
  - cbn [lit app hash_digit_at]. by rewrite Hd1.
Qed.

Lemma take_app_sub (x r : str) : take (length (x ++ r) - length r) (x ++ r) = x.
Proof.
  rewrite length_app. replace (length x + length r - length r)%nat with (length x) by lia.
  by rewrite take_app_length.
Qed.

Lemma split_header_Some u : forall pv b h a,
  split_header pv u = Some (b, h, a) ->
  u = b ++ h ++ a /\ header_rest (h ++ a) = Some a.
Proof.
  induction u as [|c t IH]; intros pv b h a; cbn [split_header].
  - destruct (header_at pv []) as [r|] eqn:E; [|discriminate].
    unfold header_at in E. destruct (line_start pv); [|discriminate].
    apply header_rest_shape in E as (? & ? & ? & _). discriminate.
  - destruct (header_at pv (c :: t)) as [r|] eqn:E.
    + intros [= <- <- <-]. unfold header_at in E.
      destruct (line_start pv); [|discriminate].
      pose proof E as E'. apply header_rest_shape in E' as (d & m & Hu & _).
      assert (Hh : take (length (c :: t) - length r) (c :: t) = lit "## " ++ d :: m).
      { rewrite Hu. change (lit "## " ++ d :: m ++ r) with ((lit "## " ++ d :: m) ++ r).
        apply take_app_sub. }
      change (S (length t)) with (length (c :: t)). rewrite Hh.
      split; [exact Hu|]. by rewrite <- E, Hu.
    + destruct (split_header (Some c) t) as [[[b' h'] a']|] eqn:Es; [|discriminate].
      intros [= <- <- <-]. destruct (IH _ _ _ _ Es) as [-> H]. by split.
Qed.

Lemma versionHeader_search u : forall pv idx,
  search versionHeader pv u idx =
  match split_header pv u with
  | Some (b, h, a) => Some (MkMatch (idx + length b) h [])
  | None => None
  end.
Proof.
  induction u as [|c t IH]; intros pv idx; cbn [search split_header].
  - pose proof (versionHeader_attempt pv []) as H.
    destruct (rmatch versionHeader _ Some) as [x|].
    + destruct H as [-> ->]. unfold consumed. cbn [rest length].
      by rewrite Nat.add_0_r.
    + by rewrite H.
  - pose proof (versionHeader_attempt pv (c :: t)) as H.
    destruct (rmatch versionHeader _ Some) as [x|].
    + destruct H as [-> ->]. unfold consumed. cbn [rest length].
      by rewrite Nat.add_0_r.
    + rewrite H, IH. destruct (split_header (Some c) t) as [[[b h] a]|]; [|done].
      cbn [length]. do 2 f_equal. lia.
Qed.

(** The tail [\s*$] of [headerLine]: it reads some white space. *)
Lemma space_eol pv u cs :
  match u with [] => True | c :: _ => is_line_terminator c = true end ->
  exists w b pv',
    rmatch (Seq [Star true space; Eol true]) (MState pv u cs) Some
    = Some (MState pv' b cs)
    /\ u = w ++ b /\ Forall (fun c => is_space c = true) w.
Proof.
  intros Hu. rewrite rmatch_Seq_cons. unfold space. rewrite rmatch_Star_greedy.
  set (k := fun s1 => rmatch (Seq [Eol true]) s1 Some).
  assert (Hs : is_Some (star_greedy is_space k pv u cs)).
  { apply star_greedy_Some. exists [], u. split; [done|]. split; [done|].
    unfold k. rewrite rmatch_Seq_cons, rmatch_Eol. unfold at_eol. cbn [rest].
    destruct u as [|c t]; [eauto|]. rewrite Hu. eauto. }
  destruct Hs as [x Hx]. rewrite Hx.
  apply star_greedy_result in Hx as (w & b & -> & Hw & Hk).
  unfold k in Hk. rewrite rmatch_Seq_cons, rmatch_Eol in Hk.
  destruct (at_eol true _); [|discriminate]. injection Hk as <-.
  by exists w, b, (prev_after pv w).
Qed.

Lemma dropWhile_dot_head u :
  match dropWhile is_dot u with
  | [] => True
  | c :: _ => is_line_terminator c = true
  end.
Proof.
  destruct (dropWhile is_dot u) as [|c t] eqn:E; [done|].
  apply dropWhile_head in E. unfold is_dot in E. by apply negb_false_iff in E.
Qed.

(** [entry.match(headerLine)] on an entry that starts with a header:
    group 1 is the rest of the first line, and the text after the match
    differs from the text after the first line by white space only. *)
Lemma headerLine_exec d m :
  is_dot d = true ->
  exists mm,
    exec headerLine (lit "## " ++ d :: m) = Some mm
    /\ group 1 mm = Some (takeWhile is_dot (d :: m))
    /\ trim (slice_from (lit "## " ++ d :: m) (length (matched mm)))
       = trim (dropWhile is_dot (d :: m)).
Proof.
  intros Hd. rewrite exec_unfold.
  set (entry := lit "## " ++ d :: m).
  set (line := d :: takeWhile is_dot m).
  set (tl := dropWhile is_dot m).
  assert (Hm : d :: m = line ++ tl).
  { unfold line, tl. cbn [app]. by rewrite takeWhile_dropWhile. }
  destruct (space_eol (prev_after (Some d) (takeWhile is_dot m)) tl
              [(1%nat, line)] (dropWhile_dot_head m))
    as (w & b & pv' & Hk & Htl & Hw).
  assert (Hr : rmatch headerLine (MState None entry []) Some
               = Some (MState pv' b [(1%nat, line)])).
  { unfold headerLine. rewrite rmatch_Seq_cons, rmatch_Lit.
    unfold entry. rewrite starts_with_app, drop_app_length.
    rewrite rmatch_Seq_cons, rmatch_Grp. unfold dot. rewrite rmatch_Plus_greedy.
    rewrite Hd. erewrite star_greedy_first; [reflexivity|].
    fold tl. unfold set_cap. cbn [prev rest caps].
    rewrite (consumed_eq _ _ line) by exact Hm. exact Hk. }
  assert (He : entry = (lit "## " ++ line ++ w) ++ b).
  { unfold entry. rewrite Hm, Htl. by rewrite <- !app_assoc. }
  exists (MkMatch 0 (lit "## " ++ line ++ w) [(1%nat, line)]).
  split; [|split].
  - unfold entry in *. cbn [app lit search]. cbn [app lit] in Hr. rewrite Hr.
    do 2 f_equal. apply consumed_eq. cbn [rest]. exact He.
  - unfold line. cbn [takeWhile]. by rewrite Hd.
  - cbn [matched]. unfold slice_from. fold entry. rewrite He, drop_app_length.
    cbn [dropWhile]. rewrite Hd. fold tl. rewrite Htl.
    symmetry. by apply trimStart_spaces.
Qed.

Lemma exec_from_app r (b a : str) :
  b <> [] ->
  exec_from r (b ++ a) (length b) = search r (last b) a (length b).
Proof.
  intros Hb. unfold exec_from.
  replace (length (b ++ a) <? length b)%nat with false
    by (symmetry; apply Nat.ltb_ge; rewrite length_app; lia).
  by rewrite take_app_length, drop_app_length.
Qed.

Lemma header_text_shape h a :
  header_rest (h ++ a) = Some a ->
  exists d m, h = lit "## " ++ d :: m /\ is_digit d = true.
Proof.
  intros H. apply header_rest_shape in H as (d & m & Hu & Hd & _).
  exists d, m. split; [|done].
  change (lit "## " ++ d :: m ++ a) with ((lit "## " ++ d :: m) ++ a) in Hu.
  by apply app_inv_tail in Hu.
Qed.

Lemma is_digit_is_dot d : is_digit d = true -> is_dot d = true.
Proof. intros H. apply is_digit_spec in H. apply printable_is_dot. lia. Qed.

(** [getLatestChangelogEntry] (after the file is read) is [entry_of];
    it fails, on its first [!], exactly when the text has no version
    header. *)
Lemma latestChangelogEntryOf_spec t :
  latestChangelogEntryOf t =
  match entry_of t with
  | Some e => inr e
  | None => inl TypeError
  end.
Proof.
  unfold latestChangelogEntryOf, entry_of.
  change (exec_from versionHeader t 0) with (exec versionHeader t).
  rewrite exec_unfold, versionHeader_search.
  destruct (split_header None t) as [[[b h] a]|] eqn:E1; [|reflexivity].
  apply split_header_Some in E1 as [Ht Hh].
  destruct (header_text_shape _ _ Hh) as (d & m & Hhd & Hd).
  unfold lastIndex. cbn [index matched]. rewrite Nat.add_0_l.
  assert (Hne : b ++ h <> []).
  { rewrite Hhd. intros H. apply app_eq_nil in H as [_ H]. discriminate. }
  assert (Hlast : last (b ++ h) = last h).
  { rewrite last_app. rewrite Hhd. cbn [lit app].
    rewrite !last_cons_cons. rewrite last_cons. by destruct (last m). }
  rewrite <- length_app.
  assert (Hx : exec_from versionHeader t (length (b ++ h))
               = search versionHeader (last h) a (length (b ++ h))).
  { rewrite Ht, app_assoc, exec_from_app by done. by rewrite Hlast. }
  rewrite Hx, versionHeader_search. clear Hx.
  set (body := match split_header (last h) a with
               | Some (b2, _, _) => b2 | None => a end).
  assert (Hs : slice t (length b)
                 match (match split_header (last h) a with
                        | Some (b2, h2, _) => Some (MkMatch (length (b ++ h) + length b2) h2 [])
                        | None => None end) with
                 | Some m2 => index m2
                 | None => length t
                 end = h ++ body).
  { unfold slice, body. rewrite Ht at 1. rewrite drop_app_length.
    destruct (split_header (last h) a) as [[[b2 h2] a2]|] eqn:E2.
    - apply split_header_Some in E2 as [-> _]. cbn [index].
      rewrite length_app.
      replace (length b + length h + length b2 - length b)%nat
        with (length (h ++ b2)) by (rewrite length_app; lia).
      rewrite app_assoc. by rewrite take_app_length.
    - rewrite Ht, !length_app. apply take_ge. rewrite length_app. lia. }
  rewrite Hs. clear Hs.
  assert (He : h ++ body = lit "## " ++ d :: (m ++ body)).
  { rewrite Hhd. by rewrite <- app_assoc. }
  rewrite He.
  destruct (headerLine_exec d (m ++ body) (is_digit_is_dot _ Hd))
    as (mm & -> & -> & Hc).
  rewrite Hc. reflexivity.
Qed.

(** *** Texts without a version header *)

Lemma header_rest_hash_digit u r : header_rest u = Some r -> hash_digit_at u = true.
Proof. intros H. by apply header_rest_shape in H as (? & ? & _ & _ & ?). Qed.

Lemma header_at_no_hash_digit pv u : hash_digit_at u = false -> header_at pv u = None.
Proof.
  intros H. unfold header_at. destruct (line_start pv); [|done].
  destruct (header_rest u) eqn:E; [|done].
  apply header_rest_hash_digit in E. congruence.
Qed.

Lemma line_terminator_cases c :
  is_line_terminator c = true -> c = 10 \/ c = 13 \/ c = 0x2028 \/ c = 0x2029.
Proof. unfold is_line_terminator. intros H. bool_to_prop; auto. Qed.

Lemma line_terminator_not_header c :
  is_line_terminator c = true ->
  (c =? chr "#") = false /\ (c =? chr " ") = false /\ is_digit c = false.
Proof.
  intros H. apply line_terminator_cases in H.
  destruct H as [-> | [-> | [-> | ->]]]; done.
Qed.

(** A piece that ends a line cannot hold the start of a header that
    reaches into the text after it. *)
Lemma hash_digit_at_app s u l :
  last s = Some l -> is_line_terminator l = true ->
  hash_digit_at (s ++ u) = hash_digit_at s.
Proof.
  intros Hl Ht. destruct (line_terminator_not_header _ Ht) as (H1 & H2 & H3).
  destruct s as [|a [|b [|c [|d s']]]]; [done|..|reflexivity].
  - injection Hl as ->. cbn [app hash_digit_at].
    destruct u as [|? [|? [|? ?]]]; cbn [hash_digit_at]; by rewrite ?H1.
  - injection Hl as ->. cbn [app hash_digit_at].
    destruct u as [|? [|? ?]]; cbn [hash_digit_at]; by rewrite ?H1, ?andb_false_r.
  - injection Hl as ->. cbn [app hash_digit_at].
    destruct u as [|? ?]; cbn [hash_digit_at]; by rewrite ?H2, ?andb_false_r.
Qed.

Lemma split_header_skip pre : forall pv u,
  no_hash_digit pre = true -> ends_line pre = true ->
  split_header pv (pre ++ u) =
  match split_header (prev_after pv pre) u with
  | Some (b, h, a) => Some (pre ++ b, h, a)
  | None => None
  end.
Proof.
  induction pre as [|c s IH]; intros pv u Hn He.
  - cbn [app]. rewrite prev_after_nil.
    by destruct (split_header pv u) as [[[b h] a]|].
  - cbn [no_hash_digit] in Hn. apply andb_true_iff in Hn as [Hc Hn].
    apply negb_true_iff in Hc.
    unfold ends_line in He. destruct (last (c :: s)) as [l|] eqn:El;
      [|by apply last_None in El].
    rewrite <- app_comm_cons. cbn [split_header].
    rewrite app_comm_cons, header_at_no_hash_digit
      by (by rewrite (hash_digit_at_app _ _ l)).
    rewrite prev_after_cons, IH.
    + by destruct (split_header (prev_after (Some c) s) u) as [[[b h] a]|].
    + exact Hn.
    + unfold ends_line. destruct s as [|d s']; [done|].
      rewrite last_cons_cons in El. by rewrite El.
Qed.

Lemma split_header_none s : forall pv,
  no_hash_digit s = true -> split_header pv s = None.
Proof.
  induction s as [|c s IH]; intros pv Hn.
  - cbn [split_header]. by rewrite header_at_no_hash_digit.
  - cbn [no_hash_digit] in Hn. apply andb_true_iff in Hn as [Hc Hn].
    apply negb_true_iff in Hc. cbn [split_header].
    rewrite header_at_no_hash_digit by done. by rewrite IH.
Qed.

Lemma no_hash_digit_snoc_lf s :
  no_hash_digit s = true -> no_hash_digit (s ++ [LF]) = true.
Proof.
  induction s as [|c s IH]; [done|].
  cbn [no_hash_digit]. intros H. apply andb_true_iff in H as [Hc Hn].
  rewrite <- app_comm_cons. cbn [no_hash_digit].
  rewrite IH by done. rewrite andb_true_r.
  destruct s as [|c1 [|c2 [|c3 s']]]; try done.
  cbn [app hash_digit_at]. by rewrite !andb_false_r.
Qed.

(** *** Trimming *)

Lemma dropWhile_app p s w :
  dropWhile p (s ++ w) =
  match dropWhile p s with
  | [] => dropWhile p w
  | x => x ++ w
  end.
Proof.
  induction s as [|c s IH]; cbn [app dropWhile].
  - by destruct (dropWhile p w).
  - destruct (p c); [exact IH|reflexivity].
Qed.

Lemma dropWhile_all p w : Forall (fun c => p c = true) w -> dropWhile p w = [].
Proof. induction 1 as [|c w Hc _ IH]; [done|]. simpl. by rewrite Hc. Qed.

Lemma trimEnd_app_spaces s w :
  Forall (fun c => is_space c = true) w -> trimEnd (s ++ w) = trimEnd s.
Proof.
  intros H. unfold trimEnd, trimStart. rewrite rev_app_distr.
  by rewrite dropWhile_app_all by (by apply Forall_rev).
Qed.

(** White space at the end does not change what [trim] returns. *)
Lemma trim_app_spaces s w :
  Forall (fun c => is_space c = true) w -> trim (s ++ w) = trim s.
Proof.
  intros H. unfold trim, trimStart at 1. rewrite dropWhile_app.
  fold (trimStart s). destruct (trimStart s) as [|c t] eqn:E.
  - by rewrite dropWhile_all.
  - by rewrite trimEnd_app_spaces.
Qed.

Lemma trimEnd_prefix u : exists w, u = trimEnd u ++ w.
Proof.
  unfold trimEnd, trimStart. exists (rev (takeWhile is_space (rev u))).
  rewrite <- rev_app_distr, takeWhile_dropWhile. by rewrite rev_involutive.
Qed.

(** [trim] leaves no white space at either end. *)
Lemma trim_trimmed s : trimmed (trim s).
Proof.
  unfold trimmed, trim. split.
  - destruct (trimEnd_prefix (trimStart s)) as [w Hw].
    destruct (trimEnd (trimStart s)) as [|c t] eqn:E; [done|].
    unfold trimStart in Hw at 1. cbn [app] in Hw. by apply dropWhile_head in Hw.
  - unfold trimEnd. set (u := rev (trimStart s)). clearbody u.
    unfold trimStart.
    destruct (dropWhile is_space u) as [|c t] eqn:E; [exact I|].
    apply dropWhile_head in E. cbn [rev]. by rewrite last_snoc.
Qed.

(** ** The codec: encoding and decoding *)

Lemma forallb_Forall (p : char -> bool) (l : str) :
  forallb p l = true -> Forall (fun c => p c = true) l.
Proof.
  induction l as [|c l IH]; cbn [forallb]; [constructor|].
  intros H. apply andb_true_iff in H as [? ?]. constructor; auto.
Qed.

Lemma number_to_string_printable z :
  Forall (fun c => 33 <= c <= 126) (number_to_string z).
Proof.
  assert (H : forall n, Forall (fun c => 33 <= c <= 126) (decimal n)).
  { intros n. eapply Forall_impl; [apply decimal_digits|]. cbn beta. lia. }
  unfold number_to_string. destruct (z <? 0)%Z; [constructor; [done|]|]; apply H.
Qed.

Lemma int_value_number z : int_value (chr " " :: number_to_string z) = Some z.
Proof.
  unfold int_value. rewrite trim_leading_space by reflexivity.
  rewrite trim_no_space.
  - by rewrite parseInt_number_to_string.
  - eapply Forall_impl; [apply number_to_string_printable|].
    intros c Hc. by apply printable_not_space.
Qed.

(** C1, as stated, fails: the encoded block alone does not decode,
    because the decoder wants a line feed after the closing [---] and
    the encoder ends with the [---]. *)
Lemma C1_bare_block_not_decoded :
  getPullFrontmatterData (createPullFrontmatter 1 (lit "abc")) = None.
Proof. vm_compute. reflexivity. Qed.

(** A checksum with white space around it comes back trimmed. *)
Lemma encode_decode_padded_checksum :
  getPullFrontmatterData (createPullFrontmatter 1 (lit " abc ") ++ [LF])
  = Some (MkFrontmatter (Some 1%Z) (Some (lit "abc"))).
Proof. vm_compute. reflexivity. Qed.

(** C1 (amended): for every frontmatter with an integer [draftId] (below
    10^21 in absolute value, where a number prints as plain digits) and a
    [checksum] without line terminators and without white space at its
    ends, the encoded block followed by a line feed and any further text,
    which is how [runVersion] embeds it, decodes to the same two fields. *)
Theorem C1_decode_encode (n : Z) (c tail : str) :
  (Z.abs n < 10 ^ 21)%Z ->
  forallb is_dot c = true ->
  trim c = c ->
  getPullFrontmatterData (createPullFrontmatter n c ++ [LF] ++ tail)
  = Some (MkFrontmatter (Some n) (Some c)).
Proof.
  intros _ Hdot Htrim. apply forallb_Forall in Hdot.
  unfold createPullFrontmatter.
  replace ((lit "---" ++ [LF] ++ lit "draft_id: " ++ number_to_string n ++ [LF]
            ++ lit "checksum: " ++ c ++ [LF] ++ lit "---") ++ [LF] ++ tail)
    with (lit "---" ++ [LF] ++ lit "draft_id:" ++ (chr " " :: number_to_string n)
          ++ [LF] ++ lit "checksum:" ++ (chr " " :: c) ++ [LF] ++ lit "---"
          ++ [LF] ++ tail).
  2:{ cbn [app lit]. rewrite <- !app_assoc. cbn [app]. rewrite <- !app_assoc.
      reflexivity. }
  rewrite decode_two_lines.
  - rewrite int_value_number, trim_leading_space by reflexivity.
    by rewrite Htrim.
  - constructor; [reflexivity|].
    eapply Forall_impl; [apply number_to_string_printable|].
    intros x Hx. by apply printable_is_dot.
  - discriminate.
  - by constructor.
  - discriminate.
Qed.

Lemma C1_decode_encode_witness :
  (Z.abs 42 < 10 ^ 21)%Z
  /\ forallb is_dot (lit "d41d8cd98f00b204e9800998ecf8427e") = true
  /\ trim (lit "d41d8cd98f00b204e9800998ecf8427e")
     = lit "d41d8cd98f00b204e9800998ecf8427e"
  /\ getPullFrontmatterData
       (createPullFrontmatter 42 (lit "d41d8cd98f00b204e9800998ecf8427e")
        ++ [LF] ++ lit "# Releases")
     = Some (MkFrontmatter (Some 42%Z)
               (Some (lit "d41d8cd98f00b204e9800998ecf8427e"))).
Proof.
  split; [reflexivity|]. split; [reflexivity|]. split; [reflexivity|].
  apply C1_decode_encode; reflexivity.
Defined.

(** C3, as stated, fails: a body with a single [---] line (the other
    [---] sits in the middle of a line) holds no block delimited by
    [---] lines, and yet the decoder returns a frontmatter. *)
Lemma C3_block_without_opening_line :
  delimiter_lines (lit "a---b" ++ [LF] ++ lit "---" ++ [LF]) = [lit "---"]
  /\ getPullFrontmatterData (lit "a---b" ++ [LF] ++ lit "---" ++ [LF])
     = Some (MkFrontmatter None None).
Proof. split; vm_compute; reflexivity. Qed.

(** The example of the specification: a draft_id that is no number is
    dropped, the checksum of the same block is kept. *)
Lemma decode_malformed_draft_id :
  getPullFrontmatterData
    (lit "---" ++ [LF] ++ lit "draft_id: abc" ++ [LF]
     ++ lit "checksum: 0123abcd" ++ [LF] ++ lit "---" ++ [LF] ++ lit "text")
  = Some (MkFrontmatter None (Some (lit "0123abcd"))).
Proof. vm_compute. reflexivity. Qed.

(** [parseInt] reads a numeric prefix: [12abc] counts as 12. *)
Lemma decode_numeric_prefix :
  getPullFrontmatterData
    (lit "---" ++ [LF] ++ lit "draft_id: 12abc" ++ [LF] ++ lit "---" ++ [LF])
  = Some (MkFrontmatter (Some 12%Z) None).
Proof. vm_compute. reflexivity. Qed.

(** C3 (amended): the decoder returns none exactly when the body holds
    no block, where a block is a [---] anywhere in the text followed
    later by a closing delimiter (line feed, white space, [---], white
    space, line feed).  Inside the first block the draftId is present
    exactly when the value of the last [draft_id:] line is read as an
    integer by [parseInt] (after trimming), and the checksum is the
    trimmed value of the last [checksum:] line whatever the draft_id
    lines hold. *)
Theorem C3_decode (body : str) :
  (getPullFrontmatterData body = None <-> ~ has_block body)
  /\ (forall fm, getPullFrontmatterData body = Some fm ->
        exists blk,
          first_block body = Some blk
          /\ (forall n, draftId fm = Some n <->
                exists v, last_value (lit "draft_id:") (split_lines blk) = Some v
                          /\ parseInt (trim v) = Num n)
          /\ (forall v, last_value (lit "draft_id:") (split_lines blk) = Some v ->
                parseInt (trim v) = NaN -> draftId fm = None)
          /\ checksum fm
             = trim <$> last_value (lit "checksum:") (split_lines blk)).
Proof.
  rewrite getPullFrontmatterData_spec. split.
  - rewrite <- first_block_has_block. destruct (first_block body); cbn.
    + split; [discriminate|]. intros H. exfalso. apply H. eauto.
    + split; [|done]. intros _ [x Hx]. discriminate.
  - intros fm. destruct (first_block body) as [blk|]; [|discriminate].
    intros [= <-]. exists blk. split; [reflexivity|].
    unfold decode_block. cbn [draftId checksum].
    destruct (last_value (lit "draft_id:") (split_lines blk)) as [v|];
      cbn [mbind option_bind]; unfold int_value.
    + split; [|split; [|reflexivity]].
      * intros n. split.
        -- intros H. exists v. split; [reflexivity|].
           destruct (parseInt (trim v)); congruence.
        -- intros (v' & [= <-] & ->). reflexivity.
      * intros v' [= <-] ->. reflexivity.
    + split; [|split; [|reflexivity]].
      * intros n. split; [discriminate|]. intros (v' & [=] & _).
      * discriminate.
Qed.

(** ** The changelog extractor *)

Lemma split_header_here pv u r :
  header_at pv u = Some r ->
  split_header pv u = Some ([], take (length u - length r) u, r).
Proof. intros H. destruct u; cbn [split_header]; by rewrite H. Qed.

Lemma line_start_ends_line pv pre :
  ends_line pre = true -> (pre = [] -> line_start pv = true) ->
  line_start (prev_after pv pre) = true.
Proof.
  unfold ends_line, prev_after. destruct (last pre) eqn:E; [done|].
  intros _ H. apply H. by apply last_None.
Qed.

Lemma hash_digit_at_head c t : (c =? chr "#") = false -> hash_digit_at (c :: t) = false.
Proof. intros H. destruct t as [|? [|? [|? ?]]]; cbn [hash_digit_at]; by rewrite ?H. Qed.

(** The entry of a text with a header [## 1.1.0] on a line of its own. *)
Lemma entry_of_first_header pre rest_ :
  no_hash_digit pre = true -> ends_line pre = true ->
  split_header None (pre ++ lit "## 1.1.0" ++ [LF] ++ rest_)
  = Some (pre, lit "## 1.1.0", LF :: rest_).
Proof.
  intros Hn He. rewrite split_header_skip by done.
  assert (Hh : header_at (prev_after None pre) (lit "## 1.1.0" ++ [LF] ++ rest_)
               = Some (LF :: rest_)).
  { unfold header_at. by rewrite line_start_ends_line. }
  rewrite (split_header_here _ _ _ Hh).
  change (lit "## 1.1.0" ++ [LF] ++ rest_) with (lit "## 1.1.0" ++ LF :: rest_).
  by rewrite take_app_sub, app_nil_r.
Qed.

(** C7: the extractor on a changelog whose newest section is [## 1.1.0].
    With a next header [## 1.0.0] the content is the text between the
    two header lines; with no further header it is the text up to the
    end of the document; in every case the content is what follows the
    header line of the entry, trimmed, so it never holds that line and
    has no white space at its ends.  ([pre] is what precedes the first
    header, [c1] the text of the section; neither holds a header, which
    is put as: no [## ] followed by a digit.) *)
Theorem C7_latest_entry (pre c1 c2 : str) :
  no_hash_digit pre = true -> ends_line pre = true ->
  no_hash_digit c1 = true ->
  latestChangelogEntryOf
    (pre ++ lit "## 1.1.0" ++ [LF] ++ c1 ++ [LF] ++ lit "## 1.0.0" ++ c2)
  = inr (MkEntry (lit "1.1.0") (trim c1))
  /\ latestChangelogEntryOf (pre ++ lit "## 1.1.0" ++ [LF] ++ c1)
     = inr (MkEntry (lit "1.1.0") (trim c1))
  /\ (forall t e, latestChangelogEntryOf t = inr e ->
        exists before tail after,
          t = before ++ (lit "## " ++ version e ++ tail) ++ after
          /\ forallb is_dot (version e) = true
          /\ match tail with
             | [] => True
             | c :: _ => is_line_terminator c = true
             end
          /\ content e = trim tail
          /\ trimmed (content e)).
Proof.
  intros Hpre Hend Hc1. split; [|split].
  - rewrite latestChangelogEntryOf_spec. unfold entry_of.
    rewrite entry_of_first_header by done.
    change (last (lit "## 1.1.0")) with (Some 48).
    replace (LF :: c1 ++ [LF] ++ lit "## 1.0.0" ++ c2)
      with ((LF :: c1 ++ [LF]) ++ lit "## 1.0.0" ++ c2)
      by (cbn [app]; by rewrite <- app_assoc).
    rewrite split_header_skip.
    2:{ cbn [no_hash_digit]. rewrite hash_digit_at_head by done.
        by apply no_hash_digit_snoc_lf. }
    2:{ unfold ends_line. by rewrite app_comm_cons, last_snoc. }
    assert (Hh : header_at (prev_after (Some 48) (LF :: c1 ++ [LF]))
                   (lit "## 1.0.0" ++ c2) = Some (dropWhile is_digit c2)).
    { unfold header_at. rewrite line_start_ends_line; [reflexivity| |discriminate].
      unfold ends_line. by rewrite app_comm_cons, last_snoc. }
    rewrite (split_header_here _ _ _ Hh). rewrite app_nil_r.
    change (drop 3 (lit "## 1.1.0" ++ LF :: c1 ++ [LF]))
      with (lit "1.1.0" ++ LF :: c1 ++ [LF]).
    change (takeWhile is_dot (lit "1.1.0" ++ LF :: c1 ++ [LF])) with (lit "1.1.0").
    change (dropWhile is_dot (lit "1.1.0" ++ LF :: c1 ++ [LF])) with (LF :: c1 ++ [LF]).
    rewrite trim_leading_space by done.
    by rewrite trim_app_spaces by (by repeat constructor).
  - rewrite latestChangelogEntryOf_spec. unfold entry_of.
    rewrite entry_of_first_header by done.
    rewrite split_header_none.
    2:{ cbn [no_hash_digit]. by rewrite hash_digit_at_head. }
    change (drop 3 (lit "## 1.1.0" ++ LF :: c1)) with (lit "1.1.0" ++ LF :: c1).
    change (takeWhile is_dot (lit "1.1.0" ++ LF :: c1)) with (lit "1.1.0").
    change (dropWhile is_dot (lit "1.1.0" ++ LF :: c1)) with (LF :: c1).
    by rewrite trim_leading_space.
  - intros t e. rewrite latestChangelogEntryOf_spec. unfold entry_of.
    destruct (split_header None t) as [[[b h] a]|] eqn:E1; [|discriminate].
    apply split_header_Some in E1 as [Ht Hh].
    destruct (header_text_shape _ _ Hh) as (d & m & -> & Hd).
    set (body := match split_header _ a with Some (b2, _, _) => b2 | None => a end).
    assert (Hb : exists after, a = body ++ after).
    { unfold body. destruct (split_header _ a) as [[[b2 h2] a2]|] eqn:E2.
      - apply split_header_Some in E2 as [-> _]. eauto.
      - exists []. by rewrite app_nil_r. }
    destruct Hb as [after Ha]. intros [= <-]. cbn [version content].
    replace ((lit "## " ++ d :: m) ++ body) with (lit "## " ++ d :: (m ++ body))
      by (by rewrite <- app_assoc).
    change (drop 3 (lit "## " ++ ?x)) with x.
    set (u3 := d :: m ++ body).
    change (if is_dot d then d :: takeWhile is_dot (m ++ body) else [])
      with (takeWhile is_dot u3).
    exists b, (dropWhile is_dot u3), after. split; [|split; [|split; [|split]]].
    + rewrite takeWhile_dropWhile. rewrite Ht, Ha at 1. unfold u3.
      rewrite <- !app_assoc. cbn [app]. by rewrite <- !app_assoc.
    + apply forallb_forall. intros x Hx.
      pose proof (takeWhile_Forall is_dot u3) as HF.
      rewrite Forall_forall in HF. apply HF. by apply list_elem_of_In.
    + apply dropWhile_dot_head.
    + reflexivity.
    + apply trim_trimmed.
Qed.

Lemma C7_latest_entry_witness :
  no_hash_digit (lit "# pkg" ++ [LF; LF]) = true
  /\ ends_line (lit "# pkg" ++ [LF; LF]) = true
  /\ no_hash_digit ([LF] ++ lit "### Minor Changes" ++ [LF; LF] ++ lit "- a change" ++ [LF]) = true
  /\ latestChangelogEntryOf
       ((lit "# pkg" ++ [LF; LF]) ++ lit "## 1.1.0" ++ [LF]
        ++ ([LF] ++ lit "### Minor Changes" ++ [LF; LF] ++ lit "- a change" ++ [LF])
        ++ [LF] ++ lit "## 1.0.0" ++ ([LF; LF] ++ lit "- first" ++ [LF]))
     = inr (MkEntry (lit "1.1.0")
              (lit "### Minor Changes" ++ [LF; LF] ++ lit "- a change")).
Proof.
  split; [reflexivity|]. split; [reflexivity|]. split; [reflexivity|].
  apply (C7_latest_entry (lit "# pkg" ++ [LF; LF])
           ([LF] ++ lit "### Minor Changes" ++ [LF; LF] ++ lit "- a change" ++ [LF])
           ([LF; LF] ++ lit "- first" ++ [LF])); reflexivity.
Defined.

(** ** The pull request of a commit *)

Lemma compare_pulls_le p q :
  valid_dates [p; q] = true ->
  (compare_pulls p q <= 0)%Z <-> not_after p q.
Proof.
  unfold valid_dates, compare_pulls, not_after, merge_time. cbn [forallb].
  destruct (merged_at p) as [sp|], (merged_at q) as [sq|];
    try destruct (Date sp) as [|a]; try destruct (Date sq) as [|b];
    try discriminate; intros _; cbn [js_gt js_lt]; try (split; [tauto|lia]);
    try (split; [lia|tauto]).
  destruct (b <? a)%Z eqn:E1; [apply Z.ltb_lt in E1; lia|].
  apply Z.ltb_ge in E1.
  destruct (a <? b)%Z eqn:E2; [apply Z.ltb_lt in E2|apply Z.ltb_ge in E2]; lia.
Qed.

Lemma not_after_refl p : not_after p p.
Proof. unfold not_after. destruct (merge_time p); [lia|done]. Qed.

Lemma not_after_trans p q r :
  valid_dates [p; q; r] = true -> not_after p q -> not_after q r -> not_after p r.
Proof.
  unfold valid_dates, not_after, merge_time. cbn [forallb].
  destruct (merged_at p) as [sp|], (merged_at q) as [sq|], (merged_at r) as [sr|];
    try destruct (Date sp); try destruct (Date sq); try destruct (Date sr);
    try discriminate; intros _; try tauto; lia.
Qed.

Lemma not_after_total p q :
  valid_dates [p; q] = true -> not_after p q \/ not_after q p.
Proof.
  unfold valid_dates, not_after, merge_time. cbn [forallb].
  destruct (merged_at p) as [sp|], (merged_at q) as [sq|];
    try destruct (Date sp); try destruct (Date sq);
    try discriminate; intros _; try tauto; lia.
Qed.

Lemma head_insert_sorted {A} (cmp : A -> A -> Z) x l :
  head (insert_sorted cmp x l) =
  match head l with
  | Some y => if (cmp x y <=? 0)%Z then Some x else Some y
  | None => Some x
  end.
Proof. destruct l as [|y l]; cbn; [done|]. by destruct (cmp x y <=? 0)%Z. Qed.

Lemma insert_sorted_perm {A} (cmp : A -> A -> Z) x l :
  insert_sorted cmp x l ≡ₚ x :: l.
Proof.
  induction l as [|y l IH]; cbn; [done|].
  destruct (cmp x y <=? 0)%Z; [done|]. rewrite IH. apply Permutation_swap.
Qed.

(** The model of [sort] returns a rearrangement of its argument. *)
Lemma array_sort_perm {A} (cmp : A -> A -> Z) l : array_sort cmp l ≡ₚ l.
Proof.
  induction l as [|x l IH]; cbn; [done|].
  fold (array_sort cmp l). by rewrite insert_sorted_perm, IH.
Qed.

Lemma valid_dates_cons p l :
  valid_dates (p :: l) = true <-> valid_dates [p] = true /\ valid_dates l = true.
Proof. unfold valid_dates. cbn [forallb]. rewrite !andb_true_iff. tauto. Qed.

Lemma valid_dates_elem p l : valid_dates l = true -> p ∈ l -> valid_dates [p] = true.
Proof.
  intros H Hp. unfold valid_dates in *. cbn [forallb]. rewrite andb_true_r.
  rewrite forallb_forall in H. apply H. by apply list_elem_of_In.
Qed.

Lemma valid_dates_pair p q :
  valid_dates [p] = true -> valid_dates [q] = true -> valid_dates [p; q] = true.
Proof. unfold valid_dates. cbn [forallb]. rewrite !andb_true_r. by intros -> ->. Qed.

(** The selected pull request is one of the list and none of the list
    comes before it. *)
Lemma select_pull_min pulls :
  valid_dates pulls = true ->
  match select_pull pulls with
  | Some p => p ∈ pulls /\ forall q, q ∈ pulls -> not_after p q
  | None => pulls = []
  end.
Proof.
  unfold select_pull. induction pulls as [|x l IH]; [done|].
  intros Hv. apply valid_dates_cons in Hv as [Hx Hl].
  cbn [array_sort foldr]. fold (array_sort compare_pulls l).
  rewrite head_insert_sorted. specialize (IH Hl).
  destruct (head (array_sort compare_pulls l)) as [y|].
  - destruct IH as [Hy Hmin].
    assert (Hvy : valid_dates [y] = true) by by apply (valid_dates_elem y l).
    destruct (compare_pulls x y <=? 0)%Z eqn:E.
    + apply Z.leb_le in E. apply compare_pulls_le in E; [|by apply valid_dates_pair].
      split; [by left|]. intros q Hq. apply elem_of_cons in Hq as [->|Hq].
      * apply not_after_refl.
      * apply (not_after_trans x y q); [|done|by apply Hmin].
        apply valid_dates_cons. split; [done|].
        apply valid_dates_pair; [done|]. by apply (valid_dates_elem q l).
    + apply Z.leb_gt in E. split; [by right|].
      intros q Hq. apply elem_of_cons in Hq as [->|Hq]; [|by apply Hmin].
      destruct (not_after_total y x) as [H|H]; [by apply valid_dates_pair|done|].
      apply compare_pulls_le in H; [lia|by apply valid_dates_pair].
  - subst l. split; [by left|]. intros q Hq. apply elem_of_cons in Hq as [->|Hq].
    + apply not_after_refl.
    + by apply elem_of_nil in Hq.
Qed.


Lemma insert_sorted_Sorted x l :
  valid_dates (x :: l) = true ->
  Sorted not_after l -> Sorted not_after (insert_sorted compare_pulls x l).
Proof.
  intros Hv Hs. apply valid_dates_cons in Hv as [Hx Hl].
  induction Hs as [|y l Hs IH Hd]; cbn [insert_sorted]; [by repeat constructor|].
  apply valid_dates_cons in Hl as [Hy Hl].
  destruct (compare_pulls x y <=? 0)%Z eqn:E.
  - apply Z.leb_le, compare_pulls_le in E; [|by apply valid_dates_pair].
    by repeat constructor.
  - apply Z.leb_gt in E. constructor; [by apply IH|].
    assert (Hyx : not_after y x).
    { destruct (not_after_total y x) as [H|H]; [by apply valid_dates_pair|done|].
      apply compare_pulls_le in H; [lia|by apply valid_dates_pair]. }
    destruct l as [|z l]; cbn [insert_sorted]; [by constructor|].
    destruct (compare_pulls x z <=? 0)%Z; constructor; [done|].
    by inversion Hd.
Qed.

(** The model of [sort] orders by the comparator. *)
Lemma array_sort_Sorted pulls :
  valid_dates pulls = true -> Sorted not_after (array_sort compare_pulls pulls).
Proof.
  induction pulls as [|x l IH]; intros Hv; [constructor|].
  cbn [array_sort foldr]. fold (array_sort compare_pulls l).
  pose proof Hv as Hv'. apply valid_dates_cons in Hv' as [Hx Hl].
  apply insert_sorted_Sorted; [|by apply IH].
  apply valid_dates_cons. split; [done|].
  unfold valid_dates in *. rewrite forallb_forall in *.
  intros p Hp. apply Hl. apply list_elem_of_In. rewrite <- (array_sort_perm compare_pulls l).
  by apply list_elem_of_In.
Qed.

(** C6: for every list of candidate pull requests whose merge
    timestamps are dates, the resolver returns none for the empty list
    and otherwise an element of the list that the order of the
    comparator puts first: it is merged if any candidate is, and no
    candidate was merged earlier.  The selection is the head of the list
    sorted with the comparator, a rearrangement of the candidates in
    which no element comes after its successor.  For the three candidates of the
    specification the one merged on 2023-01-01 is selected. *)
Theorem C6_select_pull (pulls : list Pull) :
  valid_dates pulls = true ->
  select_pull pulls = head (array_sort compare_pulls pulls)
  /\ array_sort compare_pulls pulls ≡ₚ pulls
  /\ Sorted not_after (array_sort compare_pulls pulls)
  /\ (pulls = [] -> select_pull pulls = None)
  /\ (pulls <> [] ->
        exists p, select_pull pulls = Some p /\ p ∈ pulls
                  /\ forall q, q ∈ pulls -> not_after p q)
  /\ select_pull [pr_unmerged; pr_february; pr_january] = Some pr_january.
Proof.
  intros Hv. split; [reflexivity|]. split; [apply array_sort_perm|].
  split; [by apply array_sort_Sorted|]. split; [by intros ->|]. split; [|by vm_compute].
  intros Hne. pose proof (select_pull_min pulls Hv) as H.
  destruct (select_pull pulls) as [p|]; [|done].
  exists p. by destruct H.
Qed.

Lemma C6_select_pull_witness :
  valid_dates [pr_unmerged; pr_february; pr_january] = true
  /\ exists p, select_pull [pr_unmerged; pr_february; pr_january] = Some p
               /\ p ∈ [pr_unmerged; pr_february; pr_january]
               /\ forall q, q ∈ [pr_unmerged; pr_february; pr_january] -> not_after p q.
Proof.
  split; [reflexivity|].
  apply (C6_select_pull [pr_unmerged; pr_february; pr_january]); [reflexivity|discriminate].
Defined.

(** ** Procedures *)

Lemma bind_run {A B} (m : M A) (f : A -> M B) w :
  (m ≫= f) w = match m w with
               | (w1, inr x) => f x w1
               | (w1, inl e) => (w1, inl e)
               end.
Proof. reflexivity. Qed.

Lemma ret_run {A} (x : A) w : (mret x : M A) w = (w, inr x).
Proof. reflexivity. Qed.

(** ** The publish output in a workspace of several packages *)

Lemma released_loop_spec m lines : forall acc,
  released_loop m lines acc =
  match lookup_all m (omap (fun line => default [] ∘ group 1 <$> exec newTagRegex line) lines) with
  | inr ps => inr (acc ++ ps)
  | inl n => inl (Error (not_found_message n))
  end.
Proof.
  induction lines as [|line lines IH]; intros acc; cbn [released_loop omap list_omap lookup_all].
  - by rewrite app_nil_r.
  - destruct (exec newTagRegex line) as [mm|]; cbn [fmap option_fmap option_map];
      [|apply IH].
    cbn [lookup_all compose]. destruct (m !! default [] (group 1 mm)) as [p|]; [|done].
    rewrite IH. destruct (lookup_all m _); [done|]. by rewrite <- app_assoc.
Qed.

Lemma lookup_all_inr m names ps :
  lookup_all m names = inr ps -> Forall2 (fun n p => m !! n = Some p) names ps.
Proof.
  revert ps. induction names as [|n ns IH]; intros ps; cbn [lookup_all].
  - intros [= <-]. constructor.
  - destruct (m !! n) as [p|] eqn:E; [|done].
    destruct (lookup_all m ns) as [|ps']; [done|]. intros [= <-].
    constructor; [done|]. by apply IH.
Qed.

Lemma lookup_all_present m names :
  Forall (fun n => is_Some (m !! n)) names -> exists ps, lookup_all m names = inr ps.
Proof.
  induction 1 as [|n ns [p Hp] _ [ps IH]]; cbn [lookup_all]; [eauto|].
  rewrite Hp, IH. eauto.
Qed.

Lemma lookup_all_absent m ok n rest_ :
  Forall (fun n => is_Some (m !! n)) ok -> m !! n = None ->
  lookup_all m (ok ++ n :: rest_) = inl n.
Proof.
  induction 1 as [|n' ns [p Hp] _ IH]; intros Hn; cbn [app lookup_all].
  - by rewrite Hn.
  - by rewrite Hp, IH.
Qed.

(** The map built from the packages gives, for a name, the last package
    of that name. *)
Lemma packagesByName_lookup packages n :
  packagesByName_of packages !! n
  = last (filter (fun p => pkg_name (packageJson p) = n) packages).
Proof.
  unfold packagesByName_of.
  induction packages as [|x l IH] using rev_ind; [done|].
  rewrite foldl_app, filter_app. cbn [foldl]. rewrite filter_cons, filter_nil.
  destruct (decide (pkg_name (packageJson x) = n)) as [->|Hne].
  - by rewrite lookup_insert_eq, last_snoc.
  - by rewrite lookup_insert_ne, app_nil_r.
Qed.


Section PublishProofs.

Variable getChangelogEntry : str -> str -> option str.

(** [runPublish] is: run the command, push the tags, then read the
    output against the workspace. *)
Lemma runPublish_run script w :
  runPublish getChangelogEntry script w =
  match released_packages getChangelogEntry (workspace w).1 (workspace w).2
          (publish_stdout script w) (after_publish_command script w) with
  | (w1, inr ps) => (w1, inr (publish_result ps))
  | (w1, inl e) => (w1, inl e)
  end.
Proof.
  unfold runPublish, after_publish_command, publish_stdout.
  cbv beta iota zeta delta [mbind M_bind mret M_ret execWithOutput pushTags
    exec_command ask].
  cbn [workspace add_event set_files files files_after].
  destruct (workspace w) as [packages tool]. reflexivity.
Qed.

Lemma released_packages_multi packages tool stdout w :
  bool_decide (tool = lit "root") = false ->
  released_packages getChangelogEntry packages tool stdout w =
  match lookup_all (packagesByName_of packages) (reported_names stdout) with
  | inl n => (w, inl (Error (not_found_message n)))
  | inr [] => (w, inr [])
  | inr ps =>
      match promote_draft w with
      | (w1, inr _) => (w1, inr ps)
      | (w1, inl e) => (w1, inl e)
      end
  end.
Proof.
  intros Ht. unfold released_packages, reported_names. rewrite Ht. cbn [negb].
  rewrite bind_run. unfold lift at 1. rewrite released_loop_spec.
  destruct (lookup_all _ _) as [n|ps]; [reflexivity|].
  cbn [app]. destruct ps as [|p ps]; [reflexivity|].
  rewrite bind_run. cbn [negb]. rewrite bool_decide_eq_false_2 by done.
  cbn [negb]. by destruct (promote_draft w) as [w1 [e|[]]].
Qed.

(** C5: in a workspace of several packages the released packages are
    the packages named by the lines of the output that match the
    pattern, in the order of the output and with repetitions; the
    first matched name that the workspace does not hold ends
    [runPublish] with the error for that name.  On the output of the
    specification the names are [pkg-a] and [@scope/pkg-b]. *)
Theorem C5_released_packages (script : str) (w : World) :
  bool_decide ((workspace w).2 = lit "root") = false ->
  let m := packagesByName_of (workspace w).1 in
  let names := reported_names (publish_stdout script w) in
  (Forall (fun n => is_Some (m !! n)) names ->
     exists ps,
       released_loop m (split_lines (publish_stdout script w)) [] = inr ps
       /\ Forall2 (fun n p => m !! n = Some p) names ps
       /\ forall res, (runPublish getChangelogEntry script w).2 = inr res ->
             res = publish_result ps)
  /\ (forall ok n rest_,
        names = ok ++ n :: rest_ ->
        Forall (fun n => is_Some (m !! n)) ok -> m !! n = None ->
        (runPublish getChangelogEntry script w).2 = inl (Error (not_found_message n)))
  /\ (forall n, m !! n
                = last (filter (fun p => pkg_name (packageJson p) = n) (workspace w).1))
  /\ reported_names two_tags_stdout = [lit "pkg-a"; lit "@scope/pkg-b"]
  /\ reported_names (two_tags_stdout ++ [LF] ++ two_tags_stdout)
     = [lit "pkg-a"; lit "@scope/pkg-b"; lit "pkg-a"; lit "@scope/pkg-b"].
Proof.
  intros Ht m names.
  pose proof (runPublish_run script w) as Hrun.
  rewrite released_packages_multi in Hrun by done.
  fold m names in Hrun.
  split; [|split; [|split; [|split]]].
  - intros Hall. destruct (lookup_all_present m names Hall) as [ps Hps].
    exists ps. split; [|split].
    + rewrite released_loop_spec. unfold names, reported_names in Hps.
      by rewrite Hps.
    + by apply lookup_all_inr.
    + intros res. rewrite Hrun, Hps. destruct ps as [|p ps].
      * by intros [= <-].
      * destruct (promote_draft _) as [w1 [e|[]]]; [done|]. by intros [= <-].
  - intros ok n rest_ Hn Hok Hnone. rewrite Hrun, Hn.
    by rewrite lookup_all_absent.
  - intros n. apply packagesByName_lookup.
  - by vm_compute.
  - by vm_compute.
Qed.

End PublishProofs.

Lemma C5_released_packages_witness :
  bool_decide ((workspace two_tags_world).2 = lit "root") = false
  /\ Forall (fun n => is_Some (packagesByName_of (workspace two_tags_world).1 !! n))
       (reported_names (publish_stdout (lit "yarn release") two_tags_world))
  /\ exists ps,
       released_loop (packagesByName_of (workspace two_tags_world).1)
         (split_lines (publish_stdout (lit "yarn release") two_tags_world)) [] = inr ps
       /\ Forall2 (fun n p => packagesByName_of (workspace two_tags_world).1 !! n = Some p)
            (reported_names (publish_stdout (lit "yarn release") two_tags_world)) ps
       /\ forall res,
            (runPublish (fun _ _ => None) (lit "yarn release") two_tags_world).2 = inr res ->
            res = publish_result ps.
Proof.
  assert (Hall : Forall (fun n => is_Some (packagesByName_of (workspace two_tags_world).1 !! n))
                   (reported_names (publish_stdout (lit "yarn release") two_tags_world))).
  { apply (bool_decide_unpack _). vm_compute. exact I. }
  split; [reflexivity|]. split; [exact Hall|].
  exact (proj1 (C5_released_packages (fun _ _ => None) (lit "yarn release")
                  two_tags_world eq_refl) Hall).
Defined.

(** ** The publish output in a workspace of one package *)

Lemma root_regex_search line : forall pv idx,
  is_Some (search newTagRootRegex pv line idx) <-> marker_line line = true.
Proof.
  unfold marker_line, newTagRootRegex.
  induction line as [|c t IH]; intros pv idx; cbn [search includes];
    rewrite rmatch_Lit.
  - destruct (starts_with (lit "New tag:") []) eqn:E; [done|].
    cbn [orb]. split; [intros [x Hx]; discriminate|discriminate].
  - destruct (starts_with (lit "New tag:") (c :: t)) eqn:E.
    + split; [done|eauto].
    + cbn [orb]. apply IH.
Qed.

Lemma root_regex_exec line :
  is_Some (exec newTagRootRegex line) <-> marker_line line = true.
Proof. rewrite exec_unfold. apply root_regex_search. Qed.

Section RootProofs.

Variable getChangelogEntry : str -> str -> option str.

(** The loop calls [createRelease] once if some line holds the marker,
    and not at all otherwise. *)
Lemma root_loop_run pkg lines acc w :
  root_loop getChangelogEntry pkg lines acc w =
  if existsb marker_line lines then
    match createRelease getChangelogEntry pkg
            (lit "v" ++ pkg_version (packageJson pkg)) w with
    | (w1, inr _) => (w1, inr (acc ++ [pkg]))
    | (w1, inl e) => (w1, inl e)
    end
  else (w, inr acc).
Proof.
  induction lines as [|line lines IH]; cbn [root_loop existsb]; [reflexivity|].
  pose proof (root_regex_exec line) as H.
  destruct (exec newTagRootRegex line) as [m|].
  - rewrite (proj1 H) by eauto. cbn [orb]. rewrite bind_run.
    by destruct (createRelease _ _ _ w) as [w1 [e|[]]].
  - destruct (marker_line line) eqn:E.
    + destruct (proj2 H eq_refl) as [x Hx]. discriminate.
    + cbn [orb]. exact IH.
Qed.

(** What [createRelease] does, by the state of the changelog file. *)
Lemma createRelease_run pkg tagName w :
  createRelease getChangelogEntry pkg tagName w =
  match files w !! path_join (dir pkg) (lit "CHANGELOG.md") with
  | None => (w, inr tt)
  | Some (Failing code) =>
      if bool_decide (code = lit "ENOENT") then (w, inr tt)
      else (w, inl (FsError code))
  | Some (Content changelog) =>
      match getChangelogEntry changelog (pkg_version (packageJson pkg)) with
      | None =>
          (w, inl (Error (lit "Could not find changelog entry for "
                          ++ pkg_name (packageJson pkg) ++ lit "@"
                          ++ pkg_version (packageJson pkg))))
      | Some entry_content =>
          ((repos_createRelease tagName tagName entry_content false
              (includes (lit "-") (pkg_version (packageJson pkg))) w).1,
           inr tt)
      end
  end.
Proof.
  unfold createRelease, try_catch. rewrite bind_run. unfold readFile.
  destruct (files w !! _) as [[changelog|code]|].
  - destruct (getChangelogEntry _ _) as [c|]; [|reflexivity].
    reflexivity.
  - cbn [err_code]. destruct (decide (code = lit "ENOENT")) as [->|Hne].
    + by rewrite !bool_decide_eq_true_2.
    + rewrite !bool_decide_eq_false_2; [done|done|]. by intros [= ?].
  - reflexivity.
Qed.

Lemma released_packages_root packages stdout w :
  released_packages getChangelogEntry packages (lit "root") stdout w =
  match packages with
  | [] => (w, inl (Error no_package_message))
  | pkg :: _ => root_loop getChangelogEntry pkg (split_lines stdout) [] w
  end.
Proof. by destruct packages. Qed.

Lemma created_releases_add_event e w :
  created_releases (add_event e w)
  = (created_releases w + if is_create_release e then 1 else 0)%nat.
Proof.
  unfold created_releases. cbn [events add_event].
  rewrite List.filter_app, length_app. cbn [List.filter].
  by destruct (is_create_release e).
Qed.

Lemma created_releases_after_publish_command script w :
  created_releases (after_publish_command script w) = created_releases w.
Proof.
  unfold after_publish_command. rewrite created_releases_add_event.
  unfold created_releases at 1. cbn [events set_files].
  fold (created_releases (add_event (Exec (default [] (head (split_ws script)))
                                       (tail (split_ws script))) w)).
  rewrite created_releases_add_event. cbn [is_create_release]. lia.
Qed.

(** [runPublish] in a workspace of one package, on an output with a
    marker line. *)
Lemma runPublish_root_marker script w pkg others :
  workspace w = (pkg :: others, lit "root") ->
  existsb marker_line (split_lines (publish_stdout script w)) = true ->
  runPublish getChangelogEntry script w =
  match createRelease getChangelogEntry pkg
          (lit "v" ++ pkg_version (packageJson pkg))
          (after_publish_command script w) with
  | (w3, inr _) => (w3, inr (Published [to_published pkg]))
  | (w3, inl e) => (w3, inl e)
  end.
Proof.
  intros Hw Hm. rewrite runPublish_run, Hw. cbn [fst snd].
  rewrite released_packages_root, root_loop_run, Hm.
  by destruct (createRelease _ _ _ _) as [w3 [e|[]]].
Qed.

(** C9: in a workspace of one package, for every publish output with
    at least one line that holds the marker [New tag:], [runPublish]
    performs one release action whatever the number of marker lines:
    after the publish command and the push of the tags it calls
    [createRelease] once, for the one package, and returns that package
    as the only published one; at most one release is created on the
    host.  On an output with two marker lines one release is created. *)
Theorem C9_single_release (script : str) (w : World) (pkg : Package)
    (others : list Package) :
  workspace w = (pkg :: others, lit "root") ->
  existsb marker_line (split_lines (publish_stdout script w)) = true ->
  runPublish getChangelogEntry script w
  = match createRelease getChangelogEntry pkg
            (lit "v" ++ pkg_version (packageJson pkg))
            (after_publish_command script w) with
    | (w3, inr _) => (w3, inr (Published [to_published pkg]))
    | (w3, inl e) => (w3, inl e)
    end
  /\ (created_releases (runPublish getChangelogEntry script w).1
      <= created_releases w + 1)%nat
  /\ created_releases
       (runPublish (fun _ _ => Some (lit "notes")) (lit "yarn release") root_world).1
     = 1%nat.
Proof.
  intros Hw Hm. split; [by apply (runPublish_root_marker _ _ _ others)|].
  split; [|by vm_compute].
  rewrite (runPublish_root_marker _ _ _ _ Hw Hm), createRelease_run.
  pose proof (created_releases_after_publish_command script w) as Hc.
  destruct (files _ !! _) as [[changelog|code]|]; cbn [fst]; [| |lia].
  - destruct (getChangelogEntry _ _); cbn [fst]; [|lia].
    unfold repos_createRelease. cbn [fst].
    rewrite created_releases_add_event. cbn [is_create_release].
    unfold created_releases in *. cbn [events set_releases]. lia.
  - destruct (bool_decide _); cbn [fst]; lia.
Qed.

(** C10: in the path for one package, when the output holds a marker
    line and the changelog file of the package does not exist, no
    release is created (the host and the list of created releases stay
    as they were, and nothing is thrown), and [runPublish] still
    returns published: true with the name and the version of the
    package. *)
Theorem C10_missing_changelog (script : str) (w : World) (pkg : Package)
    (others : list Package) :
  workspace w = (pkg :: others, lit "root") ->
  existsb marker_line (split_lines (publish_stdout script w)) = true ->
  files (after_publish_command script w)
    !! path_join (dir pkg) (lit "CHANGELOG.md") = None ->
  runPublish getChangelogEntry script w
  = (after_publish_command script w,
     inr (Published [MkPublished (pkg_name (packageJson pkg))
                       (pkg_version (packageJson pkg))]))
  /\ releases (runPublish getChangelogEntry script w).1 = releases w
  /\ created_releases (runPublish getChangelogEntry script w).1
     = created_releases w.
Proof.
  intros Hw Hm Hf.
  assert (Hr : runPublish getChangelogEntry script w
               = (after_publish_command script w,
                  inr (Published [to_published pkg]))).
  { rewrite (runPublish_root_marker _ _ _ _ Hw Hm), createRelease_run.
    by rewrite Hf. }
  split; [exact Hr|]. rewrite Hr. cbn [fst]. split; [reflexivity|].
  apply created_releases_after_publish_command.
Qed.

(** C4 (amended): in a workspace of the kind [root], [runPublish] fails
    with the error [No package found] exactly when the workspace holds
    no package (after it ran the publish command and pushed the tags);
    with one package or more it does not fail on their number, and the
    package it works on is the first one. *)
Theorem C4_no_package (script : str) (w : World) :
  bool_decide ((workspace w).2 = lit "root") = true ->
  ((workspace w).1 = [] ->
     runPublish getChangelogEntry script w
     = (after_publish_command script w, inl (Error no_package_message)))
  /\ (forall pkg others, (workspace w).1 = pkg :: others ->
        (runPublish getChangelogEntry script w).2 <> inl (Error no_package_message)
        /\ forall l, (runPublish getChangelogEntry script w).2 = inr (Published l) ->
              l = [to_published pkg]).
Proof.
  intros Ht. apply bool_decide_eq_true_1 in Ht.
  rewrite runPublish_run, Ht. split.
  - intros ->. by rewrite released_packages_root.
  - intros pkg others ->. rewrite released_packages_root, root_loop_run.
    destruct (existsb marker_line _).
    + rewrite createRelease_run.
      destruct (files _ !! _) as [[changelog|code]|]; cbn [snd].
      * destruct (getChangelogEntry _ _) as [notes|]; cbn [snd].
        -- split; [done|]. by intros l [= <-].
        -- split; [|done]. intros H. by injection H.
      * destruct (bool_decide _); cbn [snd].
        -- split; [done|]. by intros l [= <-].
        -- split; done.
      * split; [done|]. by intros l [= <-].
    + cbn [snd]. split; done.
Qed.

End RootProofs.

(** C4, as stated, fails: a workspace of the kind [root] with two
    packages makes [runPublish] return, here with nothing published,
    and not fail. *)
Lemma C4_two_packages_no_error :
  (workspace two_package_root_world).2 = lit "root"
  /\ length (workspace two_package_root_world).1 = 2%nat
  /\ (runPublish (fun _ _ => None) (lit "yarn release") two_package_root_world).2
     = inr NotPublished.
Proof. by vm_compute. Qed.

Lemma C4_no_package_witness :
  bool_decide ((workspace (sample_world ([], lit "root") [] ∅)).2 = lit "root") = true
  /\ runPublish (fun _ _ => None) (lit "yarn release") (sample_world ([], lit "root") [] ∅)
     = (after_publish_command (lit "yarn release") (sample_world ([], lit "root") [] ∅),
        inl (Error no_package_message)).
Proof.
  split; [reflexivity|].
  apply (C4_no_package (fun _ _ => None) (lit "yarn release")
           (sample_world ([], lit "root") [] ∅)); reflexivity.
Defined.

Lemma C9_single_release_witness :
  workspace root_world = (pkg_a :: [], lit "root")
  /\ existsb marker_line (split_lines (publish_stdout (lit "yarn release") root_world)) = true
  /\ (created_releases
        (runPublish (fun _ _ => Some (lit "notes")) (lit "yarn release") root_world).1
      <= created_releases root_world + 1)%nat.
Proof.
  split; [reflexivity|]. split; [reflexivity|].
  apply (C9_single_release (fun _ _ => Some (lit "notes")) (lit "yarn release")
           root_world pkg_a []); reflexivity.
Defined.

Lemma C10_missing_changelog_witness :
  workspace root_world_no_changelog = (pkg_a :: [], lit "root")
  /\ existsb marker_line
       (split_lines (publish_stdout (lit "yarn release") root_world_no_changelog)) = true
  /\ files (after_publish_command (lit "yarn release") root_world_no_changelog)
       !! path_join (dir pkg_a) (lit "CHANGELOG.md") = None
  /\ runPublish (fun _ _ => Some (lit "notes")) (lit "yarn release") root_world_no_changelog
     = (after_publish_command (lit "yarn release") root_world_no_changelog,
        inr (Published [MkPublished (lit "pkg-a") (lit "1.2.0")])).
Proof.
  split; [reflexivity|]. split; [reflexivity|]. split; [reflexivity|].
  apply (C10_missing_changelog (fun _ _ => Some (lit "notes")) (lit "yarn release")
           root_world_no_changelog pkg_a []); reflexivity.
Defined.

(** ** The commit locator *)

Lemma locator_unfold w :
  getLatestChangesetVersionCommit w =
  match locator_round w with
  | (w1, inl e) => (w1, inl e)
  | (w1, inr (Some r)) => (w1, inr r)
  | (w1, inr None) => getLatestChangesetVersionCommit w1
  end.
Proof.
  simp getLatestChangesetVersionCommit.
  generalize (inspect (locator_round w)).
  intros [[w1 [e|[r|]]] H];
    unfold getLatestChangesetVersionCommit_unfold_clause_1; by rewrite H.
Qed.

Lemma same_clone_refl w : same_clone w w.
Proof. by repeat split. Qed.

Lemma stdout_shallow_query w :
  command_stdout w git shallow_query
  = (if old_git w then lit "--is-shallow-repository"
     else if shallow w then lit "true" else lit "false") ++ [LF].
Proof.
  unfold command_stdout.
  change (bool_decide (git = git) && list_eqb shallow_query deletion_query) with false.
  change (bool_decide (git = git) && list_eqb shallow_query shallow_query) with true.
  reflexivity.
Qed.

Lemma stdout_deletion_query w :
  command_stdout w git deletion_query = deletion_commit w (depth w).
Proof.
  unfold command_stdout.
  change (bool_decide (git = git) && list_eqb deletion_query deletion_query) with true.
  reflexivity.
Qed.

(** [isRepoShallow] answers whether the clone is shallow. *)
Lemma isRepoShallow_run w :
  exists w', isRepoShallow w = (w', inr (shallow w)) /\ same_clone w w'
             /\ events w' = events w ++ Exec git shallow_query
                  :: (if old_git w then [Exec git [lit "rev-parse"; lit "--git-dir"]]
                      else []).
Proof.
  unfold isRepoShallow. rewrite bind_run. unfold execWithOutput at 1.
  rewrite stdout_shallow_query.
  destruct (old_git w) eqn:Eo.
  - change (bool_decide (trim (lit "--is-shallow-repository" ++ [LF])
                         = lit "--is-shallow-repository")) with true.
    cbv iota. rewrite bind_run. unfold execWithOutput, ask.
    eexists. split; [reflexivity|]. split; [by repeat split|].
    cbn [events add_event set_files]. by rewrite <- app_assoc.
  - destruct (shallow w) eqn:Es.
    + change (bool_decide (trim (lit "true" ++ [LF]) = lit "--is-shallow-repository"))
        with false.
      change (bool_decide (trim (lit "true" ++ [LF]) = lit "true")) with true.
      eexists. split; [reflexivity|]. split; [by repeat split|]. reflexivity.
    + change (bool_decide (trim (lit "false" ++ [LF]) = lit "--is-shallow-repository"))
        with false.
      change (bool_decide (trim (lit "false" ++ [LF]) = lit "true")) with false.
      eexists. split; [reflexivity|]. split; [by repeat split|]. reflexivity.
Qed.

(** One round of the loop. *)
Lemma locator_round_run w :
  exists w1,
    same_clone w w1 /\ events w1 = events w ++ query_events w
    /\ if negb (bool_decide (trim (deletion_commit w (depth w)) = [])) then
         exists w0, locator_round w
                    = (w0, inr (Some (Some (trim (deletion_commit w (depth w))))))
                    /\ same_clone w w0
                    /\ events w0 = events w ++ [Exec git deletion_query]
       else if shallow w then
         exists w2, locator_round w = (w2, inr None)
                    /\ history_len w2 = history_len w
                    /\ depth w2 = ((depth w + 50) `min` history_len w)%nat
                    /\ deletion_commit w2 = deletion_commit w
                    /\ old_git w2 = old_git w
                    /\ events w2 = events w1 ++ [deepen_event]
       else locator_round w = (w1, inr (Some None)).
Proof.
  set (wq := add_event (Exec git deletion_query)
               (set_files (files_after w git deletion_query (files w)) w)).
  destruct (isRepoShallow_run wq) as (w1 & Hs & Hc & He).
  assert (Hwq : same_clone w wq) by by repeat split.
  assert (Hw1 : same_clone w w1).
  { destruct Hc as (H1 & H2 & H3 & H4).
    repeat split; [rewrite H1|rewrite H2|rewrite H3|rewrite H4]; reflexivity. }
  assert (Hsh : shallow wq = shallow w) by reflexivity.
  assert (Hround : locator_round w =
            if negb (bool_decide (trim (deletion_commit w (depth w)) = []))
            then (wq, inr (Some (Some (trim (deletion_commit w (depth w))))))
            else if shallow w
            then (set_depth ((depth w1 + 50) `min` history_len w1)
                    (add_event deepen_event
                       (set_files (files_after w1 git [lit "fetch"; lit "--deepen=50"]
                                     (files w1)) w1)),
                  inr None)
            else (w1, inr (Some None))).
  { unfold locator_round. rewrite bind_run. unfold execWithOutput at 1.
    rewrite stdout_deletion_query. fold wq.
    destruct (negb (bool_decide (trim (deletion_commit w (depth w)) = [])));
      [reflexivity|].
    rewrite bind_run, Hs, Hsh. destruct (shallow w); reflexivity. }
  exists w1. split; [exact Hw1|]. split.
  { rewrite He. unfold wq, query_events. cbn [events add_event set_files old_git].
    by rewrite <- app_assoc. }
  rewrite Hround.
  destruct (negb (bool_decide (trim (deletion_commit w (depth w)) = []))).
  - exists wq. split; [reflexivity|]. split; [exact Hwq|reflexivity].
  - destruct (shallow w); [|reflexivity].
    eexists. split; [reflexivity|].
    destruct Hw1 as (H1 & H2 & H3 & H4).
    cbn [history_len depth deletion_commit old_git events add_event set_files set_depth].
    by rewrite H1, H2.
Qed.

Lemma query_events_same w w' : old_git w' = old_git w -> query_events w' = query_events w.
Proof. unfold query_events. by intros ->. Qed.

Lemma rounds_events_same n w w' :
  old_git w' = old_git w -> rounds_events n w' = rounds_events n w.
Proof.
  intros H. induction n as [|n IH]; [done|]. cbn [rounds_events].
  by rewrite IH, (query_events_same _ _ H).
Qed.

(** The loop ends after some number of deepenings, with the commit found
    at the depth reached or with none on a clone that is full. *)
Lemma locator_terminates (k : nat) : forall w,
  (history_len w - depth w <= k)%nat ->
  exists n w' r,
    getLatestChangesetVersionCommit w = (w', inr r)
    /\ depth w' = depth_after n (depth w) (history_len w)
    /\ events w'
       = events w ++ rounds_events n w
         ++ match r with
            | Some _ => [Exec git deletion_query]
            | None => query_events w
            end
    /\ (forall i, (i < n)%nat ->
          trim (deletion_commit w (depth_after i (depth w) (history_len w))) = []
          /\ (depth_after i (depth w) (history_len w) < history_len w)%nat)
    /\ (r = Some (trim (deletion_commit w (depth_after n (depth w) (history_len w))))
          /\ trim (deletion_commit w (depth_after n (depth w) (history_len w))) <> []
        \/ r = None
           /\ trim (deletion_commit w (depth_after n (depth w) (history_len w))) = []
           /\ (history_len w <= depth_after n (depth w) (history_len w))%nat).
Proof.
  induction k as [k IH] using lt_wf_ind. intros w Hk.
  rewrite locator_unfold.
  destruct (locator_round_run w) as (w1 & Hw1 & He1 & Hcase).
  destruct (bool_decide (trim (deletion_commit w (depth w)) = [])) eqn:Em;
    cbn [negb] in Hcase.
  - apply bool_decide_eq_true_1 in Em.
    destruct (shallow w) eqn:Esh.
    + destruct Hcase as (w2 & -> & Hh & Hd & Hdc & Hog & He2).
      apply Nat.ltb_lt in Esh.
      destruct (IH (history_len w2 - depth w2)%nat ltac:(lia) w2 ltac:(lia))
        as (n & w' & r & Hrun & Hdep & Hev & Hall & Hend).
      exists (S n), w', r. rewrite Hrun. cbn [depth_after rounds_events].
      rewrite Hh, Hd, Hdc in *. split; [done|]. split; [done|]. split; [|split].
      * rewrite Hev, He2, He1, (rounds_events_same _ _ _ Hog), (query_events_same _ _ Hog).
        rewrite <- !app_assoc. cbn [app]. by rewrite <- ?app_assoc.
      * intros [|i] Hi; cbn [depth_after]; [by split|]. apply Hall. lia.
      * exact Hend.
    + rewrite Hcase. exists 0%nat, w1, None. cbn [depth_after rounds_events app].
      destruct Hw1 as (_ & Hd & _ & _). split; [done|]. split; [done|].
      split; [done|]. split; [intros i Hi; lia|]. right.
      apply Nat.ltb_ge in Esh. by repeat split.
  - apply bool_decide_eq_false_1 in Em.
    destruct Hcase as (w0 & -> & (_ & Hd & _ & _) & He0).
    exists 0%nat, w0, (Some (trim (deletion_commit w (depth w)))).
    cbn [depth_after rounds_events app]. split; [done|]. split; [done|].
    split; [done|]. split; [intros i Hi; lia|]. by left.
Qed.

(** C8: the commit locator.  On a full clone in which the deletion query
    finds nothing it returns none and does not deepen: the depth is as
    before and the only commands run are the queries.  On a shallow
    clone in which the query finds nothing it deepens by 50 commits and
    does the same again on the deepened clone.  The loop ends: after
    some number [n] of such rounds, each one run only because the query
    was empty on a clone still shallow, it returns the commit the query
    finds at the depth reached, or none on a clone that has become
    full.  (The clone is the model of [World]: it is shallow while it
    holds less than the history, and a deepening adds 50 commits up to
    the full history.) *)
Theorem C8_locator (w : World) :
  (shallow w = false -> trim (deletion_commit w (depth w)) = [] ->
     exists w', getLatestChangesetVersionCommit w = (w', inr None)
                /\ depth w' = depth w
                /\ events w' = events w ++ query_events w)
  /\ (shallow w = true -> trim (deletion_commit w (depth w)) = [] ->
        exists w2, getLatestChangesetVersionCommit w
                   = getLatestChangesetVersionCommit w2
                   /\ history_len w2 = history_len w
                   /\ depth w2 = ((depth w + 50) `min` history_len w)%nat
                   /\ deletion_commit w2 = deletion_commit w
                   /\ events w2 = events w ++ query_events w ++ [deepen_event])
  /\ exists n w' r,
       getLatestChangesetVersionCommit w = (w', inr r)
       /\ depth w' = depth_after n (depth w) (history_len w)
       /\ events w'
          = events w ++ rounds_events n w
            ++ match r with
               | Some _ => [Exec git deletion_query]
               | None => query_events w
               end
       /\ (forall i, (i < n)%nat ->
             trim (deletion_commit w (depth_after i (depth w) (history_len w))) = []
             /\ (depth_after i (depth w) (history_len w) < history_len w)%nat)
       /\ (r = Some (trim (deletion_commit w (depth_after n (depth w) (history_len w))))
             /\ trim (deletion_commit w (depth_after n (depth w) (history_len w))) <> []
           \/ r = None
              /\ trim (deletion_commit w (depth_after n (depth w) (history_len w))) = []
              /\ (history_len w <= depth_after n (depth w) (history_len w))%nat).
Proof.
  split; [|split].
  - intros Hs Hm. rewrite locator_unfold.
    destruct (locator_round_run w) as (w1 & Hw1 & He1 & Hcase).
    rewrite Hm, Hs in Hcase. rewrite bool_decide_eq_true_2 in Hcase by done.
    cbn [negb] in Hcase. rewrite Hcase. exists w1.
    destruct Hw1 as (_ & Hd & _ & _). by repeat split.
  - intros Hs Hm. rewrite locator_unfold.
    destruct (locator_round_run w) as (w1 & Hw1 & He1 & Hcase).
    rewrite Hm, Hs in Hcase. rewrite bool_decide_eq_true_2 in Hcase by done.
    cbn [negb] in Hcase. destruct Hcase as (w2 & -> & Hh & Hd & Hdc & Hog & He2).
    exists w2. repeat split; try done. by rewrite He2, He1, <- app_assoc.
  - by apply (locator_terminates (history_len w - depth w)).
Qed.

(** ** The checksum guard of [runVersion] *)

Lemma keeps_releases_ret {A} (x : A) : keeps_releases (mret x).
Proof. by intros w w1 r [= <- _]. Qed.

Lemma keeps_releases_bind {A B} (m : M A) (f : A -> M B) :
  keeps_releases m -> (forall x, keeps_releases (f x)) -> keeps_releases (m ≫= f).
Proof.
  intros Hm Hf w w1 r. rewrite bind_run.
  destruct (m w) as [w0 [e|x]] eqn:E.
  - intros [= <- _]. by apply (Hm _ _ _ E).
  - intros H. rewrite (Hf _ _ _ _ H). by apply (Hm _ _ _ E).
Qed.

Lemma keeps_releases_throw {A} e : keeps_releases (throw e : M A).
Proof. by intros w w1 r [= <- _]. Qed.

Lemma keeps_releases_ask {A} (f : World -> A) : keeps_releases (ask f).
Proof. by intros w w1 r [= <- _]. Qed.

Lemma keeps_releases_lift {A} (x : exn + A) : keeps_releases (lift x).
Proof. by intros w w1 r [= <- _]. Qed.

Lemma keeps_releases_exec cmd args : keeps_releases (exec_command cmd args).
Proof. by intros w w1 r [= <- _]. Qed.

Lemma keeps_releases_execWithOutput cmd args :
  keeps_releases (execWithOutput cmd args).
Proof. by intros w w1 r [= <- _]. Qed.

Lemma keeps_releases_readFile path : keeps_releases (readFile path).
Proof.
  intros w w1 r. unfold readFile.
  destruct (files w !! path) as [[?|?]|]; by intros [= <- _].
Qed.

Lemma keeps_releases_unlink path : keeps_releases (unlink path).
Proof.
  intros w w1 r. unfold unlink.
  destruct (files w !! path) as [[?|?]|]; by intros [= <- _].
Qed.

Lemma keeps_releases_emit e : keeps_releases (emit e).
Proof. by intros w w1 r [= <- _]. Qed.

Create HintDb frame.

#[local] Hint Resolve keeps_releases_ret keeps_releases_throw keeps_releases_ask
  keeps_releases_lift keeps_releases_exec keeps_releases_execWithOutput
  keeps_releases_readFile keeps_releases_unlink keeps_releases_emit : frame.

Ltac frame :=
  repeat first
    [ solve [eauto with frame]
    | progress cbv zeta
    | apply keeps_releases_bind; [|intros ?]
    | match goal with
      | |- keeps_releases (let '(_, _) := ?x in _) => destruct x
      | |- keeps_releases (if ?b then _ else _) => destruct b
      | |- keeps_releases (match ?x with _ => _ end) => destruct x
      end ].

Lemma keeps_releases_switch branch : keeps_releases (switchToMaybeExistingBranch branch).
Proof. unfold switchToMaybeExistingBranch. frame. Qed.

Lemma keeps_releases_checkIfClean : keeps_releases checkIfClean.
Proof. unfold checkIfClean. frame. Qed.

Lemma keeps_releases_commitAll msg : keeps_releases (commitAll msg).
Proof. unfold commitAll. frame. Qed.

Lemma keeps_releases_requireChangesetsCliPkgJson cwd :
  keeps_releases (requireChangesetsCliPkgJson cwd).
Proof.
  intros w w1 r. unfold requireChangesetsCliPkgJson, try_catch, require_cli.
  destruct (changesets_cli w) as [e|x]; [destruct (bool_decide _)|];
    by intros [= <- _].
Qed.

Lemma keeps_releases_run_version_command script cwd :
  keeps_releases (run_version_command script cwd).
Proof.
  unfold run_version_command.
  pose proof keeps_releases_requireChangesetsCliPkgJson. frame.
Qed.

(** Up to the push of the branch [runVersion] does not touch the
    releases of the host. *)
Lemma keeps_releases_prepare ctx script cwd prTitle commitMessage hasPublishScript :
  keeps_releases
    (prepare_version ctx script cwd prTitle commitMessage hasPublishScript).
Proof.
  unfold prepare_version, getLatestChangelogEntry, reset, push.
  pose proof keeps_releases_switch. pose proof keeps_releases_checkIfClean.
  pose proof keeps_releases_commitAll. pose proof keeps_releases_run_version_command.
  frame.
Qed.
Section VersionProofs.

Variable md5 : str -> str.

(** The checksum guard on a pull request whose frontmatter holds a
    draft id other than 0 and a checksum that is not empty. *)
Lemma existing_pull_body_run pull entry body id ck r w :
  getPullFrontmatterData (default [] (pull_body pull))
  = Some (MkFrontmatter (Some id) (Some ck)) ->
  id <> 0%Z -> ck <> [] ->
  releases w !! id = Some r ->
  existing_pull_body md5 pull entry body w =
  if bool_decide (md5 (release_body r) = ck) then
    let r' := MkRelease id (lit "v" ++ version entry) (lit "v" ++ version entry)
                (content entry) true (prerelease r) in
    (add_event (UpdateRelease r')
       (set_releases (<[id := r']> (releases w)) (next_release_id w) w),
     inr (createPullFrontmatter id (md5 (content entry)) ++ [LF; LF] ++ body))
  else (w, inr (createPullFrontmatter id ck ++ [LF; LF] ++ body)).
Proof.
  intros Hfm Hid Hck Hr. unfold existing_pull_body. rewrite Hfm.
  apply Z.eqb_neq in Hid. rewrite Hid.
  rewrite (bool_decide_eq_false_2 (ck = [])) by done. cbn [orb].
  rewrite bind_run. unfold repos_getRelease. rewrite Hr.
  destruct (bool_decide (md5 (release_body r) = ck)); [|reflexivity].
  rewrite bind_run. unfold repos_updateRelease. rewrite Hr. reflexivity.
Qed.

(** C2 (amended): in [runVersion], when the open versioning pull
    request carries a draft id other than 0 and a checksum that is not
    empty, and the host holds the release of that id: if the digest of
    the body of the release equals the stored checksum, the release is
    overwritten with the content of the latest changelog entry and the
    frontmatter written to the pull request holds the digest of the new
    body; if it differs, the releases of the host stay as they are and
    the frontmatter written is the stored draft id and checksum.  (The
    draft id is a safe integer, below 2^53 in absolute value, which a
    number holds and prints exactly.  The first hypothesis says that
    the steps before went through and found the pull request.) *)
Theorem C2_checksum_guard (ctx : Context) (script : option str)
    (cwd prTitle commitMessage : str) (hasPublishScript : bool)
    (w w1 : World) (pull : Pull) (others : list Pull)
    (entry : ChangelogEntry) (prBody title : str)
    (id : Z) (ck : str) (r : Release) :
  prepare_version ctx script cwd prTitle commitMessage hasPublishScript w
  = (w1, inr (pull :: others, entry, prBody, title)) ->
  getPullFrontmatterData (default [] (pull_body pull))
  = Some (MkFrontmatter (Some id) (Some ck)) ->
  id <> 0%Z -> (Z.abs id < 2 ^ 53)%Z -> ck <> [] ->
  releases w !! id = Some r ->
  let run := runVersion md5 ctx script cwd prTitle commitMessage hasPublishScript w in
  let r' := MkRelease id (lit "v" ++ version entry) (lit "v" ++ version entry)
              (content entry) true (prerelease r) in
  (md5 (release_body r) = ck ->
     run.2 = inr tt
     /\ releases run.1 = <[id := r']> (releases w)
     /\ release_body r' = content entry
     /\ events run.1
        = events w1
          ++ [UpdateRelease r';
              UpdatePull (pull_number pull) title
                (createPullFrontmatter id (md5 (release_body r'))
                 ++ [LF; LF] ++ prBody)])
  /\ (md5 (release_body r) <> ck ->
        run.2 = inr tt
        /\ releases run.1 = releases w
        /\ events run.1
           = events w1
             ++ [UpdatePull (pull_number pull) title
                   (createPullFrontmatter id ck ++ [LF; LF] ++ prBody)]).
Proof.
  intros Hprep Hfm Hid _ Hck Hr run r'.
  pose proof (keeps_releases_prepare _ _ _ _ _ _ _ _ _ Hprep) as Hrel.
  assert (Hr1 : releases w1 !! id = Some r) by by rewrite Hrel.
  assert (Hrun : run = (reconcile_pull md5 ctx (pull :: others, entry, prBody, title)) w1).
  { unfold run, runVersion. by rewrite bind_run, Hprep. }
  unfold reconcile_pull in Hrun. rewrite bind_run in Hrun.
  rewrite (existing_pull_body_run _ _ _ _ _ _ _ Hfm Hid Hck Hr1) in Hrun.
  fold r' in Hrun. split; intros Hh.
  - rewrite bool_decide_eq_true_2 in Hrun by done. rewrite Hrun.
    cbn [fst snd pulls_update emit releases events add_event set_releases].
    rewrite Hrel. repeat split. by rewrite <- app_assoc.
  - rewrite bool_decide_eq_false_2 in Hrun by done. rewrite Hrun.
    cbn [fst snd pulls_update emit releases events add_event]. by repeat split.
Qed.

End VersionProofs.

(** C2, as stated, fails: the pull request body [blank_checksum_body]
    carries the draft id 5 and a checksum, the empty text, and the host
    holds the release 5, whose digest is not that checksum.  The claim
    has the stored draft id and checksum written back; [runVersion]
    leaves the release as it was, as the claim says, but writes a pull
    request body without frontmatter, because it takes an empty
    checksum (and a draft id of 0) as absent. *)
Lemma C2_empty_checksum_not_kept :
  getPullFrontmatterData blank_checksum_body
  = Some (MkFrontmatter (Some 5%Z) (Some []))
  /\ release_body <$> releases (version_world 5 blank_checksum_body) !! 5%Z
     = Some (lit "old notes")
  /\ demo_hash (lit "old notes") <> []
  /\ (demo_runVersion (version_world 5 blank_checksum_body)).2 = inr tt
  /\ release_body <$> releases (demo_runVersion (version_world 5 blank_checksum_body)).1 !! 5%Z
     = Some (lit "old notes")
  /\ (last_pull_body (demo_runVersion (version_world 5 blank_checksum_body)).1
      ≫= getPullFrontmatterData) = None.
Proof.
  split; [vm_compute; reflexivity|]. split; [vm_compute; reflexivity|].
  split; [vm_compute; discriminate|]. repeat split; vm_compute; reflexivity.
Qed.

Lemma C2_checksum_guard_witness :
  ((demo_runVersion (version_world 5 matching_body)).2 = inr tt
   /\ releases (demo_runVersion (version_world 5 matching_body)).1
      = <[5%Z := MkRelease 5 (lit "v1.1.0") (lit "v1.1.0") (lit "- new notes") true false]>
          (releases (version_world 5 matching_body)))
  /\ ((demo_runVersion (version_world 5 drifted_body)).2 = inr tt
      /\ releases (demo_runVersion (version_world 5 drifted_body)).1
         = releases (version_world 5 drifted_body)).
Proof.
  pose (entry := MkEntry (lit "1.1.0") (lit "- new notes")).
  pose (prBody := pull_text false (lit "main") None (lit "- new notes")).
  pose (r := MkRelease 5 (lit "v1.0.1") (lit "v1.0.1") (lit "old notes") true false).
  assert (H3 : 5%Z <> 0%Z) by lia.
  assert (H3' : (Z.abs 5 < 2 ^ 53)%Z) by reflexivity.
  split.
  - pose (w := version_world 5 matching_body).
    pose (pull := MkPull 900 7 (Some matching_body) None).
    pose (p := prepare_version demo_context (Some (lit "yarn version")) (lit ".")
                 (lit "Version Packages") (lit "Version Packages") false w).
    assert (H0 : p.2 = inr ([pull], entry, prBody, lit "Version Packages"))
      by (vm_compute; reflexivity).
    assert (H1 : p = (p.1, inr ([pull], entry, prBody, lit "Version Packages"))).
    { rewrite <- H0. apply surjective_pairing. }
    assert (H2 : getPullFrontmatterData (default [] (pull_body pull))
                 = Some (MkFrontmatter (Some 5%Z) (Some (demo_hash (lit "old notes")))))
      by (vm_compute; reflexivity).
    assert (H4 : demo_hash (lit "old notes") <> []) by (vm_compute; discriminate).
    assert (H5 : releases w !! 5%Z = Some r) by (vm_compute; reflexivity).
    pose proof (proj1 (C2_checksum_guard demo_hash demo_context
                (Some (lit "yarn version")) (lit ".") (lit "Version Packages")
                (lit "Version Packages") false
                w p.1 pull [] entry prBody (lit "Version Packages")
                5%Z (demo_hash (lit "old notes")) r H1 H2 H3 H3' H4 H5) eq_refl)
      as (Ha & Hb & _).
    split; [exact Ha|exact Hb].
  - pose (w := version_world 5 drifted_body).
    pose (pull := MkPull 900 7 (Some drifted_body) None).
    pose (p := prepare_version demo_context (Some (lit "yarn version")) (lit ".")
                 (lit "Version Packages") (lit "Version Packages") false w).
    assert (H0 : p.2 = inr ([pull], entry, prBody, lit "Version Packages"))
      by (vm_compute; reflexivity).
    assert (H1 : p = (p.1, inr ([pull], entry, prBody, lit "Version Packages"))).
    { rewrite <- H0. apply surjective_pairing. }
    assert (H2 : getPullFrontmatterData (default [] (pull_body pull))
                 = Some (MkFrontmatter (Some 5%Z) (Some (lit "ffff"))))
      by (vm_compute; reflexivity).
    assert (H4 : lit "ffff" <> []) by discriminate.
    assert (H5 : releases w !! 5%Z = Some r) by (vm_compute; reflexivity).
    assert (H6 : demo_hash (release_body r) <> lit "ffff")
      by (vm_compute; discriminate).
    pose proof (proj2 (C2_checksum_guard demo_hash demo_context
                (Some (lit "yarn version")) (lit ".") (lit "Version Packages")
                (lit "Version Packages") false
                w p.1 pull [] entry prBody (lit "Version Packages")
                5%Z (lit "ffff") r H1 H2 H3 H3' H4 H5) H6)
      as (Ha & Hb & _).
    split; [exact Ha|exact Hb].
Defined.
(** ** gitUtils.ts: further properties *)

Lemma includes_spec t s : includes t s = true <-> occurs_in t s.
Proof.
  unfold occurs_in. induction s as [|c s IH]; cbn [includes].
  - rewrite orb_false_r, starts_with_spec. split.
    + intros [u Hu]. exists [], u. done.
    + intros (pre & post & H). destruct pre; [|discriminate].
      exists post. done.
  - rewrite orb_true_iff, IH, starts_with_spec. split.
    + intros [[u Hu]|(pre & post & ->)].
      * exists [], u. done.
      * by exists (c :: pre), post.
    + intros (pre & post & H). destruct pre as [|d pre].
      * left. by exists post.
      * right. injection H as -> ->. by exists pre, post.
Qed.

Lemma switch_strict_run exit_code exit_error branch w :
  Strict.switchToMaybeExistingBranch exit_code exit_error branch w =
  if includes (lit "Switched to a new branch '" ++ branch ++ lit "'")
       (stderr_of w git [lit "checkout"; branch])
  then (exec_world git [lit "checkout"; branch] w, inr tt)
  else Strict.exec_command exit_code exit_error git [lit "checkout"; lit "-b"; branch]
         (exec_world git [lit "checkout"; branch] w).
Proof.
  unfold Strict.switchToMaybeExistingBranch. rewrite bind_run.
  unfold Strict.execWithOutput_ignoring at 1. cbv beta iota.
  by destruct (includes _ _).
Qed.

(** X3: [switchToMaybeExistingBranch] runs
    [git checkout <branch>] and goes on whatever exit code that command
    has.  When what the command wrote to stderr holds the text
    [Switched to a new branch '<branch>'], this is all it does.
    Otherwise it runs [git checkout -b <branch>] next, and fails exactly
    when that second command ends with an exit code other than 0, with
    the error that [exec] makes of the code.  When the second command
    ends with 0, the procedure is the one used in [runVersion]. *)
Theorem switch_branch_creates (exit_code : World -> str -> list str -> Z)
    (exit_error : str -> list str -> Z -> exn) (branch : str) (w : World) :
  (occurs_in (lit "Switched to a new branch '" ++ branch ++ lit "'")
     (stderr_of w git [lit "checkout"; branch]) ->
   Strict.switchToMaybeExistingBranch exit_code exit_error branch w
   = (exec_world git [lit "checkout"; branch] w, inr tt))
  /\ (~ occurs_in (lit "Switched to a new branch '" ++ branch ++ lit "'")
          (stderr_of w git [lit "checkout"; branch]) ->
      Strict.switchToMaybeExistingBranch exit_code exit_error branch w
      = (exec_world git [lit "checkout"; lit "-b"; branch]
           (exec_world git [lit "checkout"; branch] w),
         if (exit_code (exec_world git [lit "checkout"; branch] w) git
               [lit "checkout"; lit "-b"; branch] =? 0)%Z
         then inr tt
         else inl (exit_error git [lit "checkout"; lit "-b"; branch]
                     (exit_code (exec_world git [lit "checkout"; branch] w) git
                        [lit "checkout"; lit "-b"; branch]))))
  /\ (exit_code (exec_world git [lit "checkout"; branch] w) git
        [lit "checkout"; lit "-b"; branch] = 0%Z ->
      Strict.switchToMaybeExistingBranch exit_code exit_error branch w
      = switchToMaybeExistingBranch branch w).
Proof.
  rewrite switch_strict_run. split; [|split].
  - intros Hs. apply includes_spec in Hs. by rewrite Hs.
  - intros Hn. destruct (includes _ _) eqn:Ei.
    + apply includes_spec in Ei. by destruct Hn.
    + unfold Strict.exec_command. cbv zeta. by destruct (_ =? _)%Z.
  - intros H0. unfold switchToMaybeExistingBranch. rewrite bind_run.
    unfold execWithOutput at 1. cbv beta iota.
    destruct (includes _ _); cbn [negb]; [reflexivity|].
    unfold Strict.exec_command. cbv zeta. by rewrite H0.
Qed.

(** X5: when the deletion query finds a commit
    at the depth the clone has, [getLatestChangesetVersionCommit]
    returns its hash, trimmed, after that one command: it does not ask
    whether the clone is shallow and does not deepen. *)
Theorem locator_found_at_once (w : World) :
  trim (deletion_commit w (depth w)) <> [] ->
  exists w',
    getLatestChangesetVersionCommit w
    = (w', inr (Some (trim (deletion_commit w (depth w)))))
    /\ depth w' = depth w
    /\ events w' = events w ++ [Exec git deletion_query].
Proof.
  intros Hne. rewrite locator_unfold.
  destruct (locator_round_run w) as (w1 & _ & _ & Hcase).
  rewrite bool_decide_eq_false_2 in Hcase by done. cbn [negb] in Hcase.
  destruct Hcase as (w0 & -> & (_ & Hd & _) & He). by exists w0.
Qed.

Lemma depth_after_ge n : forall d h,
  ((d + 50 * n) `min` h <= depth_after n d h)%nat.
Proof.
  induction n as [|n IH]; intros d h; cbn [depth_after]; [lia|].
  specialize (IH ((d + 50) `min` h)%nat h). lia.
Qed.

Lemma deepenings_app w (l : list Event) :
  length (List.filter is_deepen (events w ++ l))
  = (deepenings w + length (List.filter is_deepen l))%nat.
Proof. unfold deepenings. by rewrite List.filter_app, length_app. Qed.

Lemma deepenings_query_events w : List.filter is_deepen (query_events w) = [].
Proof. unfold query_events. by destruct (old_git w). Qed.

Lemma deepenings_rounds n w :
  length (List.filter is_deepen (rounds_events n w)) = n.
Proof.
  induction n as [|n IH]; [done|]. cbn [rounds_events].
  rewrite List.filter_app, deepenings_query_events. cbn [app].
  change (List.filter is_deepen (deepen_event :: ?l))
    with (deepen_event :: List.filter is_deepen l).
  cbn [length]. by rewrite IH.
Qed.

(** X6: [getLatestChangesetVersionCommit]
    returns after at most one deepening for every 50 commits that the
    clone lacks (rounded up): on a clone of depth [d] in a history of
    [h] commits it runs [git fetch --deepen=50] at most
    [(h - d + 49) / 50] times, and not once on a full clone. *)
Theorem locator_deepenings_bound (w : World) :
  exists w' r,
    getLatestChangesetVersionCommit w = (w', inr r)
    /\ (deepenings w'
        <= deepenings w + (history_len w - depth w + 49) / 50)%nat.
Proof.
  destruct (locator_terminates (history_len w - depth w) w ltac:(lia))
    as (n & w' & r & Hrun & _ & Hev & Hall & _).
  exists w', r. split; [done|].
  unfold deepenings at 1. rewrite Hev, deepenings_app, List.filter_app, length_app.
  rewrite deepenings_rounds.
  assert (Hz : length (List.filter is_deepen
                 match r with
                 | Some _ => [Exec git deletion_query]
                 | None => query_events w
                 end) = 0%nat).
  { destruct r; [reflexivity|]. by rewrite deepenings_query_events. }
  rewrite Hz, Nat.add_0_r. apply Nat.add_le_mono_l.
  destruct n as [|n]; [lia|].
  destruct (Hall n ltac:(lia)) as [_ Hlt].
  pose proof (depth_after_ge n (depth w) (history_len w)) as Hge.
  assert (Hb : (50 * S n <= history_len w - depth w + 49)%nat) by lia.
  apply Nat.div_le_lower_bound; [discriminate|exact Hb].
Qed.

Lemma locator_found_at_once_witness :
  exists w',
    getLatestChangesetVersionCommit (promote_world ∅)
    = (w', inr (Some (trim (deletion_commit (promote_world ∅)
                              (depth (promote_world ∅))))))
    /\ depth w' = depth (promote_world ∅)
    /\ events w' = events (promote_world ∅) ++ [Exec git deletion_query].
Proof.
  apply (locator_found_at_once (promote_world ∅)). vm_compute. discriminate.
Defined.

Lemma switch_branch_creates_witness :
  Strict.switchToMaybeExistingBranch demo_exit_code demo_exit_error
    (lit "changeset-release/main") (sample_world ([], lit "root") [] ∅)
  = (exec_world git [lit "checkout"; lit "-b"; lit "changeset-release/main"]
       (exec_world git [lit "checkout"; lit "changeset-release/main"]
          (sample_world ([], lit "root") [] ∅)),
     inl (Error (lit "The process 'git' failed with exit code 128"))).
Proof.
  assert (H : ~ occurs_in (lit "Switched to a new branch '"
                           ++ lit "changeset-release/main" ++ lit "'")
                  (stderr_of (sample_world ([], lit "root") [] ∅) git
                     [lit "checkout"; lit "changeset-release/main"])).
  { intros H. apply includes_spec in H. vm_compute in H. discriminate. }
  exact (proj1 (proj2 (switch_branch_creates demo_exit_code demo_exit_error
                         (lit "changeset-release/main")
                         (sample_world ([], lit "root") [] ∅))) H).
Defined.

(** ** The matcher of the publish output, for every name *)

Lemma rmatch_Alt r1 r2 s k :
  rmatch (Alt r1 r2) s k =
  match rmatch r1 s k with
  | Some x => Some x
  | None => rmatch r2 s k
  end.
Proof. reflexivity. Qed.

(** A greedy run gives back what it read until the continuation
    accepts: the longest prefix of the run after which it does. *)
Lemma star_greedy_backtrack p k a : forall b pv cs x,
  Forall (fun c => p c = true) a ->
  k (MState (prev_after pv a) b cs) = Some x ->
  (forall b1 b2 pv', b = b1 ++ b2 -> b1 <> [] -> k (MState pv' b2 cs) = None) ->
  star_greedy p k pv (a ++ b) cs = Some x.
Proof.
  induction a as [|c a IH]; intros b pv cs x Ha Hk Hfail.
  - cbn [app]. rewrite prev_after_nil in Hk.
    destruct b as [|c t]; cbn [star_greedy]; [done|].
    destruct (p c); [|done].
    destruct (star_greedy p k (Some c) t cs) as [y|] eqn:Ey; [|done].
    exfalso.
    destruct (proj1 (star_greedy_Some p k t (Some c) cs)) as (a' & b' & -> & _ & Hs).
    { by rewrite Ey. }
    rewrite (Hfail (c :: a') b' _ eq_refl) in Hs by done.
    by destruct Hs.
  - apply Forall_cons in Ha as [Hc Ha]. cbn [app star_greedy]. rewrite Hc.
    rewrite prev_after_cons in Hk. by rewrite (IH b (Some c) cs x Ha Hk Hfail).
Qed.

Lemma newTagRegex_head pv c t k :
  (c =? chr "N") = false -> rmatch newTagRegex (MState pv (c :: t) []) k = None.
Proof.
  intros Hc. unfold newTagRegex. rewrite rmatch_Seq_cons, rmatch_Lit.
  change (lit "New tag:") with (chr "N" :: lit "ew tag:").
  cbn [starts_with]. by rewrite Hc.
Qed.

Lemma newTagRegex_skip pre u : forall pv idx,
  forallb (fun c => negb (c =? chr "N")) pre = true ->
  search newTagRegex pv (pre ++ u) idx
  = search newTagRegex (prev_after pv pre) u (idx + length pre).
Proof.
  induction pre as [|c pre IH]; intros pv idx Hpre.
  - cbn [app length]. by rewrite prev_after_nil, Nat.add_0_r.
  - cbn [forallb] in Hpre. apply andb_true_iff in Hpre as [Hc Hpre].
    apply negb_true_iff in Hc. cbn [app search].
    rewrite (newTagRegex_head _ _ _ _ Hc), IH by done.
    rewrite prev_after_cons. cbn [length]. f_equal. lia.
Qed.

Lemma forallb_Forall_iff {A} (p : A -> bool) l :
  forallb p l = true <-> Forall (fun c => p c = true) l.
Proof.
  rewrite forallb_forall, Forall_forall. split; intros H x Hx; apply H.
  - by apply list_elem_of_In.
  - by apply list_elem_of_In.
Qed.

(** The end of the pattern, [@([^\s]+)], on [@<version>] followed by
    nothing or by white space. *)
Lemma version_group pv ver rest_ cs :
  ver <> [] -> forallb is_not_space ver = true ->
  match rest_ with [] => true | c :: _ => is_space c end = true ->
  exists pv',
    rmatch (Seq [Lit (lit "@"); Grp 2 (Plus true (Chr is_not_space))])
      (MState pv (lit "@" ++ ver ++ rest_) cs) Some
    = Some (MState pv' rest_ ((2%nat, ver) :: cs)).
Proof.
  intros Hne Hver Hrest. apply forallb_Forall_iff in Hver.
  destruct ver as [|v0 ver]; [done|]. apply Forall_cons in Hver as [Hv0 Hver].
  rewrite rmatch_Seq_cons, rmatch_Lit.
  change (lit "@" ++ (v0 :: ver) ++ rest_) with (chr "@" :: v0 :: ver ++ rest_).
  change (lit "@") with [chr "@"]. cbn [starts_with length drop].
  rewrite N.eqb_refl. cbn [andb].
  rewrite rmatch_Seq_cons, rmatch_Grp, rmatch_Plus_greedy, Hv0.
  eexists. apply star_greedy_first.
  rewrite takeWhile_app_all, dropWhile_app_all by done.
  assert (Ht : takeWhile is_not_space rest_ = [] /\ dropWhile is_not_space rest_ = rest_).
  { destruct rest_ as [|c r]; [done|]. cbn [takeWhile dropWhile].
    unfold is_not_space at 1 3. by rewrite Hrest. }
  destruct Ht as [-> ->]. rewrite app_nil_r, rmatch_Seq_nil.
  unfold set_cap. cbn [prev rest caps].
  change (v0 :: ver ++ rest_) with ((v0 :: ver) ++ rest_).
  by rewrite consumed_app.
Qed.

Lemma search_found r pv u idx x :
  rmatch r (MState pv u []) Some = Some x ->
  search r pv u idx = Some (MkMatch idx (consumed (MState pv u []) x) (caps x)).
Proof. intros H. destruct u; cbn [search]; by rewrite H. Qed.

Lemma space_run sp u pv cs k x :
  sp <> [] -> forallb is_space sp = true ->
  match u with [] => True | c :: _ => is_space c = false end ->
  k (MState (last sp) u cs) = Some x ->
  rmatch (Plus true space) (MState pv (sp ++ u) cs) k = Some x.
Proof.
  intros Hne Hsp Hu Hk. apply forallb_Forall_iff in Hsp.
  destruct sp as [|c sp]; [done|]. apply Forall_cons in Hsp as [Hc Hsp].
  unfold space. cbn [app]. rewrite rmatch_Plus_greedy, Hc.
  apply star_greedy_first.
  rewrite takeWhile_app_all, dropWhile_app_all by done.
  assert (Ht : takeWhile is_space u = [] /\ dropWhile is_space u = u).
  { destruct u as [|d u]; [done|]. cbn [takeWhile dropWhile]. by rewrite Hu. }
  destruct Ht as [-> ->]. rewrite app_nil_r.
  replace (prev_after (Some c) sp) with (last (c :: sp)); [done|].
  unfold prev_after. rewrite last_cons. by destruct (last sp).
Qed.

Lemma is_name_char_spec c :
  is_name_char c = true ->
  is_space c = false /\ (c =? chr "/") = false /\ (c =? chr "@") = false.
Proof.
  unfold is_name_char, is_not_space, is_not_char.
  rewrite !andb_true_iff, !negb_true_iff. tauto.
Qed.

(** The pattern on [New tag:], white space, a name without scope, [@],
    a version. *)
Lemma bare_attempt pv sp name ver rest_ :
  sp <> [] -> forallb is_space sp = true ->
  name <> [] -> forallb is_name_char name = true ->
  ver <> [] -> forallb is_not_space ver = true ->
  forallb (is_not_char (chr "@")) (ver ++ rest_) = true ->
  space_or_end rest_ = true ->
  exists x,
    rmatch newTagRegex
      (MState pv (lit "New tag:" ++ sp ++ name ++ lit "@" ++ ver ++ rest_) []) Some
    = Some x
    /\ caps x = [(2%nat, ver); (1%nat, name)].
Proof.
  intros Hsp0 Hsp Hn0 Hname Hv0 Hver Hat Hrest.
  unfold newTagRegex. rewrite rmatch_Seq_cons, rmatch_Lit, starts_with_app.
  rewrite drop_app_length.
  destruct name as [|n0 name]; [done|].
  pose proof Hname as Hname'. cbn [forallb] in Hname'.
  apply andb_true_iff in Hname' as [Hn Hname'].
  apply is_name_char_spec in Hn as (Hns & Hnslash & Hnat).
  destruct (version_group (last (n0 :: name)) ver rest_ [(1%nat, n0 :: name)]
              Hv0 Hver Hrest) as (pv' & Hvg).
  exists (MState pv' rest_ [(2%nat, ver); (1%nat, n0 :: name)]). split; [|done].
  rewrite rmatch_Seq_cons.
  apply space_run; [done|done|done|].
  rewrite rmatch_Seq_cons, rmatch_Grp, rmatch_Alt.
  (* the alternative with a scope wants an [@] first *)
  rewrite rmatch_Seq_cons, rmatch_Lit.
  change (lit "@") with [chr "@"] at 1. cbn [app starts_with]. rewrite Hnat. cbn [andb].
  (* the alternative without scope *)
  rewrite rmatch_Plus_greedy. unfold is_not_char at 1. rewrite Hnslash. cbn [negb].
  apply star_greedy_backtrack.
  - apply forallb_Forall_iff in Hname'. eapply Forall_impl; [exact Hname'|].
    intros c Hc. apply is_name_char_spec in Hc as (_ & Hc & _).
    unfold is_not_char. by rewrite Hc.
  - unfold set_cap. cbn [prev rest caps].
    change (n0 :: name ++ lit "@" ++ ver ++ rest_)
      with ((n0 :: name) ++ lit "@" ++ ver ++ rest_).
    rewrite consumed_app.
    replace (prev_after (Some n0) name) with (last (n0 :: name)); [exact Hvg|].
    unfold prev_after. rewrite last_cons. by destruct (last name).
  - intros b1 b2 pv2 Hb Hb1. unfold set_cap. cbn [prev rest caps].
    rewrite rmatch_Seq_cons, rmatch_Lit.
    destruct b1 as [|c1 b1]; [done|].
    change (lit "@" ++ ver ++ rest_) with (chr "@" :: ver ++ rest_) in Hb.
    injection Hb as _ Hb. rewrite Hb in Hat.
    rewrite forallb_app in Hat. apply andb_true_iff in Hat as [_ Hat].
    destruct b2 as [|c2 b2]; [done|]. cbn [forallb] in Hat.
    apply andb_true_iff in Hat as [Hc2 _]. unfold is_not_char in Hc2.
    apply negb_true_iff in Hc2. change (lit "@") with [chr "@"].
    cbn [starts_with]. by rewrite Hc2.
Qed.

(** X9: on a line of the publish output that reports
    the tag of a package without scope, [<marker> <name>@<version>], the
    pattern of [runPublish] gives the name as its first group and the
    version as its second: the marker [New tag:] may come after any text
    without an [N], the name holds no white space, [/] or [@], the
    version holds no white space, and no [@] comes after the one that
    ends the name. *)
Theorem new_tag_bare_name (pre sp name ver rest_ : str) :
  forallb (fun c => negb (c =? chr "N")) pre = true ->
  sp <> [] -> forallb is_space sp = true ->
  name <> [] -> forallb is_name_char name = true ->
  ver <> [] -> forallb is_not_space ver = true ->
  forallb (is_not_char (chr "@")) (ver ++ rest_) = true ->
  space_or_end rest_ = true ->
  exists m,
    exec newTagRegex (tag_line pre sp name ver rest_) = Some m
    /\ group 1 m = Some name
    /\ group 2 m = Some ver.
Proof.
  intros Hpre Hsp0 Hsp Hn0 Hname Hv0 Hver Hat Hrest.
  unfold tag_line. rewrite exec_unfold, newTagRegex_skip by done.
  destruct (bare_attempt (prev_after None pre) sp name ver rest_)
    as (x & Hx & Hcaps); try done.
  rewrite (search_found _ _ _ _ _ Hx). eexists. split; [reflexivity|].
  unfold group. cbn [groups]. rewrite Hcaps. done.
Qed.

Lemma new_tag_bare_name_witness :
  exists m,
    exec newTagRegex
      (tag_line [0xD83E; 0xDD8B; 32; 32] (lit " ") (lit "pkg-a") (lit "1.2.0") [])
    = Some m
    /\ group 1 m = Some (lit "pkg-a")
    /\ group 2 m = Some (lit "1.2.0").
Proof.
  apply (new_tag_bare_name [0xD83E; 0xDD8B; 32; 32] (lit " ") (lit "pkg-a")
           (lit "1.2.0") []); (reflexivity || discriminate).
Defined.

Lemma class_run (p : char -> bool) a u pv cs k x :
  a <> [] -> forallb p a = true ->
  match u with [] => True | c :: _ => p c = false end ->
  k (MState (last a) u cs) = Some x ->
  rmatch (Plus true (Chr p)) (MState pv (a ++ u) cs) k = Some x.
Proof.
  intros Hne Ha Hu Hk. apply forallb_Forall_iff in Ha.
  destruct a as [|c a]; [done|]. apply Forall_cons in Ha as [Hc Ha].
  cbn [app]. rewrite rmatch_Plus_greedy, Hc.
  apply star_greedy_first.
  rewrite takeWhile_app_all, dropWhile_app_all by done.
  assert (Ht : takeWhile p u = [] /\ dropWhile p u = u).
  { destruct u as [|d u]; [done|]. cbn [takeWhile dropWhile]. by rewrite Hu. }
  destruct Ht as [-> ->]. rewrite app_nil_r.
  replace (prev_after (Some c) a) with (last (c :: a)); [done|].
  unfold prev_after. rewrite last_cons. by destruct (last a).
Qed.

(** The pattern on [New tag:], white space, a name with a scope, [@],
    a version. *)
Lemma scoped_attempt pv sp scope name ver rest_ :
  sp <> [] -> forallb is_space sp = true ->
  scope <> [] -> forallb (is_not_char (chr "/")) scope = true ->
  name <> [] -> forallb (is_not_char (chr "@")) name = true ->
  ver <> [] -> forallb is_not_space ver = true ->
  space_or_end rest_ = true ->
  exists x,
    rmatch newTagRegex
      (MState pv (lit "New tag:" ++ sp ++ (lit "@" ++ scope ++ lit "/" ++ name)
                  ++ lit "@" ++ ver ++ rest_) []) Some
    = Some x
    /\ caps x = [(2%nat, ver); (1%nat, lit "@" ++ scope ++ lit "/" ++ name)].
Proof.
  intros Hsp0 Hsp Hs0 Hscope Hn0 Hname Hv0 Hver Hrest.
  unfold newTagRegex. rewrite rmatch_Seq_cons, rmatch_Lit, starts_with_app.
  rewrite drop_app_length.
  destruct (version_group (last name) ver rest_
              [(1%nat, lit "@" ++ scope ++ lit "/" ++ name)] Hv0 Hver Hrest)
    as (pv' & Hvg).
  exists (MState pv' rest_ [(2%nat, ver); (1%nat, lit "@" ++ scope ++ lit "/" ++ name)]).
  split; [|done].
  rewrite rmatch_Seq_cons.
  apply space_run; [done|done|reflexivity|].
  rewrite rmatch_Seq_cons, rmatch_Grp, rmatch_Alt.
  set (s0 := MState (last sp)
               ((lit "@" ++ scope ++ lit "/" ++ name) ++ lit "@" ++ ver ++ rest_) []).
  assert (Hfirst :
    rmatch
      (Seq [Lit (lit "@"); Plus true (Chr (is_not_char (chr "/")));
            Lit (lit "/"); Plus true (Chr (is_not_char (chr "@")))]) s0
      (fun s1 =>
         rmatch (Seq [Lit (lit "@"); Grp 2 (Plus true (Chr is_not_space))])
           (set_cap 1 s0 s1) Some)
    = Some (MState pv' rest_
              [(2%nat, ver); (1%nat, lit "@" ++ scope ++ lit "/" ++ name)])).
  { unfold s0. rewrite <- !app_assoc.
    rewrite rmatch_Seq_cons, rmatch_Lit, starts_with_app, drop_app_length.
    rewrite rmatch_Seq_cons.
    apply class_run; [done|done|reflexivity|].
    rewrite rmatch_Seq_cons, rmatch_Lit, starts_with_app, drop_app_length.
    rewrite rmatch_Seq_cons.
    apply class_run; [done|done|reflexivity|].
    rewrite rmatch_Seq_nil. unfold set_cap. cbn [prev rest caps].
    replace (lit "@" ++ scope ++ lit "/" ++ name ++ lit "@" ++ ver ++ rest_)
      with ((lit "@" ++ scope ++ lit "/" ++ name) ++ lit "@" ++ ver ++ rest_)
      by by rewrite <- !app_assoc.
    rewrite consumed_app. exact Hvg. }
  by rewrite Hfirst.
Qed.

(** X10: on a line of the publish output that
    reports the tag of a package with a scope,
    [<marker> @<scope>/<name>@<version>], the pattern of [runPublish]
    gives [@<scope>/<name>] as its first group and the version as its
    second: the scope holds no [/], the name no [@], the version no
    white space. *)
Theorem new_tag_scoped_name (pre sp scope name ver rest_ : str) :
  forallb (fun c => negb (c =? chr "N")) pre = true ->
  sp <> [] -> forallb is_space sp = true ->
  scope <> [] -> forallb (is_not_char (chr "/")) scope = true ->
  name <> [] -> forallb (is_not_char (chr "@")) name = true ->
  ver <> [] -> forallb is_not_space ver = true ->
  space_or_end rest_ = true ->
  exists m,
    exec newTagRegex
      (tag_line pre sp (lit "@" ++ scope ++ lit "/" ++ name) ver rest_) = Some m
    /\ group 1 m = Some (lit "@" ++ scope ++ lit "/" ++ name)
    /\ group 2 m = Some ver.
Proof.
  intros Hpre Hsp0 Hsp Hs0 Hscope Hn0 Hname Hv0 Hver Hrest.
  unfold tag_line. rewrite exec_unfold, newTagRegex_skip by done.
  destruct (scoped_attempt (prev_after None pre) sp scope name ver rest_)
    as (x & Hx & Hcaps); try done.
  rewrite (search_found _ _ _ _ _ Hx). eexists. split; [reflexivity|].
  unfold group. cbn [groups]. rewrite Hcaps. done.
Qed.

Lemma new_tag_scoped_name_witness :
  exists m,
    exec newTagRegex
      (tag_line [] (lit "  ") (lit "@" ++ lit "scope" ++ lit "/" ++ lit "pkg-b")
         (lit "0.1.0") (lit " done"))
    = Some m
    /\ group 1 m = Some (lit "@" ++ lit "scope" ++ lit "/" ++ lit "pkg-b")
    /\ group 2 m = Some (lit "0.1.0").
Proof.
  apply (new_tag_scoped_name [] (lit "  ") (lit "scope") (lit "pkg-b")
           (lit "0.1.0") (lit " done")); (reflexivity || discriminate).
Defined.

(** ** run.ts: further properties of publishing *)

Lemma same_host_refl w : same_host w w.
Proof. by repeat split. Qed.

Lemma same_host_trans w1 w2 w3 : same_host w1 w2 -> same_host w2 w3 -> same_host w1 w3.
Proof.
  intros (H1 & H2 & H3 & H4) (H5 & H6 & H7 & H8).
  repeat split; congruence.
Qed.

Lemma same_host_exec w cmd args fs :
  same_host w (add_event (Exec cmd args) (set_files fs w)).
Proof.
  repeat split. unfold created_releases. cbn [events add_event set_files].
  rewrite List.filter_app. cbn [List.filter is_create_release]. by rewrite app_nil_r.
Qed.

Lemma same_host_depth w d : same_host w (set_depth d w).
Proof. by repeat split. Qed.

(** A procedure that leaves the host as it is. *)
Lemma same_host_bind {A B} (m : M A) (f : A -> M B) w w2 r :
  (forall w1 x, m w = (w1, x) -> same_host w w1) ->
  (forall w1 x w2 r, f x w1 = (w2, r) -> same_host w1 w2) ->
  (m ≫= f) w = (w2, r) -> same_host w w2.
Proof.
  intros Hm Hf. rewrite bind_run. destruct (m w) as [w1 [e|x]] eqn:Em.
  - intros [= <- <-]. by eapply Hm.
  - intros H. eapply same_host_trans; [by eapply Hm|by eapply Hf].
Qed.

Lemma same_host_execWithOutput cmd args w w1 x :
  execWithOutput cmd args w = (w1, x) -> same_host w w1.
Proof. intros [= <- <-]. apply same_host_exec. Qed.

Lemma same_host_exec_command cmd args w w1 x :
  exec_command cmd args w = (w1, x) -> same_host w w1.
Proof. intros [= <- <-]. apply same_host_exec. Qed.

Lemma same_host_isRepoShallow w w1 x :
  isRepoShallow w = (w1, x) -> same_host w w1.
Proof.
  unfold isRepoShallow. apply same_host_bind.
  - apply same_host_execWithOutput.
  - intros w0 [out err] w2 r. destruct (bool_decide _).
    + apply same_host_bind; [apply same_host_execWithOutput|].
      intros w3 _ w4 r' [= <- <-]. apply same_host_refl.
    + intros [= <- <-]. apply same_host_refl.
Qed.

Lemma same_host_locator_round w w1 x :
  locator_round w = (w1, x) -> same_host w w1.
Proof.
  unfold locator_round. apply same_host_bind.
  - apply same_host_execWithOutput.
  - intros w0 [out err] w2 r. destruct (negb _).
    + intros [= <- <-]. apply same_host_refl.
    + apply same_host_bind; [apply same_host_isRepoShallow|].
      intros w3 sh w4 r'. destruct (negb sh).
      * intros [= <- <-]. apply same_host_refl.
      * apply same_host_bind.
        -- intros w5 x5. unfold deepenCloneBy.
           apply same_host_bind; [apply same_host_exec_command|].
           intros w7 _ w6 r6 [= <- <-]. apply same_host_depth.
        -- intros w5 _ w6 r6 [= <- <-]. apply same_host_refl.
Qed.

(** The commit locator leaves the host as it is, however many rounds
    it runs. *)
Lemma same_host_locator (k : nat) : forall w,
  (history_len w - depth w <= k)%nat ->
  same_host w (getLatestChangesetVersionCommit w).1.
Proof.
  induction k as [k IH] using lt_wf_ind. intros w Hk.
  rewrite locator_unfold.
  destruct (locator_round w) as [w1 [e|[r|]]] eqn:Er; cbn [fst];
    try (by eapply same_host_locator_round).
  eapply same_host_trans; [by eapply same_host_locator_round|].
  destruct (locator_round_run w) as (w1' & _ & _ & Hcase).
  destruct (negb _).
  { destruct Hcase as (w0 & H0 & _). congruence. }
  destruct (shallow w) eqn:Es; [|congruence].
  destruct Hcase as (w2 & H2 & Hh & Hd & _).
  assert (w2 = w1) as -> by congruence.
  apply Nat.ltb_lt in Es.
  apply (IH (history_len w1 - depth w1)%nat); lia.
Qed.

Lemma same_host_after_publish_command script w :
  same_host w (after_publish_command script w).
Proof.
  unfold after_publish_command. cbv zeta.
  eapply same_host_trans; [|apply same_host_exec].
  repeat split. unfold created_releases. cbn [events add_event].
  rewrite List.filter_app. cbn [List.filter is_create_release]. by rewrite app_nil_r.
Qed.

Lemma created_releases_update r w rs n :
  created_releases (add_event (UpdateRelease r) (set_releases rs n w))
  = created_releases w.
Proof.
  unfold created_releases. cbn [events add_event set_releases].
  rewrite List.filter_app. cbn [List.filter is_create_release]. by rewrite app_nil_r.
Qed.

(** What the promotion does to the host: nothing, or it takes the draft
    flag off one release. *)
Lemma promote_draft_frame w :
  created_releases (promote_draft w).1 = created_releases w
  /\ (releases (promote_draft w).1 = releases w
      \/ exists id r, releases w !! id = Some r
                      /\ releases (promote_draft w).1
                         = <[id := promoted id r]> (releases w)).
Proof.
  pose proof (same_host_locator _ w (Nat.le_refl _)) as Hl.
  unfold promote_draft. rewrite bind_run.
  destruct (getLatestChangesetVersionCommit w) as [w1 [e|[commit|]]];
    cbn [fst] in Hl; destruct Hl as (Hr & Hn & Hp & Hc);
    try (split; [exact Hc|left; exact Hr]).
  destruct (bool_decide _); [split; [exact Hc|left; exact Hr]|].
  rewrite bind_run. unfold ask. cbv beta iota.
  destruct (select_pull _) as [pull|]; [|split; [exact Hc|left; exact Hr]].
  destruct (getPullFrontmatterData _) as [[[id|] ck]|];
    try (split; [exact Hc|left; exact Hr]).
  destruct (id =? 0)%Z; [split; [exact Hc|left; exact Hr]|].
  rewrite bind_run. unfold repos_updateRelease.
  destruct (releases w1 !! id) as [r|] eqn:Eid; [|split; [exact Hc|left; exact Hr]].
  cbv beta iota zeta. rewrite !ret_run. cbn [fst]. rewrite created_releases_update.
  split; [done|].
  right. exists id, r. rewrite <- Hr. split; [done|].
  cbn [releases add_event set_releases]. reflexivity.
Qed.

Section PublishMore.

Variable getChangelogEntry : str -> str -> option str.

(** X12: in a workspace of several
    packages [runPublish] creates no release, whatever the publish
    output says and whether it fails or not; all it may do to the
    releases of the host is take the draft flag off one of them. *)
Theorem multi_package_release_frame (script : str) (w : World) :
  bool_decide ((workspace w).2 = lit "root") = false ->
  created_releases (runPublish getChangelogEntry script w).1 = created_releases w
  /\ (releases (runPublish getChangelogEntry script w).1 = releases w
      \/ exists id r,
           releases w !! id = Some r
           /\ releases (runPublish getChangelogEntry script w).1
              = <[id := promoted id r]> (releases w)).
Proof.
  intros Ht. rewrite runPublish_run, released_packages_multi by done.
  destruct (same_host_after_publish_command script w) as (Hr & _ & _ & Hc).
  destruct (lookup_all _ _) as [n|[|p ps]]; cbn [fst];
    try (split; [done|by left]).
  destruct (promote_draft_frame (after_publish_command script w)) as [Hc' Hr'].
  rewrite Hr in Hr'. rewrite Hc in Hc'.
  destruct (promote_draft (after_publish_command script w)) as [w2 [e|u]];
    cbn [fst] in Hc', Hr' |- *; by split.
Qed.

(** When the deletion query finds a commit whose first pull request
    names a draft release, the promotion updates that release. *)
Lemma promote_draft_found w commit pull id ck :
  trim (deletion_commit w (depth w)) = commit -> commit <> [] ->
  select_pull (commit_pulls w commit) = Some pull ->
  getPullFrontmatterData (default [] (pull_body pull))
  = Some (MkFrontmatter (Some id) ck) ->
  id <> 0%Z ->
  exists w0,
    releases w0 = releases w
    /\ promote_draft w
       = match repos_updateRelease id false None w0 with
         | (w2, inr _) => (w2, inr tt)
         | (w2, inl e) => (w2, inl e)
         end.
Proof.
  intros Hcommit Hne Hsel Hfm Hid.
  pose proof (same_host_locator _ w (Nat.le_refl _)) as Hl.
  unfold promote_draft. rewrite bind_run.
  rewrite locator_unfold in Hl |- *.
  destruct (locator_round_run w) as (w1 & _ & _ & Hcase).
  rewrite Hcommit in Hcase. rewrite bool_decide_eq_false_2 in Hcase by done.
  cbn [negb] in Hcase. destruct Hcase as (w0 & H0 & _).
  rewrite H0 in Hl |- *. cbn [fst] in Hl. destruct Hl as (Hr & _ & Hp & _).
  exists w0. split; [done|].
  rewrite bool_decide_eq_false_2 by done.
  rewrite bind_run. unfold ask at 1. cbv beta iota.
  rewrite Hp, Hsel, Hfm.
  apply Z.eqb_neq in Hid. rewrite Hid. by rewrite bind_run.
Qed.

(** X14: in a workspace of several packages,
    when the publish output reports packages, the deletion query finds
    a commit and the first pull request of that commit carries a draft
    id other than 0 in its frontmatter, [runPublish] publishes the
    release of that id: it takes the draft flag off and leaves name,
    tag and body as they are.  The checksum of the frontmatter is not
    looked at, it may even be missing. *)
Theorem publish_promotes_draft (script : str) (w : World) (p : Package)
    (ps : list Package) (commit : str) (pull : Pull) (id : Z)
    (ck : option str) (r : Release) :
  bool_decide ((workspace w).2 = lit "root") = false ->
  lookup_all (packagesByName_of (workspace w).1)
    (reported_names (publish_stdout script w)) = inr (p :: ps) ->
  trim (deletion_commit w (depth w)) = commit -> commit <> [] ->
  select_pull (commit_pulls w commit) = Some pull ->
  getPullFrontmatterData (default [] (pull_body pull))
  = Some (MkFrontmatter (Some id) ck) ->
  id <> 0%Z ->
  releases w !! id = Some r ->
  (runPublish getChangelogEntry script w).2
  = inr (Published (map to_published (p :: ps)))
  /\ releases (runPublish getChangelogEntry script w).1
     = <[id := promoted id r]> (releases w).
Proof.
  intros Ht Hl Hcommit Hne Hsel Hfm Hid Hrel.
  rewrite runPublish_run, released_packages_multi, Hl by done.
  destruct (same_host_after_publish_command script w) as (Hr & _ & Hp & _).
  assert (H1 : trim (deletion_commit (after_publish_command script w)
                        (depth (after_publish_command script w))) = commit)
    by exact Hcommit.
  assert (H2 : select_pull (commit_pulls (after_publish_command script w) commit)
               = Some pull) by (rewrite Hp; exact Hsel).
  destruct (promote_draft_found _ commit pull id ck H1 Hne H2 Hfm Hid)
    as (w0 & Hr0 & ->).
  unfold repos_updateRelease. rewrite Hr0, Hr, Hrel. cbn [fst snd].
  split; [reflexivity|]. cbn [releases add_event set_releases]. reflexivity.
Qed.

(** X15: in the same situation, when
    the host holds no release of the id that the pull request names,
    [runPublish] fails with the error of the host, although the packages
    were published and their tags pushed. *)
Theorem publish_fails_without_release (script : str) (w : World) (p : Package)
    (ps : list Package) (commit : str) (pull : Pull) (id : Z)
    (ck : option str) :
  bool_decide ((workspace w).2 = lit "root") = false ->
  lookup_all (packagesByName_of (workspace w).1)
    (reported_names (publish_stdout script w)) = inr (p :: ps) ->
  trim (deletion_commit w (depth w)) = commit -> commit <> [] ->
  select_pull (commit_pulls w commit) = Some pull ->
  getPullFrontmatterData (default [] (pull_body pull))
  = Some (MkFrontmatter (Some id) ck) ->
  id <> 0%Z ->
  releases w !! id = None ->
  (runPublish getChangelogEntry script w).2 = inl HostError
  /\ releases (runPublish getChangelogEntry script w).1 = releases w.
Proof.
  intros Ht Hl Hcommit Hne Hsel Hfm Hid Hrel.
  rewrite runPublish_run, released_packages_multi, Hl by done.
  destruct (same_host_after_publish_command script w) as (Hr & _ & Hp & _).
  assert (H1 : trim (deletion_commit (after_publish_command script w)
                        (depth (after_publish_command script w))) = commit)
    by exact Hcommit.
  assert (H2 : select_pull (commit_pulls (after_publish_command script w) commit)
               = Some pull) by (rewrite Hp; exact Hsel).
  destruct (promote_draft_found _ commit pull id ck H1 Hne H2 Hfm Hid)
    as (w0 & Hr0 & ->).
  unfold repos_updateRelease. rewrite Hr0, Hr, Hrel. cbn [fst snd].
  split; [reflexivity|]. by rewrite Hr0, Hr.
Qed.

End PublishMore.

Lemma lookup_all_elem packages names ps :
  lookup_all (packagesByName_of packages) names = inr ps ->
  Forall (fun p => p ∈ packages) ps.
Proof.
  intros H. apply lookup_all_inr in H.
  induction H as [|n p names ps Hn _ IH]; constructor; [|done].
  rewrite packagesByName_lookup in Hn. apply last_Some in Hn as [l' Hl'].
  assert (Hin : p ∈ filter (fun q => pkg_name (packageJson q) = n) packages).
  { rewrite Hl'. apply elem_of_app. right. by apply list_elem_of_singleton. }
  by apply list_elem_of_filter in Hin as [_ Hin].
Qed.

Section PublishResults.

Variable getChangelogEntry : str -> str -> option str.

Lemma released_packages_elem packages tool stdout w w1 ps :
  released_packages getChangelogEntry packages tool stdout w = (w1, inr ps) ->
  Forall (fun p => p ∈ packages) ps.
Proof.
  destruct (bool_decide (tool = lit "root")) eqn:Et.
  - apply bool_decide_eq_true_1 in Et as ->. rewrite released_packages_root.
    destruct packages as [|pkg others]; [discriminate|].
    rewrite root_loop_run. destruct (existsb _ _).
    + destruct (createRelease _ _ _ _) as [w2 [e|u]]; [discriminate|].
      intros [= _ <-]. constructor; [|done]. by left.
    + by intros [= _ <-].
  - rewrite released_packages_multi by done.
    destruct (lookup_all _ _) as [n|ps0] eqn:El; [discriminate|].
    apply lookup_all_elem in El.
    destruct ps0 as [|p ps0]; [by intros [= _ <-]|].
    destruct (promote_draft w) as [w2 [e|u]]; [discriminate|].
    by intros [= _ <-].
Qed.

(** X11: when [runPublish] says that
    packages were published, the list it returns is not empty, and every
    entry of it is the name and the version of a package of the
    workspace. *)
Theorem published_from_workspace (script : str) (w : World)
    (l : list PublishedPackage) :
  (runPublish getChangelogEntry script w).2 = inr (Published l) ->
  l <> []
  /\ Forall (fun p => exists pkg, pkg ∈ (workspace w).1 /\ p = to_published pkg) l.
Proof.
  rewrite runPublish_run.
  destruct (released_packages _ _ _ _ _) as [w1 [e|ps]] eqn:Erp; cbn [snd];
    [discriminate|].
  apply released_packages_elem in Erp. unfold publish_result.
  destruct ps as [|p ps]; [discriminate|].
  rewrite bool_decide_eq_false_2 by done. cbn [negb]. intros [= <-].
  split; [done|]. change (Forall (fun q => exists pkg, pkg ∈ (workspace w).1
                                       /\ q = to_published pkg)
                            (map to_published (p :: ps))).
  apply Forall_fmap. eapply Forall_impl; [exact Erp|].
  intros pkg Hpkg. by exists pkg.
Qed.

(** X16: in a workspace of one package, when the
    publish output holds the marker and the changelog of the package
    has an entry for its version, [runPublish] creates one release: it
    gets the next id of the host, its name and its tag are [v] and the
    version, its body is the entry, it is no draft, and it is a
    prerelease exactly when the version holds a [-]. *)
Theorem root_release_created (script : str) (w : World) (pkg : Package)
    (others : list Package) (changelog notes : str) :
  workspace w = (pkg :: others, lit "root") ->
  existsb marker_line (split_lines (publish_stdout script w)) = true ->
  files (after_publish_command script w)
    !! path_join (dir pkg) (lit "CHANGELOG.md") = Some (Content changelog) ->
  getChangelogEntry changelog (pkg_version (packageJson pkg)) = Some notes ->
  let tag := lit "v" ++ pkg_version (packageJson pkg) in
  let r := MkRelease (next_release_id w) tag tag notes false
             (includes (lit "-") (pkg_version (packageJson pkg))) in
  (runPublish getChangelogEntry script w).2 = inr (Published [to_published pkg])
  /\ releases (runPublish getChangelogEntry script w).1
     = <[next_release_id w := r]> (releases w)
  /\ events (runPublish getChangelogEntry script w).1
     = events (after_publish_command script w) ++ [CreateRelease r]
  /\ (prerelease r = true <-> occurs_in (lit "-") (pkg_version (packageJson pkg))).
Proof.
  intros Hws Hm Hf Hn tag r.
  rewrite (runPublish_root_marker getChangelogEntry script w pkg others Hws Hm).
  rewrite createRelease_run, Hf, Hn. cbn [fst snd].
  destruct (same_host_after_publish_command script w) as (Hr & Hnx & _).
  unfold repos_createRelease. cbn [fst releases events add_event set_releases].
  rewrite Hr, Hnx. repeat split; try done.
  - apply includes_spec.
  - apply includes_spec.
Qed.

(** X17: in a workspace of one package, when the
    publish output holds the marker, [runPublish] fails, after the
    publish command and the push of the tags and without creating a
    release, if the changelog of the package has no entry for its
    version, with a message that names the package and the version,
    and if the changelog cannot be read for a reason other than that it
    does not exist, with that error. *)
Theorem root_changelog_errors (script : str) (w : World) (pkg : Package)
    (others : list Package) :
  workspace w = (pkg :: others, lit "root") ->
  existsb marker_line (split_lines (publish_stdout script w)) = true ->
  let changelog_file :=
    files (after_publish_command script w)
      !! path_join (dir pkg) (lit "CHANGELOG.md") in
  (forall changelog,
     changelog_file = Some (Content changelog) ->
     getChangelogEntry changelog (pkg_version (packageJson pkg)) = None ->
     runPublish getChangelogEntry script w
     = (after_publish_command script w,
        inl (Error (lit "Could not find changelog entry for "
                    ++ pkg_name (packageJson pkg) ++ lit "@"
                    ++ pkg_version (packageJson pkg)))))
  /\ (forall code,
        changelog_file = Some (Failing code) -> code <> lit "ENOENT" ->
        runPublish getChangelogEntry script w
        = (after_publish_command script w, inl (FsError code))).
Proof.
  intros Hws Hm changelog_file. unfold changelog_file.
  rewrite (runPublish_root_marker getChangelogEntry script w pkg others Hws Hm).
  rewrite createRelease_run. split.
  - intros changelog -> ->. reflexivity.
  - intros code -> Hc. by rewrite bool_decide_eq_false_2.
Qed.

(** X18: in a workspace of one package, when no
    line of the publish output holds the marker [New tag:],
    [runPublish] reports that nothing was published and does nothing
    beyond the publish command and the push of the tags. *)
Theorem root_without_marker (script : str) (w : World) (pkg : Package)
    (others : list Package) :
  workspace w = (pkg :: others, lit "root") ->
  existsb marker_line (split_lines (publish_stdout script w)) = false ->
  runPublish getChangelogEntry script w
  = (after_publish_command script w, inr NotPublished).
Proof.
  intros Hws Hm. rewrite runPublish_run, Hws. cbn [fst snd].
  by rewrite released_packages_root, root_loop_run, Hm.
Qed.

End PublishResults.

Section PublishNothing.

Variable getChangelogEntry : str -> str -> option str.

(** X13: in a workspace of several
    packages, when no line of the publish output reports a tag,
    [runPublish] says that nothing was published and stops after the
    publish command and the push of the tags: it does not look for the
    commit of the changesets and asks the host nothing. *)
Theorem multi_package_nothing_reported (script : str) (w : World) :
  bool_decide ((workspace w).2 = lit "root") = false ->
  reported_names (publish_stdout script w) = [] ->
  runPublish getChangelogEntry script w
  = (after_publish_command script w, inr NotPublished).
Proof.
  intros Ht Hn. rewrite runPublish_run, released_packages_multi, Hn by done.
  reflexivity.
Qed.

End PublishNothing.

Lemma multi_package_release_frame_witness :
  created_releases
    (runPublish (fun _ _ => None) (lit "yarn release") two_tags_world).1
  = created_releases two_tags_world.
Proof.
  apply (multi_package_release_frame (fun _ _ => None) (lit "yarn release")
           two_tags_world).
  reflexivity.
Defined.

Lemma publish_promotes_draft_witness :
  (runPublish (fun _ _ => None) (lit "yarn release")
     (promote_world (<[5%Z := draft_five]> ∅))).2
  = inr (Published (map to_published [pkg_a; pkg_b]))
  /\ releases
       (runPublish (fun _ _ => None) (lit "yarn release")
          (promote_world (<[5%Z := draft_five]> ∅))).1
     = <[5%Z := promoted 5 draft_five]>
         (releases (promote_world (<[5%Z := draft_five]> ∅))).
Proof.
  apply (publish_promotes_draft (fun _ _ => None) (lit "yarn release")
           (promote_world (<[5%Z := draft_five]> ∅)) pkg_a [pkg_b] (lit "abc1234")
           (MkPull 900 7 (Some drifted_body) (Some (lit "2023-01-01T00:00:00Z")))
           5%Z (Some (lit "ffff")) draft_five).
  - reflexivity.
  - vm_compute. reflexivity.
  - vm_compute. reflexivity.
  - discriminate.
  - vm_compute. reflexivity.
  - vm_compute. reflexivity.
  - lia.
  - vm_compute. reflexivity.
Defined.

Lemma publish_fails_without_release_witness :
  (runPublish (fun _ _ => None) (lit "yarn release") (promote_world ∅)).2
  = inl HostError
  /\ releases (runPublish (fun _ _ => None) (lit "yarn release") (promote_world ∅)).1
     = releases (promote_world ∅).
Proof.
  apply (publish_fails_without_release (fun _ _ => None) (lit "yarn release")
           (promote_world ∅) pkg_a [pkg_b] (lit "abc1234")
           (MkPull 900 7 (Some drifted_body) (Some (lit "2023-01-01T00:00:00Z")))
           5%Z (Some (lit "ffff"))).
  - reflexivity.
  - vm_compute. reflexivity.
  - vm_compute. reflexivity.
  - discriminate.
  - vm_compute. reflexivity.
  - vm_compute. reflexivity.
  - lia.
  - reflexivity.
Defined.

Lemma published_from_workspace_witness :
  [MkPublished (lit "pkg-a") (lit "1.2.0")] <> []
  /\ Forall (fun p => exists pkg, pkg ∈ (workspace root_world).1
                                  /\ p = to_published pkg)
       [MkPublished (lit "pkg-a") (lit "1.2.0")].
Proof.
  apply (published_from_workspace (fun _ _ => Some (lit "notes"))
           (lit "yarn release") root_world).
  vm_compute. reflexivity.
Defined.

Lemma root_release_created_witness :
  (runPublish (fun _ _ => Some (lit "notes")) (lit "yarn release") root_world).2
  = inr (Published [MkPublished (lit "pkg-a") (lit "1.2.0")])
  /\ releases
       (runPublish (fun _ _ => Some (lit "notes")) (lit "yarn release") root_world).1
     = <[1%Z := MkRelease 1 (lit "v1.2.0") (lit "v1.2.0") (lit "notes") false false]> ∅.
Proof.
  destruct (root_release_created (fun _ _ => Some (lit "notes")) (lit "yarn release")
              root_world pkg_a [] (lit "## 1.2.0") (lit "notes"))
    as (H1 & H2 & _); [reflexivity|reflexivity|reflexivity|reflexivity|].
  split; [exact H1|exact H2].
Defined.

Lemma root_changelog_errors_witness :
  runPublish (fun _ _ => None) (lit "yarn release") root_world
  = (after_publish_command (lit "yarn release") root_world,
     inl (Error (lit "Could not find changelog entry for pkg-a@1.2.0"))).
Proof.
  apply (proj1 (root_changelog_errors (fun _ _ => None) (lit "yarn release")
                  root_world pkg_a [] eq_refl eq_refl) (lit "## 1.2.0"));
    reflexivity.
Defined.

Lemma root_without_marker_witness :
  runPublish (fun _ _ => None) (lit "yarn release") two_package_root_world
  = (after_publish_command (lit "yarn release") two_package_root_world,
     inr NotPublished).
Proof.
  apply (root_without_marker (fun _ _ => None) (lit "yarn release")
           two_package_root_world pkg_a [pkg_b]); reflexivity.
Defined.

Lemma multi_package_nothing_reported_witness :
  runPublish (fun _ _ => None) (lit "yarn release")
    (sample_world ([pkg_a; pkg_b], lit "yarn") (lit "nothing to publish") ∅)
  = (after_publish_command (lit "yarn release")
       (sample_world ([pkg_a; pkg_b], lit "yarn") (lit "nothing to publish") ∅),
     inr NotPublished).
Proof.
  apply (multi_package_nothing_reported (fun _ _ => None) (lit "yarn release")
           (sample_world ([pkg_a; pkg_b], lit "yarn") (lit "nothing to publish") ∅));
    reflexivity.
Defined.

(** ** run.ts: further properties of versioning *)

Section Keeps.

Context {B : Type} (f : World -> B).
Hypothesis f_event : forall cmd args w, f (add_event (Exec cmd args) w) = f w.
Hypothesis f_unlink : forall path w, f (add_event (Unlink path) w) = f w.
Hypothesis f_files : forall fs w, f (set_files fs w) = f w.

Lemma keeps_ret {A} (x : A) : keeps f (mret x).
Proof. by intros w w1 r [= <- _]. Qed.

Lemma keeps_bind {A C} (m : M A) (k : A -> M C) :
  keeps f m -> (forall x, keeps f (k x)) -> keeps f (m ≫= k).
Proof.
  intros Hm Hk w w1 r. rewrite bind_run.
  destruct (m w) as [w0 [e|x]] eqn:E.
  - intros [= <- _]. by apply (Hm _ _ _ E).
  - intros H. rewrite (Hk _ _ _ _ H). by apply (Hm _ _ _ E).
Qed.

Lemma keeps_throw {A} e : keeps f (throw e : M A).
Proof. by intros w w1 r [= <- _]. Qed.

Lemma keeps_ask {A} (g : World -> A) : keeps f (ask g).
Proof. by intros w w1 r [= <- _]. Qed.

Lemma keeps_lift {A} (x : exn + A) : keeps f (lift x).
Proof. by intros w w1 r [= <- _]. Qed.

Lemma keeps_exec cmd args : keeps f (exec_command cmd args).
Proof. intros w w1 r [= <- _]. by rewrite f_event, f_files. Qed.

Lemma keeps_execWithOutput cmd args : keeps f (execWithOutput cmd args).
Proof. intros w w1 r [= <- _]. by rewrite f_event, f_files. Qed.

Lemma keeps_readFile path : keeps f (readFile path).
Proof.
  intros w w1 r. unfold readFile.
  destruct (files w !! path) as [[?|?]|]; by intros [= <- _].
Qed.

Lemma keeps_unlink path : keeps f (unlink path).
Proof.
  intros w w1 r. unfold unlink.
  destruct (files w !! path) as [[?|?]|]; intros [= <- _]; try done.
  by rewrite f_unlink, f_files.
Qed.

Lemma keeps_requireChangesetsCliPkgJson cwd :
  keeps f (requireChangesetsCliPkgJson cwd).
Proof.
  intros w w1 r. unfold requireChangesetsCliPkgJson, try_catch, require_cli.
  destruct (changesets_cli w) as [e|x]; [destruct (bool_decide _)|];
    by intros [= <- _].
Qed.

Ltac keeps_step :=
  repeat first
    [ apply keeps_ret | apply keeps_throw | apply keeps_ask | apply keeps_lift
    | apply keeps_exec | apply keeps_execWithOutput | apply keeps_readFile
    | apply keeps_unlink | apply keeps_requireChangesetsCliPkgJson
    | progress cbv zeta
    | apply keeps_bind; [|intros ?]
    | match goal with
      | |- keeps _ (let '(_, _) := ?x in _) => destruct x
      | |- keeps _ (if ?b then _ else _) => destruct b
      | |- keeps _ (match ?x with _ => _ end) => destruct x
      end ].

(** Up to the push of the versioning branch [runVersion] changes only
    the files, the clone and the log of commands. *)
Lemma keeps_prepare ctx script cwd prTitle commitMessage hasPublishScript :
  keeps f (prepare_version ctx script cwd prTitle commitMessage hasPublishScript).
Proof.
  unfold prepare_version, getLatestChangelogEntry, reset, push,
    switchToMaybeExistingBranch, checkIfClean, commitAll, run_version_command.
  keeps_step.
Qed.

End Keeps.

(** The encoded block, followed by a line feed, decodes to its fields. *)
Lemma decode_encoded (n : Z) (c tail : str) :
  forallb is_dot c = true -> trim c = c ->
  getPullFrontmatterData (createPullFrontmatter n c ++ [LF] ++ tail)
  = Some (MkFrontmatter (Some n) (Some c)).
Proof.
  intros Hdot Htrim. apply forallb_Forall in Hdot.
  unfold createPullFrontmatter.
  replace ((lit "---" ++ [LF] ++ lit "draft_id: " ++ number_to_string n ++ [LF]
            ++ lit "checksum: " ++ c ++ [LF] ++ lit "---") ++ [LF] ++ tail)
    with (lit "---" ++ [LF] ++ lit "draft_id:" ++ (chr " " :: number_to_string n)
          ++ [LF] ++ lit "checksum:" ++ (chr " " :: c) ++ [LF] ++ lit "---"
          ++ [LF] ++ tail).
  2:{ cbn [app lit]. rewrite <- !app_assoc. cbn [app]. rewrite <- !app_assoc.
      reflexivity. }
  rewrite decode_two_lines.
  - rewrite int_value_number, trim_leading_space by reflexivity.
    by rewrite Htrim.
  - constructor; [reflexivity|].
    eapply Forall_impl; [apply number_to_string_printable|].
    intros x Hx. by apply printable_is_dot.
  - discriminate.
  - by constructor.
  - discriminate.
Qed.

Lemma releases_add_event e w : releases (add_event e w) = releases w.
Proof. reflexivity. Qed.

Section VersionMore.

Variable md5 : str -> str.

Lemma runVersion_run ctx script cwd prTitle commitMessage hasPublishScript w w1 x :
  prepare_version ctx script cwd prTitle commitMessage hasPublishScript w
  = (w1, inr x) ->
  runVersion md5 ctx script cwd prTitle commitMessage hasPublishScript w
  = reconcile_pull md5 ctx x w1.
Proof. intros H. unfold runVersion. by rewrite bind_run, H. Qed.

Lemma prepare_host ctx script cwd prTitle commitMessage hasPublishScript w w1 x :
  prepare_version ctx script cwd prTitle commitMessage hasPublishScript w = (w1, x) ->
  releases w1 = releases w /\ next_release_id w1 = next_release_id w
  /\ host_events w1 = host_events w.
Proof.
  intros H. split; [|split].
  - by apply (keeps_prepare releases (fun _ _ _ => eq_refl) (fun _ _ => eq_refl)
                (fun _ _ => eq_refl) _ _ _ _ _ _ _ _ _ H).
  - by apply (keeps_prepare next_release_id (fun _ _ _ => eq_refl)
                (fun _ _ => eq_refl) (fun _ _ => eq_refl) _ _ _ _ _ _ _ _ _ H).
  - apply (keeps_prepare host_events) in H; [done|..].
    + intros cmd args w0. unfold host_events. cbn [events add_event].
      rewrite List.filter_app. cbn [List.filter is_host_event]. by rewrite app_nil_r.
    + intros path w0. unfold host_events. cbn [events add_event].
      rewrite List.filter_app. cbn [List.filter is_host_event]. by rewrite app_nil_r.
    + done.
Qed.

(** X19: when no versioning pull request is
    open, [runVersion] creates a draft release named and tagged [v] and
    the version of the latest changelog entry, with the entry as its
    body, and then opens a pull request from the versioning branch to
    the base branch whose body starts with a frontmatter block; that
    block decodes to the id of the new release and the digest of its
    body, so the next run can compare them.  (The digest is one line
    without white space at its ends, as a hex digest is; the id is below
    10^21 in absolute value, where a number prints as plain digits.) *)
Theorem version_opens_pull_request (ctx : Context) (script : option str)
    (cwd prTitle commitMessage : str) (hasPublishScript : bool)
    (w w1 : World) (entry : ChangelogEntry) (prBody title : str) :
  prepare_version ctx script cwd prTitle commitMessage hasPublishScript w
  = (w1, inr ([], entry, prBody, title)) ->
  (Z.abs (next_release_id w) < 10 ^ 21)%Z ->
  forallb is_dot (md5 (content entry)) = true ->
  trim (md5 (content entry)) = md5 (content entry) ->
  let run := runVersion md5 ctx script cwd prTitle commitMessage hasPublishScript w in
  let r := MkRelease (next_release_id w) (lit "v" ++ version entry)
             (lit "v" ++ version entry) (content entry) true false in
  let body := createPullFrontmatter (next_release_id w) (md5 (content entry))
              ++ [LF; LF] ++ prBody in
  run.2 = inr tt
  /\ releases run.1 = <[next_release_id w := r]> (releases w)
  /\ events run.1
     = events w1
       ++ [CreateRelease r;
           CreatePull (base_branch ctx) (version_branch ctx) title body]
  /\ getPullFrontmatterData body
     = Some (MkFrontmatter (Some (next_release_id w)) (Some (md5 (content entry)))).
Proof.
  intros Hprep _ Hdot Htrim run r body.
  destruct (prepare_host _ _ _ _ _ _ _ _ _ Hprep) as (Hr & Hn & _).
  unfold run. rewrite (runVersion_run _ _ _ _ _ _ _ _ _ Hprep).
  unfold reconcile_pull. rewrite bind_run. unfold repos_createRelease.
  cbv beta iota zeta. unfold pulls_create, emit.
  cbn [fst snd release_id release_body releases events add_event set_releases].
  rewrite Hr, Hn. fold r. repeat split.
  - by rewrite <- app_assoc.
  - unfold body. change [LF; LF] with ([LF] ++ [LF]). rewrite <- app_assoc.
    by apply decode_encoded.
Qed.

(** X20: a draft release that nobody
    edited since [runVersion] wrote it is brought up to date by the next
    run: when the open versioning pull request starts with the
    frontmatter block of a draft id and the digest of the body which the
    release of that id has now, [runVersion] overwrites the release
    with the latest changelog entry and writes the digest of the new
    body into the pull request.  (The id is not 0 and below 10^21 in
    absolute value; the digest is a line, not empty, without white space
    at its ends.) *)
Theorem version_updates_untouched_draft (ctx : Context) (script : option str)
    (cwd prTitle commitMessage : str) (hasPublishScript : bool)
    (w w1 : World) (pull : Pull) (others : list Pull)
    (entry : ChangelogEntry) (prBody title tail : str) (id : Z) (r : Release) :
  prepare_version ctx script cwd prTitle commitMessage hasPublishScript w
  = (w1, inr (pull :: others, entry, prBody, title)) ->
  releases w !! id = Some r ->
  pull_body pull
  = Some (createPullFrontmatter id (md5 (release_body r)) ++ [LF] ++ tail) ->
  id <> 0%Z -> (Z.abs id < 10 ^ 21)%Z ->
  md5 (release_body r) <> [] ->
  forallb is_dot (md5 (release_body r)) = true ->
  trim (md5 (release_body r)) = md5 (release_body r) ->
  let run := runVersion md5 ctx script cwd prTitle commitMessage hasPublishScript w in
  let r' := MkRelease id (lit "v" ++ version entry) (lit "v" ++ version entry)
              (content entry) true (prerelease r) in
  run.2 = inr tt
  /\ releases run.1 = <[id := r']> (releases w)
  /\ last_pull_body run.1
     = Some (createPullFrontmatter id (md5 (content entry)) ++ [LF; LF] ++ prBody).
Proof.
  intros Hprep Hrel Hbody Hid _ Hne Hdot Htrim run r'.
  destruct (prepare_host _ _ _ _ _ _ _ _ _ Hprep) as (Hr & Hn & _).
  unfold run. rewrite (runVersion_run _ _ _ _ _ _ _ _ _ Hprep).
  unfold reconcile_pull. rewrite bind_run.
  rewrite (existing_pull_body_run md5 pull entry prBody id (md5 (release_body r)) r w1).
  - rewrite bool_decide_eq_true_2 by done. cbv beta iota zeta.
    unfold pulls_update, emit.
    cbn [fst snd releases events add_event set_releases]. rewrite Hr.
    repeat split. unfold last_pull_body. cbn [events add_event set_releases].
    by rewrite last_snoc.
  - rewrite Hbody. cbn [default]. by apply decode_encoded.
  - done.
  - done.
  - by rewrite Hr.
Qed.

(** X21: when the open versioning pull
    request has no frontmatter, or a frontmatter without a draft id or
    without a checksum, or one with the draft id 0 or an empty checksum,
    [runVersion] does not touch the releases of the host and rewrites
    the pull request with the new text and no frontmatter. *)
Theorem version_incomplete_frontmatter (ctx : Context) (script : option str)
    (cwd prTitle commitMessage : str) (hasPublishScript : bool)
    (w w1 : World) (pull : Pull) (others : list Pull)
    (entry : ChangelogEntry) (prBody title : str) :
  prepare_version ctx script cwd prTitle commitMessage hasPublishScript w
  = (w1, inr (pull :: others, entry, prBody, title)) ->
  match getPullFrontmatterData (default [] (pull_body pull)) with
  | Some (MkFrontmatter (Some id) (Some ck)) => id = 0%Z \/ ck = []
  | _ => True
  end ->
  let run := runVersion md5 ctx script cwd prTitle commitMessage hasPublishScript w in
  run.2 = inr tt
  /\ releases run.1 = releases w
  /\ events run.1 = events w1 ++ [UpdatePull (pull_number pull) title prBody].
Proof.
  intros Hprep Hfm run.
  destruct (prepare_host _ _ _ _ _ _ _ _ _ Hprep) as (Hr & Hn & _).
  unfold run. rewrite (runVersion_run _ _ _ _ _ _ _ _ _ Hprep).
  unfold reconcile_pull. rewrite bind_run.
  assert (Hb : existing_pull_body md5 pull entry prBody w1 = (w1, inr prBody)).
  { unfold existing_pull_body.
    destruct (getPullFrontmatterData _) as [[[id|] [ck|]]|]; try reflexivity.
    destruct Hfm as [-> | ->]; [reflexivity|].
    rewrite bool_decide_eq_true_2 by done. by rewrite orb_true_r. }
  rewrite Hb. unfold pulls_update, emit. cbn [fst snd releases events add_event].
  by rewrite Hr.
Qed.

(** X22: when the frontmatter of the open
    versioning pull request names a release that the host does not
    hold, [runVersion] fails with the error of the host after the push
    of the versioning branch, and the pull request is not brought up
    to date. *)
Theorem version_release_missing (ctx : Context) (script : option str)
    (cwd prTitle commitMessage : str) (hasPublishScript : bool)
    (w w1 : World) (pull : Pull) (others : list Pull)
    (entry : ChangelogEntry) (prBody title : str) (id : Z) (ck : str) :
  prepare_version ctx script cwd prTitle commitMessage hasPublishScript w
  = (w1, inr (pull :: others, entry, prBody, title)) ->
  getPullFrontmatterData (default [] (pull_body pull))
  = Some (MkFrontmatter (Some id) (Some ck)) ->
  id <> 0%Z -> ck <> [] ->
  releases w !! id = None ->
  runVersion md5 ctx script cwd prTitle commitMessage hasPublishScript w
  = (w1, inl HostError).
Proof.
  intros Hprep Hfm Hid Hck Hrel.
  destruct (prepare_host _ _ _ _ _ _ _ _ _ Hprep) as (Hr & Hn & _).
  rewrite (runVersion_run _ _ _ _ _ _ _ _ _ Hprep).
  unfold reconcile_pull. rewrite bind_run.
  unfold existing_pull_body. rewrite Hfm.
  apply Z.eqb_neq in Hid. rewrite Hid.
  rewrite (bool_decide_eq_false_2 (ck = [])) by done. cbn [orb].
  rewrite bind_run. unfold repos_getRelease. by rewrite Hr, Hrel.
Qed.

(** X23: whatever [runVersion] does and
    whether it fails or not, it deletes no release of the host, and
    every release that is new or not as it was before is a draft: it
    never publishes. *)
Theorem version_writes_only_drafts (ctx : Context) (script : option str)
    (cwd prTitle commitMessage : str) (hasPublishScript : bool) (w : World) :
  let run := runVersion md5 ctx script cwd prTitle commitMessage hasPublishScript w in
  (forall id, is_Some (releases w !! id) -> is_Some (releases run.1 !! id))
  /\ (forall id r', releases run.1 !! id = Some r' ->
        releases w !! id = Some r' \/ draft r' = true).
Proof.
  intros run. unfold run, runVersion. rewrite bind_run.
  destruct (prepare_version _ _ _ _ _ _ w) as [w1 [e|[[[items entry] prBody] title]]]
    eqn:Hprep;
    destruct (prepare_host _ _ _ _ _ _ _ _ _ Hprep) as (Hr & Hn & _).
  { cbn [fst]. rewrite Hr. split; [done|]. intros id r' H. by left. }
  unfold reconcile_pull. destruct items as [|pull others].
  - rewrite bind_run. unfold repos_createRelease. cbv beta iota zeta.
    unfold pulls_create, emit. cbn [fst releases add_event set_releases].
    rewrite Hr, Hn. split.
    + intros id His. destruct (decide (id = next_release_id w)) as [->|Hne].
      * rewrite lookup_insert_eq. by eexists.
      * by rewrite lookup_insert_ne.
    + intros id r'. destruct (decide (id = next_release_id w)) as [->|Hne].
      * rewrite lookup_insert_eq. intros [= <-]. by right.
      * rewrite lookup_insert_ne by done. by left.
  - rewrite bind_run.
    assert (Hcases :
      (exists body, existing_pull_body md5 pull entry prBody w1 = (w1, inr body))
      \/ existing_pull_body md5 pull entry prBody w1 = (w1, inl HostError)
      \/ exists id r body,
           releases w1 !! id = Some r
           /\ existing_pull_body md5 pull entry prBody w1
              = (add_event
                   (UpdateRelease (MkRelease id (lit "v" ++ version entry)
                      (lit "v" ++ version entry) (content entry) true (prerelease r)))
                   (set_releases
                      (<[id := MkRelease id (lit "v" ++ version entry)
                                 (lit "v" ++ version entry) (content entry) true
                                 (prerelease r)]> (releases w1))
                      (next_release_id w1) w1),
                 inr body)).
    { unfold existing_pull_body.
      destruct (getPullFrontmatterData _) as [[[id|] [ck|]]|];
        try (left; by eexists).
      destruct (_ || _); [left; by eexists|].
      rewrite bind_run. unfold repos_getRelease.
      destruct (releases w1 !! id) as [r|] eqn:Er; [|by right; left].
      destruct (bool_decide _); [|left; by eexists].
      right. right. exists id, r. eexists. split; [done|].
      rewrite bind_run. unfold repos_updateRelease. by rewrite Er. }
    destruct Hcases as [[body ->]|[->|(id & r & body & Er & ->)]].
    + unfold pulls_update, emit. cbn [fst releases add_event]. rewrite Hr.
      split; [done|]. intros id r' H. by left.
    + cbn [fst]. rewrite Hr. split; [done|]. intros id r' H. by left.
    + unfold pulls_update, emit. cbn [fst releases add_event set_releases].
      rewrite Hr in Er |- *. split.
      * intros id' His. destruct (decide (id' = id)) as [->|Hne].
        -- rewrite lookup_insert_eq. by eexists.
        -- by rewrite lookup_insert_ne.
      * intros id' r'. destruct (decide (id' = id)) as [->|Hne].
        -- rewrite lookup_insert_eq. intros [= <-]. by right.
        -- rewrite lookup_insert_ne by done. by left.
Qed.

End VersionMore.

Lemma switch_run branch w :
  switchToMaybeExistingBranch branch w = (switched branch w, inr tt).
Proof.
  unfold switchToMaybeExistingBranch, switched. rewrite bind_run.
  unfold execWithOutput at 1. cbv beta iota.
  by destruct (includes _ _).
Qed.

Lemma pre_state_after_reset ctx w : pre_state (after_reset ctx w) = pre_state w.
Proof. unfold after_reset, switched. by destruct (includes _ _). Qed.

(** [runVersion] up to the reading of the changelog. *)
Lemma prepare_version_start ctx script cwd prTitle commitMessage hasPublishScript w :
  prepare_version ctx script cwd prTitle commitMessage hasPublishScript w =
  match run_version_command script cwd (after_reset ctx w) with
  | (w2, inl e) => (w2, inl e)
  | (w2, inr _) =>
      match files w2 !! path_join cwd (lit "CHANGELOG.md") with
      | None => (w2, inl (FsError (lit "ENOENT")))
      | Some (Failing code) => (w2, inl (FsError code))
      | Some (Content changelog) =>
          match latestChangelogEntryOf changelog with
          | inl e => (w2, inl e)
          | inr entry =>
              (clean ← checkIfClean;
               (if negb clean then
                  unlink (path_join cwd (lit "CHANGELOG.md"));;
                  commitAll (with_pre_tag commitMessage (pre_state w))
                else mret tt);;
               push (version_branch ctx) true;;
               mret (search_items w2
                       (lit "repo:" ++ (ctx_owner ctx ++ lit "/" ++ ctx_repo ctx)
                        ++ lit "+state:open+head:" ++ version_branch ctx
                        ++ lit "+base:" ++ base_branch ctx),
                     entry,
                     pull_text hasPublishScript (base_branch ctx) (pre_state w)
                       (content entry),
                     with_pre_tag prTitle (pre_state w))) w2
          end
      end
  end.
Proof.
  unfold prepare_version. cbv zeta. rewrite bind_run. unfold ask at 1. cbv beta iota.
  rewrite bind_run, switch_run. cbv beta iota.
  rewrite bind_run. unfold reset, exec_command at 1. cbv beta iota.
  fold (exec_world git [lit "reset"; lit "--hard"; ctx_sha ctx]
          (switched (lit "changeset-release/"
                     ++ replace_first (lit "refs/heads/") [] (ctx_ref ctx)) w)).
  fold (base_branch ctx). fold (version_branch ctx). fold (after_reset ctx w).
  rewrite bind_run.
  destruct (run_version_command script cwd (after_reset ctx w)) as [w2 [e|[]]]; [done|].
  rewrite bind_run. unfold ask at 1. cbv beta iota.
  rewrite bind_run. unfold getLatestChangelogEntry. rewrite bind_run.
  unfold readFile at 1.
  destruct (files w2 !! path_join cwd (lit "CHANGELOG.md")) as [[changelog|code]|];
    [|done|done].
  unfold lift at 1. destruct (latestChangelogEntryOf changelog) as [e|entry]; done.
Qed.

Lemma run_script_command c s cwd w :
  run_version_command (Some (c :: s)) cwd w
  = (exec_world (default [] (head (split_ws (c :: s)))) (tail (split_ws (c :: s))) w,
     inr tt).
Proof. reflexivity. Qed.

Lemma changesets_cli_after_reset ctx w :
  changesets_cli (after_reset ctx w) = changesets_cli w.
Proof. unfold after_reset, switched. by destruct (includes _ _). Qed.

Lemma bind_inr {A B} (m : M A) (f : A -> M B) w w1 y :
  (m ≫= f) w = (w1, inr y) ->
  exists w0 x, m w = (w0, inr x) /\ f x w0 = (w1, inr y).
Proof.
  rewrite bind_run. destruct (m w) as [w0 [e|x]]; [discriminate|].
  intros H. by exists w0, x.
Qed.

Lemma no_host_event_exec cmd args : List.filter is_host_event [Exec cmd args] = [].
Proof. reflexivity. Qed.

Lemma events_switched branch w :
  exists l, events (switched branch w) = events w ++ l
            /\ List.filter is_host_event l = [].
Proof.
  unfold switched. destruct (includes _ _); cbn [events exec_world add_event set_files].
  - by eexists.
  - rewrite <- app_assoc. by eexists.
Qed.

Lemma requireChangesetsCliPkgJson_run cwd w :
  requireChangesetsCliPkgJson cwd w
  = (w, match changesets_cli w with
        | inl err => inl (cli_error cwd err)
        | inr pkg => inr pkg
        end).
Proof.
  unfold requireChangesetsCliPkgJson, try_catch, require_cli, cli_error.
  destruct (changesets_cli w) as [err|pkg]; [|done].
  by destruct (bool_decide _).
Qed.

Lemma events_run_version_command script cwd w w2 x :
  run_version_command script cwd w = (w2, x) ->
  exists l, events w2 = events w ++ l /\ List.filter is_host_event l = [].
Proof.
  unfold run_version_command. destruct script as [[|c s]|].
  - rewrite bind_run, requireChangesetsCliPkgJson_run.
    destruct (changesets_cli w) as [e|[bin old]].
    + intros [= <- _]. exists []. by rewrite app_nil_r.
    + intros [= <- _]. by eexists.
  - intros [= <- _]. by eexists.
  - rewrite bind_run, requireChangesetsCliPkgJson_run.
    destruct (changesets_cli w) as [e|[bin old]].
    + intros [= <- _]. exists []. by rewrite app_nil_r.
    + intros [= <- _]. by eexists.
Qed.

(** Up to the push: when the first part of [runVersion] goes through,
    the last thing it did is the force push of the versioning branch,
    and nothing before it was done on the host. *)
Lemma prepare_version_events ctx script cwd prTitle commitMessage hasPublishScript
    w w1 x :
  prepare_version ctx script cwd prTitle commitMessage hasPublishScript w
  = (w1, inr x) ->
  exists l, events w1 = events w ++ l ++ [push_event ctx]
            /\ List.filter is_host_event l = [].
Proof.
  rewrite prepare_version_start.
  destruct (run_version_command script cwd (after_reset ctx w)) as [w2 [e|[]]] eqn:Ecmd;
    [discriminate|].
  apply events_run_version_command in Ecmd as (l2 & He2 & Hl2).
  destruct (events_switched (version_branch ctx) w) as (l1 & He1 & Hl1).
  assert (He : exists l, events w2 = events w ++ l /\ List.filter is_host_event l = []).
  { exists (l1 ++ Exec git [lit "reset"; lit "--hard"; ctx_sha ctx] :: l2).
    rewrite He2. unfold after_reset. cbn [events exec_world add_event set_files].
    rewrite He1, <- !app_assoc. split; [done|].
    rewrite List.filter_app, Hl1. cbn [app List.filter is_host_event]. exact Hl2. }
  clear He1 He2 Hl1 Hl2 l1 l2. destruct He as (l & He & Hl).
  destruct (files w2 !! _) as [[changelog|code]|]; [|discriminate|discriminate].
  destruct (latestChangelogEntryOf changelog) as [e|entry]; [discriminate|].
  intros H. apply bind_inr in H as (w3 & clean & Hclean & H).
  apply bind_inr in H as (w4 & [] & Hcommit & H).
  apply bind_inr in H as (w5 & [] & Hpush & H).
  injection H as <- _. unfold push, exec_command in Hpush. injection Hpush as <-.
  cbn [events add_event set_files].
  change (Exec git ([lit "push"; lit "origin"; lit "HEAD:" ++ version_branch ctx]
                    ++ [lit "--force"])) with (push_event ctx).
  assert (H3 : events w3 = events w2 ++ [Exec git [lit "status"; lit "--porcelain"]]).
  { unfold checkIfClean in Hclean. apply bind_inr in Hclean as (w0 & [out err] & Hs & Hr).
    injection Hr as <- _. unfold execWithOutput in Hs. by injection Hs as <- _. }
  assert (H4 : exists l4, events w4 = events w3 ++ l4
                          /\ List.filter is_host_event l4 = []).
  { destruct clean; cbn [negb] in Hcommit.
    - injection Hcommit as <-. exists []. by rewrite app_nil_r.
    - apply bind_inr in Hcommit as (w0 & [] & Hu & Hc).
      unfold commitAll in Hc. apply bind_inr in Hc as (w6 & [] & Ha & Hc).
      unfold exec_command in Ha, Hc. injection Ha as <-. injection Hc as <-.
      unfold unlink in Hu.
      destruct (files w3 !! _) as [[t|code]|]; [|discriminate|discriminate].
      injection Hu as <-. cbn [events add_event set_files].
      rewrite <- !app_assoc. by eexists. }
  destruct H4 as (l4 & H4 & Hl4).
  exists (l ++ Exec git [lit "status"; lit "--porcelain"] :: l4).
  rewrite H4, H3, He, <- !app_assoc. split; [done|].
  rewrite List.filter_app, Hl. cbn [app List.filter is_host_event]. exact Hl4.
Qed.

Lemma replace_first_prefix pat b :
  pat <> [] -> replace_first pat [] (pat ++ b) = b.
Proof.
  intros Hne. destruct pat as [|c pat]; [done|].
  cbn [app replace_first].
  change (starts_with (c :: pat) (c :: pat ++ b))
    with (starts_with (c :: pat) ((c :: pat) ++ b)).
  rewrite starts_with_app. cbn [app].
  change (c :: pat ++ b) with ((c :: pat) ++ b). by rewrite drop_app_length.
Qed.

Section VersionErrors.

Variable md5 : str -> str.

(** X24: [runVersion] with a versioning script
    reads [CHANGELOG.md] right after the script ran, and fails there,
    before anything is committed, pushed or done on the host, if the
    file does not exist, if it cannot be read, or if it holds no
    version header ([TypeError], when the text has no [## ] followed by
    a digit). *)
Theorem version_changelog_errors (ctx : Context) (script cwd prTitle commitMessage : str)
    (hasPublishScript : bool) (w : World) :
  script <> [] ->
  let w2 := after_version_script ctx script w in
  let changelog_file := files w2 !! path_join cwd (lit "CHANGELOG.md") in
  let run := runVersion md5 ctx (Some script) cwd prTitle commitMessage
               hasPublishScript w in
  (changelog_file = None -> run = (w2, inl (FsError (lit "ENOENT"))))
  /\ (forall code, changelog_file = Some (Failing code) ->
        run = (w2, inl (FsError code)))
  /\ (forall changelog, changelog_file = Some (Content changelog) ->
        no_hash_digit changelog = true -> run = (w2, inl TypeError)).
Proof.
  intros Hne w2 changelog_file run.
  assert (Hrun : run =
    match changelog_file with
    | None => (w2, inl (FsError (lit "ENOENT")))
    | Some (Failing code) => (w2, inl (FsError code))
    | Some (Content changelog) =>
        match latestChangelogEntryOf changelog with
        | inl e => (w2, inl e)
        | inr entry => run
        end
    end).
  { unfold run, runVersion. rewrite bind_run, prepare_version_start.
    destruct script as [|c s]; [done|]. rewrite run_script_command.
    fold (after_version_script ctx (c :: s) w). fold w2. fold changelog_file.
    destruct changelog_file as [[changelog|code]|]; [|done|done].
    by destruct (latestChangelogEntryOf changelog). }
  split; [|split].
  - intros H. by rewrite Hrun, H.
  - intros code H. by rewrite Hrun, H.
  - intros changelog H Hno. rewrite Hrun, H.
    rewrite latestChangelogEntryOf_spec. unfold entry_of.
    by rewrite split_header_none.
Qed.

(** X25: without a versioning script (none
    or an empty one), [runVersion] loads the package description of the
    changesets CLI once it has switched to the versioning branch and
    reset it.  When the loading throws, the run fails there and no
    versioning command is run: for an error with the code
    [MODULE_NOT_FOUND] it throws a new error with the message
    [Have you forgotten to install `@changesets/cli` in "<cwd>"?], and
    any other error is thrown again as it is. *)
Theorem version_fails_without_cli (ctx : Context) (script : option str)
    (cwd prTitle commitMessage : str) (hasPublishScript : bool) (w : World)
    (err : exn) :
  default [] script = [] ->
  changesets_cli w = inl err ->
  runVersion md5 ctx script cwd prTitle commitMessage hasPublishScript w
  = (after_reset ctx w,
     inl (if bool_decide (err_code err = Some (lit "MODULE_NOT_FOUND")) then
            Error (lit "Have you forgotten to install `@changesets/cli` in "
                   ++ [34] ++ cwd ++ [34] ++ lit "?")
          else err)).
Proof.
  intros Hs Hcli. unfold runVersion. rewrite bind_run, prepare_version_start.
  assert (Hcmd : run_version_command script cwd (after_reset ctx w)
                 = (after_reset ctx w, inl (cli_error cwd err))).
  { unfold run_version_command.
    destruct script as [[|c s]|]; [|discriminate|];
      rewrite bind_run, requireChangesetsCliPkgJson_run;
      by rewrite changesets_cli_after_reset, Hcli. }
  by rewrite Hcmd.
Qed.

(** X26: when [runVersion] succeeds it has force
    pushed the versioning branch, [changeset-release/<branch>] for a
    run on [refs/heads/<branch>], before it did anything on the host:
    what comes before the push in the log holds no release or pull
    request action, what comes after it is only such actions, at least
    one. *)
Theorem version_pushes_first (ctx : Context) (script : option str)
    (cwd prTitle commitMessage : str) (hasPublishScript : bool) (w w' : World) :
  runVersion md5 ctx script cwd prTitle commitMessage hasPublishScript w
  = (w', inr tt) ->
  (exists l h,
     events w' = events w ++ l ++ [push_event ctx] ++ h
     /\ List.filter is_host_event l = []
     /\ forallb is_host_event h = true /\ h <> [])
  /\ (forall b, ctx_ref ctx = lit "refs/heads/" ++ b ->
        push_event ctx
        = Exec git [lit "push"; lit "origin"; lit "HEAD:changeset-release/" ++ b;
                    lit "--force"]).
Proof.
  intros Hrun. split.
  - unfold runVersion in Hrun. apply bind_inr in Hrun as (w1 & x & Hprep & Hrec).
    apply prepare_version_events in Hprep as (l & He & Hl).
    exists l. destruct x as [[[items entry] prBody] title].
    unfold reconcile_pull in Hrec. destruct items as [|pull others].
    + apply bind_inr in Hrec as (w2 & r & Hc & Hp).
      unfold repos_createRelease in Hc. injection Hc as <- <-.
      unfold pulls_create, emit in Hp. injection Hp as <-.
      cbn [events add_event set_releases]. rewrite He, <- !app_assoc.
      eexists. split; [reflexivity|]. by repeat split.
    + apply bind_inr in Hrec as (w2 & body & Hb & Hp).
      unfold pulls_update, emit in Hp. injection Hp as <-.
      cbn [events add_event].
      assert (Hw2 : events w2 = events w1
                    \/ exists r, events w2 = events w1 ++ [UpdateRelease r]).
      { unfold existing_pull_body in Hb.
        destruct (getPullFrontmatterData _) as [[[id|] [ck|]]|];
          try (injection Hb as <- _; by left).
        destruct (_ || _); [injection Hb as <- _; by left|].
        apply bind_inr in Hb as (w3 & r & Hg & Hb).
        unfold repos_getRelease in Hg.
        destruct (releases w1 !! id) as [r1|] eqn:Er1; [|discriminate].
        injection Hg as <- <-.
        destruct (bool_decide _); [|injection Hb as <- _; by left].
        apply bind_inr in Hb as (w4 & r4 & Hu & Hb).
        injection Hb as <- _. unfold repos_updateRelease in Hu. rewrite Er1 in Hu.
        injection Hu as <- _. right. by eexists. }
      destruct Hw2 as [-> | [r ->]]; rewrite He, <- !app_assoc.
      * eexists. split; [reflexivity|]. by repeat split.
      * eexists. split; [reflexivity|]. by repeat split.
  - intros b Hb. unfold push_event, version_branch, base_branch.
    rewrite Hb, replace_first_prefix by done. reflexivity.
Qed.

End VersionErrors.

Section VersionTrace.

Variable md5 : str -> str.

(** What [runVersion] does after the push is done on the host, and is
    at least one action. *)
Lemma reconcile_pull_events ctx x w1 w' :
  reconcile_pull md5 ctx x w1 = (w', inr tt) ->
  exists h, events w' = events w1 ++ h
            /\ forallb is_host_event h = true /\ h <> [].
Proof.
  intros Hrec. destruct x as [[[items entry] prBody] title].
  unfold reconcile_pull in Hrec. destruct items as [|pull others].
  - apply bind_inr in Hrec as (w2 & r & Hc & Hp).
    unfold repos_createRelease in Hc. injection Hc as <- <-.
    unfold pulls_create, emit in Hp. injection Hp as <-.
    cbn [events add_event set_releases]. rewrite <- !app_assoc.
    eexists. split; [reflexivity|]. by repeat split.
  - apply bind_inr in Hrec as (w2 & body & Hb & Hp).
    unfold pulls_update, emit in Hp. injection Hp as <-.
    cbn [events add_event].
    assert (Hw2 : events w2 = events w1
                  \/ exists r, events w2 = events w1 ++ [UpdateRelease r]).
    { unfold existing_pull_body in Hb.
      destruct (getPullFrontmatterData _) as [[[id|] [ck|]]|];
        try (injection Hb as <- _; by left).
      destruct (_ || _); [injection Hb as <- _; by left|].
      apply bind_inr in Hb as (w3 & r & Hg & Hb).
      unfold repos_getRelease in Hg.
      destruct (releases w1 !! id) as [r1|] eqn:Er1; [|discriminate].
      injection Hg as <- <-.
      destruct (bool_decide _); [|injection Hb as <- _; by left].
      apply bind_inr in Hb as (w4 & r4 & Hu & Hb).
      injection Hb as <- _. unfold repos_updateRelease in Hu. rewrite Er1 in Hu.
      injection Hu as <- _. right. by eexists. }
    destruct Hw2 as [-> | [r ->]]; rewrite <- ?app_assoc.
    + eexists. split; [reflexivity|]. by repeat split.
    + eexists. split; [reflexivity|]. by repeat split.
Qed.

(** X27: a run of [runVersion] with a versioning
    script that succeeds has done this, in this order, after the
    script: asked git for the state of the working tree; only if that
    printed something, deleted the changelog, staged everything and
    committed with the commit message (followed by the tag of the pre
    mode, if any); force pushed the versioning branch; then one or more
    actions on the host, and nothing else.  With a clean working tree
    nothing is deleted or committed.  The working directory is a path
    that [path.join] leaves as it is, so that the changelog is
    [<cwd>/CHANGELOG.md]. *)
Theorem version_commit_order (ctx : Context) (script cwd prTitle commitMessage : str)
    (hasPublishScript : bool) (w w' : World) :
  script <> [] ->
  normal_dir cwd = true ->
  runVersion md5 ctx (Some script) cwd prTitle commitMessage hasPublishScript w
  = (w', inr tt) ->
  let w2 := after_version_script ctx script w in
  let status := [lit "status"; lit "--porcelain"] in
  exists h,
    events w'
    = events w2
      ++ Exec git status
         :: (if bool_decide (command_stdout w2 git status = []) then []
             else [Unlink (cwd ++ lit "/CHANGELOG.md");
                   Exec git [lit "add"; lit "."];
                   Exec git [lit "commit"; lit "-m";
                             with_pre_tag commitMessage (pre_state w)]])
      ++ [push_event ctx] ++ h
    /\ forallb is_host_event h = true /\ h <> [].
Proof.
  intros Hne _ Hrun w2 status. subst status.
  change (cwd ++ lit "/CHANGELOG.md") with (path_join cwd (lit "CHANGELOG.md")).
  unfold runVersion in Hrun. apply bind_inr in Hrun as (w1 & x & Hprep & Hrec).
  assert (Hprefix : events w1
    = events w2
      ++ Exec git [lit "status"; lit "--porcelain"]
         :: (if bool_decide
                  (command_stdout w2 git [lit "status"; lit "--porcelain"] = [])
             then []
             else [Unlink (path_join cwd (lit "CHANGELOG.md"));
                   Exec git [lit "add"; lit "."];
                   Exec git [lit "commit"; lit "-m";
                             with_pre_tag commitMessage (pre_state w)]])
      ++ [push_event ctx]).
  { rewrite prepare_version_start in Hprep.
    destruct script as [|c s]; [done|]. rewrite run_script_command in Hprep.
    fold (after_version_script ctx (c :: s) w) in Hprep. fold w2 in Hprep.
    destruct (files w2 !! _) as [[changelog|code]|]; [|discriminate|discriminate].
    destruct (latestChangelogEntryOf changelog) as [e|entry]; [discriminate|].
    apply bind_inr in Hprep as (w3 & clean & Hclean & H).
    apply bind_inr in H as (w4 & [] & Hcommit & H).
    apply bind_inr in H as (w5 & [] & Hpush & H).
    injection H as <- _. unfold push, exec_command in Hpush. injection Hpush as <-.
    cbn [events add_event set_files].
    change (Exec git ([lit "push"; lit "origin"; lit "HEAD:" ++ version_branch ctx]
                      ++ [lit "--force"])) with (push_event ctx).
    unfold checkIfClean in Hclean.
    apply bind_inr in Hclean as (w0 & [out err] & Hs & Hr).
    unfold execWithOutput in Hs. injection Hs as <- <- _. injection Hr as <- <-.
    destruct (bool_decide _); cbn [negb] in Hcommit.
    - injection Hcommit as <-. cbn [events add_event set_files].
      by rewrite <- !app_assoc.
    - apply bind_inr in Hcommit as (w6 & [] & Hu & Hc).
      unfold commitAll in Hc. apply bind_inr in Hc as (w7 & [] & Ha & Hc).
      unfold exec_command in Ha, Hc. injection Ha as <-. injection Hc as <-.
      unfold unlink in Hu.
      destruct (files _ !! _) as [[t|code]|]; [|discriminate|discriminate].
      injection Hu as <-. cbn [events add_event set_files].
      by rewrite <- !app_assoc. }
  apply reconcile_pull_events in Hrec as (h & -> & Hh & Hh0).
  exists h. split; [|by split]. rewrite Hprefix, <- !app_assoc.
  cbn [app]. by rewrite <- !app_assoc.
Qed.

End VersionTrace.

Lemma version_commit_order_witness :
  exists h,
    events (runVersion demo_hash demo_context (Some (lit "yarn version"))
              (lit "/repo") (lit "Version Packages") (lit "Version Packages") false
              dirty_world).1
    = events (after_version_script demo_context (lit "yarn version") dirty_world)
      ++ Exec git [lit "status"; lit "--porcelain"]
         :: [Unlink (lit "/repo" ++ lit "/CHANGELOG.md");
             Exec git [lit "add"; lit "."];
             Exec git [lit "commit"; lit "-m";
                       with_pre_tag (lit "Version Packages") (pre_state dirty_world)]]
      ++ [push_event demo_context] ++ h
    /\ forallb is_host_event h = true /\ h <> [].
Proof.
  pose (q := runVersion demo_hash demo_context (Some (lit "yarn version"))
               (lit "/repo") (lit "Version Packages") (lit "Version Packages") false
               dirty_world).
  assert (H0 : q.2 = inr tt) by (vm_compute; reflexivity).
  assert (H1 : q = (q.1, inr tt)).
  { rewrite <- H0. apply surjective_pairing. }
  assert (H2 : normal_dir (lit "/repo") = true) by (vm_compute; reflexivity).
  assert (H3 : bool_decide
                 (command_stdout
                    (after_version_script demo_context (lit "yarn version") dirty_world)
                    git [lit "status"; lit "--porcelain"] = []) = false)
    by (vm_compute; reflexivity).
  pose proof (version_commit_order demo_hash demo_context (lit "yarn version")
           (lit "/repo") (lit "Version Packages") (lit "Version Packages") false
           dirty_world q.1 ltac:(discriminate) H2 H1) as H.
  cbv zeta in H. rewrite H3 in H. exact H.
Defined.

Lemma version_opens_pull_request_witness :
  (demo_runVersion first_run_world).2 = inr tt
  /\ releases (demo_runVersion first_run_world).1
     = <[1%Z := MkRelease 1 (lit "v1.1.0") (lit "v1.1.0") (lit "- new notes") true false]> ∅.
Proof.
  pose (p := prepare_version demo_context (Some (lit "yarn version")) (lit ".")
               (lit "Version Packages") (lit "Version Packages") false first_run_world).
  assert (H0 : p.2 = inr ([], demo_entry, demo_pull_text, lit "Version Packages"))
    by (vm_compute; reflexivity).
  assert (H1 : p = (p.1, inr ([], demo_entry, demo_pull_text, lit "Version Packages"))).
  { rewrite <- H0. apply surjective_pairing. }
  assert (H2 : (Z.abs (next_release_id first_run_world) < 10 ^ 21)%Z)
    by (vm_compute; reflexivity).
  destruct (version_opens_pull_request demo_hash demo_context (Some (lit "yarn version"))
              (lit ".") (lit "Version Packages") (lit "Version Packages") false
              first_run_world p.1 demo_entry demo_pull_text (lit "Version Packages")
              H1 H2 eq_refl eq_refl)
    as (Ha & Hb & _).
  split; [exact Ha|exact Hb].
Defined.

Lemma version_updates_untouched_draft_witness :
  (demo_runVersion (version_world 5 matching_body)).2 = inr tt
  /\ last_pull_body (demo_runVersion (version_world 5 matching_body)).1
     = Some (createPullFrontmatter 5 (demo_hash (lit "- new notes"))
             ++ [LF; LF] ++ demo_pull_text).
Proof.
  pose (w := version_world 5 matching_body).
  pose (pull := MkPull 900 7 (Some matching_body) None).
  pose (r := MkRelease 5 (lit "v1.0.1") (lit "v1.0.1") (lit "old notes") true false).
  pose (p := prepare_version demo_context (Some (lit "yarn version")) (lit ".")
               (lit "Version Packages") (lit "Version Packages") false w).
  assert (H0 : p.2 = inr ([pull], demo_entry, demo_pull_text, lit "Version Packages"))
    by (vm_compute; reflexivity).
  assert (H1 : p = (p.1, inr ([pull], demo_entry, demo_pull_text, lit "Version Packages"))).
  { rewrite <- H0. apply surjective_pairing. }
  assert (H2 : releases w !! 5%Z = Some r) by (vm_compute; reflexivity).
  assert (H3 : pull_body pull
               = Some (createPullFrontmatter 5 (demo_hash (release_body r))
                       ++ [LF] ++ ([LF] ++ lit "text")))
    by (vm_compute; reflexivity).
  assert (H4 : 5%Z <> 0%Z) by lia.
  assert (H5 : (Z.abs 5 < 10 ^ 21)%Z) by reflexivity.
  assert (H6 : demo_hash (release_body r) <> []) by (vm_compute; discriminate).
  destruct (version_updates_untouched_draft demo_hash demo_context
              (Some (lit "yarn version")) (lit ".") (lit "Version Packages")
              (lit "Version Packages") false w p.1 pull [] demo_entry demo_pull_text
              (lit "Version Packages") ([LF] ++ lit "text") 5%Z r
              H1 H2 H3 H4 H5 H6 eq_refl eq_refl)
    as (Ha & _ & Hc).
  split; [exact Ha|exact Hc].
Defined.

Lemma version_incomplete_frontmatter_witness :
  (demo_runVersion (version_world 0 zero_id_body)).2 = inr tt
  /\ releases (demo_runVersion (version_world 0 zero_id_body)).1
     = releases (version_world 0 zero_id_body).
Proof.
  pose (w := version_world 0 zero_id_body).
  pose (pull := MkPull 900 7 (Some zero_id_body) None).
  pose (p := prepare_version demo_context (Some (lit "yarn version")) (lit ".")
               (lit "Version Packages") (lit "Version Packages") false w).
  assert (H0 : p.2 = inr ([pull], demo_entry, demo_pull_text, lit "Version Packages"))
    by (vm_compute; reflexivity).
  assert (H1 : p = (p.1, inr ([pull], demo_entry, demo_pull_text, lit "Version Packages"))).
  { rewrite <- H0. apply surjective_pairing. }
  assert (H2 : match getPullFrontmatterData (default [] (pull_body pull)) with
               | Some (MkFrontmatter (Some id) (Some ck)) => id = 0%Z \/ ck = []
               | _ => True
               end) by (vm_compute; left; reflexivity).
  destruct (version_incomplete_frontmatter demo_hash demo_context
              (Some (lit "yarn version")) (lit ".") (lit "Version Packages")
              (lit "Version Packages") false w p.1 pull [] demo_entry demo_pull_text
              (lit "Version Packages") H1 H2)
    as (Ha & Hb & _).
  split; [exact Ha|exact Hb].
Defined.

Lemma version_release_missing_witness :
  (demo_runVersion (version_world 7 matching_body)).2 = inl HostError.
Proof.
  pose (w := version_world 7 matching_body).
  pose (pull := MkPull 900 7 (Some matching_body) None).
  pose (p := prepare_version demo_context (Some (lit "yarn version")) (lit ".")
               (lit "Version Packages") (lit "Version Packages") false w).
  assert (H0 : p.2 = inr ([pull], demo_entry, demo_pull_text, lit "Version Packages"))
    by (vm_compute; reflexivity).
  assert (H1 : p = (p.1, inr ([pull], demo_entry, demo_pull_text, lit "Version Packages"))).
  { rewrite <- H0. apply surjective_pairing. }
  assert (H2 : getPullFrontmatterData (default [] (pull_body pull))
               = Some (MkFrontmatter (Some 5%Z) (Some (demo_hash (lit "old notes")))))
    by (vm_compute; reflexivity).
  assert (H3 : 5%Z <> 0%Z) by lia.
  assert (H4 : demo_hash (lit "old notes") <> []) by (vm_compute; discriminate).
  assert (H5 : releases w !! 5%Z = None) by (vm_compute; reflexivity).
  pose proof (version_release_missing demo_hash demo_context
                (Some (lit "yarn version")) (lit ".") (lit "Version Packages")
                (lit "Version Packages") false w p.1 pull [] demo_entry demo_pull_text
                (lit "Version Packages") 5%Z (demo_hash (lit "old notes"))
                H1 H2 H3 H4 H5) as H.
  exact (f_equal snd H).
Defined.

Lemma version_changelog_errors_witness :
  runVersion demo_hash demo_context (Some (lit "yarn version")) (lit ".")
    (lit "Version Packages") (lit "Version Packages") false
    (sample_world ([], lit "root") [] ∅)
  = (after_version_script demo_context (lit "yarn version")
       (sample_world ([], lit "root") [] ∅),
     inl (FsError (lit "ENOENT"))).
Proof.
  apply (proj1 (version_changelog_errors demo_hash demo_context (lit "yarn version")
                  (lit ".") (lit "Version Packages") (lit "Version Packages") false
                  (sample_world ([], lit "root") [] ∅) ltac:(discriminate))).
  reflexivity.
Defined.

Lemma version_fails_without_cli_witness :
  runVersion demo_hash demo_context None (lit "/repo")
    (lit "Version Packages") (lit "Version Packages") false no_cli_world
  = (after_reset demo_context no_cli_world,
     inl (Error (lit "Have you forgotten to install `@changesets/cli` in "
                 ++ [34] ++ lit "/repo" ++ [34] ++ lit "?"))).
Proof.
  exact (version_fails_without_cli demo_hash demo_context None (lit "/repo")
           (lit "Version Packages") (lit "Version Packages") false
           no_cli_world (FsError (lit "MODULE_NOT_FOUND")) eq_refl eq_refl).
Defined.

Lemma version_pushes_first_witness :
  exists l h,
    events (demo_runVersion (version_world 5 matching_body)).1
    = events (version_world 5 matching_body) ++ l ++ [push_event demo_context] ++ h
    /\ List.filter is_host_event l = []
    /\ forallb is_host_event h = true /\ h <> [].
Proof.
  pose (q := runVersion demo_hash demo_context (Some (lit "yarn version")) (lit ".")
               (lit "Version Packages") (lit "Version Packages") false
               (version_world 5 matching_body)).
  assert (H0 : q.2 = inr tt) by (vm_compute; reflexivity).
  assert (H1 : q = (q.1, inr tt)).
  { rewrite <- H0. apply surjective_pairing. }
  exact (proj1 (version_pushes_first demo_hash demo_context (Some (lit "yarn version"))
                  (lit ".") (lit "Version Packages") (lit "Version Packages") false
                  (version_world 5 matching_body) q.1 H1)).
Defined.

(** ** The decoder and the text after the block *)

Lemma starts_with_app_r w s t :
  starts_with w s = true -> starts_with w (s ++ t) = true.
Proof.
  intros H. apply starts_with_spec in H as [x ->].
  rewrite <- app_assoc. apply starts_with_app.
Qed.

Lemma starts_with_app_long w : forall s t,
  (length w <= length s)%nat -> starts_with w (s ++ t) = starts_with w s.
Proof.
  induction w as [|c w IH]; intros [|d s] t Hl; cbn [length] in Hl;
    try reflexivity; [lia|].
  cbn [app starts_with]. rewrite IH by lia. reflexivity.
Qed.

Lemma space_run_has_lf_app s t :
  space_run_has_lf s = true -> space_run_has_lf (s ++ t) = true.
Proof.
  induction s as [|c s IH]; [discriminate|]. cbn [app space_run_has_lf].
  destruct (c =? LF); [done|]. destruct (is_space c); [exact IH|discriminate].
Qed.

Lemma space_run_has_lf_cut y z t :
  space_run_has_lf (y ++ LF :: z ++ t) = true ->
  space_run_has_lf (y ++ LF :: z) = true.
Proof.
  induction y as [|c y IH]; [reflexivity|]. cbn [app space_run_has_lf].
  destruct (c =? LF); [done|]. destruct (is_space c); [exact IH|discriminate].
Qed.

Lemma closesb_cons c s :
  closesb (c :: s)
  = (c =? LF) && starts_with (lit "---") (trimStart s)
    && space_run_has_lf (drop 3 (trimStart s)).
Proof. reflexivity. Qed.

Lemma trimStart_app_nonempty s t :
  trimStart s <> [] -> trimStart (s ++ t) = trimStart s ++ t.
Proof.
  intros H. unfold trimStart in *. rewrite dropWhile_app.
  by destruct (dropWhile is_space s).
Qed.

Lemma dashes_nonempty x : starts_with (lit "---") x = true -> x <> [].
Proof. by destruct x. Qed.

Lemma dashes_drop x t :
  starts_with (lit "---") x = true -> drop 3 (x ++ t) = drop 3 x ++ t.
Proof.
  intros H. apply starts_with_spec in H as [y ->]. by rewrite <- app_assoc.
Qed.

Lemma closesb_app u t : closesb u = true -> closesb (u ++ t) = true.
Proof.
  destruct u as [|c s]; [discriminate|]. cbn [app]. rewrite !closesb_cons.
  rewrite !andb_true_iff. intros [[Hc Hd] Hs].
  rewrite trimStart_app_nonempty by by apply dashes_nonempty.
  rewrite dashes_drop by done.
  split; [split; [done|by apply starts_with_app_r]|by apply space_run_has_lf_app].
Qed.

(** A position before a complete closing delimiter that does not close
    the block does not close it either when text is appended. *)
Lemma closesb_app_false u b rem t :
  closesb u = false -> u = b ++ rem -> b <> [] -> closesb rem = true ->
  closesb (u ++ t) = false.
Proof.
  intros Hu -> Hb Hrem. destruct b as [|c b]; [done|]. clear Hb.
  cbn [app] in Hu |- *. rewrite closesb_cons in Hu |- *.
  destruct (c =? LF); [|reflexivity]. cbn [andb] in Hu |- *.
  destruct rem as [|l r1]; [discriminate|]. rewrite closesb_cons in Hrem.
  apply andb_true_iff in Hrem as [Hrem Hr3].
  apply andb_true_iff in Hrem as [Hl Hr1]. apply N.eqb_eq in Hl as ->.
  assert (Hsp : is_space LF = true) by reflexivity.
  unfold trimStart in Hu |- *. rewrite <- app_assoc, !dropWhile_app.
  rewrite dropWhile_app in Hu.
  destruct (dropWhile is_space b) as [|d y] eqn:Eb.
  - (* only white space before the delimiter: it is the delimiter *)
    cbn [dropWhile] in Hu. rewrite Hsp in Hu.
    fold (trimStart r1) in Hu. by rewrite Hr1, Hr3 in Hu.
  - destruct (starts_with (lit "---") ((d :: y) ++ (LF :: r1) ++ t)) eqn:Es;
      [|reflexivity].
    cbn [andb]. apply starts_with_spec in Es as [x' Hx'].
    change (lit "---" ++ x') with (chr "-" :: chr "-" :: chr "-" :: x') in Hx'.
    destruct y as [|y1 [|y2 y]]; cbn [app] in Hx'; try discriminate.
    injection Hx' as -> -> -> Hx'. clear Hx'.
    assert (Hd : forall z, starts_with (lit "---") (chr "-" :: chr "-" :: chr "-" :: z)
                           = true) by done.
    cbn [app] in Hu |- *. rewrite Hd in Hu. cbn [andb drop] in Hu |- *.
    rewrite drop_0 in Hu |- *.
    destruct (space_run_has_lf (y ++ LF :: r1 ++ t)) eqn:E3; [|reflexivity].
    apply space_run_has_lf_cut in E3. congruence.
Qed.

Lemma find_close_app u t blk :
  find_close u = Some blk -> find_close (u ++ t) = Some blk.
Proof.
  revert blk. induction u as [|c u IH]; intros blk.
  - cbn. discriminate.
  - intros H. pose proof H as H0.
    apply find_close_Some in H0 as (rem & Hu & Hrem).
    cbn [find_close] in H.
    destruct (closesb (c :: u)) eqn:Ec.
    + injection H as <-. cbn [app find_close].
      change (c :: u ++ t) with ((c :: u) ++ t). by rewrite closesb_app.
    + destruct (find_close u) as [b'|] eqn:Eu; [|discriminate].
      injection H as <-. cbn [app find_close].
      change (c :: u ++ t) with ((c :: u) ++ t).
      rewrite (closesb_app_false (c :: u) (c :: b') rem t Ec Hu) by done.
      by rewrite (IH b').
Qed.

Lemma block_at_app u t blk :
  block_at u = Some blk -> block_at (u ++ t) = Some blk.
Proof.
  unfold block_at. destruct (starts_with (lit "---") (trimStart u)) eqn:Es;
    [|discriminate].
  intros H. rewrite trimStart_app_nonempty by by apply dashes_nonempty.
  rewrite starts_with_app_r, dashes_drop by done. by apply find_close_app.
Qed.

(** A start position before a complete block at which no block opens
    does not open one either when text is appended. *)
Lemma block_at_app_none a blk rem t :
  closesb rem = true ->
  block_at (a ++ lit "---" ++ blk ++ rem) = None ->
  block_at ((a ++ lit "---" ++ blk ++ rem) ++ t) = None.
Proof.
  intros Hrem. unfold block_at.
  assert (Hlen : (3 <= length (trimStart (a ++ lit "---" ++ blk ++ rem)))%nat
                 /\ exists z, drop 3 (trimStart (a ++ lit "---" ++ blk ++ rem))
                              = z ++ rem).
  { unfold trimStart. rewrite dropWhile_app.
    destruct (dropWhile is_space a) as [|d y].
    - change (dropWhile is_space (lit "---" ++ blk ++ rem))
        with (lit "---" ++ blk ++ rem).
      split; [cbn; lia|]. by exists blk.
    - split; [rewrite !length_app; cbn; lia|].
      replace ((d :: y) ++ lit "---" ++ blk ++ rem)
        with (((d :: y) ++ lit "---" ++ blk) ++ rem) by by rewrite <- !app_assoc.
      rewrite drop_app_le by (rewrite !length_app; cbn; lia). by eexists. }
  destruct Hlen as [Hlen [z Hz]].
  destruct (starts_with (lit "---") (trimStart (a ++ lit "---" ++ blk ++ rem))) eqn:Es.
  - rewrite Hz. destruct (find_close_complete z rem Hrem) as [x ->]. discriminate.
  - intros _. rewrite trimStart_app_nonempty.
    + by rewrite starts_with_app_long, Es by exact Hlen.
    + intros E. rewrite E in Hlen. cbn in Hlen. lia.
Qed.

Lemma first_block_app u t blk :
  first_block u = Some blk -> first_block (u ++ t) = Some blk.
Proof.
  revert blk. induction u as [|c u IH]; intros blk.
  - cbn. discriminate.
  - intros H. pose proof H as H0.
    apply first_block_Some in H0 as (pre & rem & Hu & Hrem).
    cbn [first_block] in H.
    destruct (block_at (c :: u)) as [b|] eqn:Eb.
    + injection H as ->. cbn [app first_block].
      change (c :: u ++ t) with ((c :: u) ++ t).
      by rewrite (block_at_app _ _ _ Eb).
    + assert (Hn : block_at ((c :: u) ++ t) = None).
      { rewrite Hu in Eb |- *. by apply block_at_app_none. }
      cbn [app first_block]. change (c :: u ++ t) with ((c :: u) ++ t).
      rewrite Hn. by apply IH.
Qed.

(** X2: what comes after the frontmatter
    does not matter to the decoder: when a pull request body decodes
    to a frontmatter, the body followed by any further text decodes to
    the same frontmatter. *)
Theorem decode_ignores_later_text (body tail : str) (fm : Frontmatter) :
  getPullFrontmatterData body = Some fm ->
  getPullFrontmatterData (body ++ tail) = Some fm.
Proof.
  rewrite !getPullFrontmatterData_spec.
  destruct (first_block body) as [blk|] eqn:Eb; [|discriminate].
  intros H. by rewrite (first_block_app _ tail _ Eb).
Qed.

Lemma decode_ignores_later_text_witness :
  getPullFrontmatterData
    ((createPullFrontmatter 5 (lit "ffff") ++ [LF]) ++ lit "--- more ---" ++ [LF])
  = Some (MkFrontmatter (Some 5%Z) (Some (lit "ffff"))).
Proof.
  apply (decode_ignores_later_text (createPullFrontmatter 5 (lit "ffff") ++ [LF])).
  vm_compute. reflexivity.
Defined.

(** ** The frontmatter block and the resolver: further properties *)

Lemma split_at_first {A} (x : A) (a a' r r' : list A) :
  x ∉ a -> x ∉ a' -> a ++ x :: r = a' ++ x :: r' -> a = a' /\ r = r'.
Proof.
  revert a'. induction a as [|c a IH]; intros [|c' a'] Ha Ha' H.
  - by injection H.
  - injection H as -> _. exfalso. apply Ha'. by left.
  - injection H as -> _. exfalso. apply Ha. by left.
  - injection H as -> H. apply IH in H as [-> ->]; [done|..].
    + intros Hx. apply Ha. by right.
    + intros Hx. apply Ha'. by right.
Qed.

Lemma number_to_string_no_lf n : LF ∉ number_to_string n.
Proof.
  intros H. pose proof (number_to_string_printable n) as Hp.
  rewrite Forall_forall in Hp. specialize (Hp _ H). unfold LF in Hp. lia.
Qed.

(** X1: the frontmatter block names its
    fields: two blocks that are the same text were made from the same
    draft id and the same checksum.  (Draft ids below 10^21 in absolute
    value, where a number prints as plain digits.) *)
Theorem frontmatter_block_injective (n n' : Z) (c c' : str) :
  (Z.abs n < 10 ^ 21)%Z -> (Z.abs n' < 10 ^ 21)%Z ->
  createPullFrontmatter n c = createPullFrontmatter n' c' ->
  n = n' /\ c = c'.
Proof.
  intros _ _ H. unfold createPullFrontmatter in H.
  do 3 apply app_inv_head in H.
  apply split_at_first in H as [Hn H]; [|apply number_to_string_no_lf..].
  apply app_inv_head in H. apply app_inv_tail in H. split; [|done].
  apply (f_equal parseInt) in Hn. rewrite !parseInt_number_to_string in Hn.
  by injection Hn.
Qed.

Lemma frontmatter_block_injective_witness :
  5%Z = 5%Z /\ lit "ffff" = lit "ffff".
Proof.
  apply (frontmatter_block_injective 5 5 (lit "ffff") (lit "ffff"));
    reflexivity.
Defined.

(** X7: the comparator that [runPublish]
    gives to the sort of the pull requests is antisymmetric, as a sort
    needs it: comparing two pull requests the other way round gives the
    opposite sign, also when a merge timestamp is no date. *)
Theorem compare_pulls_antisymmetric (a b : Pull) :
  compare_pulls a b = (- compare_pulls b a)%Z.
Proof.
  unfold compare_pulls.
  destruct (merged_at a) as [ta|], (merged_at b) as [tb|]; try reflexivity.
  cbv zeta. destruct (Date ta) as [|x], (Date tb) as [|y]; try reflexivity.
  cbn [js_gt js_lt].
  destruct (Z.ltb_spec y x), (Z.ltb_spec x y); try reflexivity; lia.
Qed.

(** X8: of the pull requests of a commit the
    one listed first is selected whenever no other one comes before it
    in the order of the comparator: among pull requests merged at the
    same time, and among pull requests that are all unmerged, the first
    listed wins. *)
Theorem select_pull_first_listed (p : Pull) (l : list Pull) :
  valid_dates (p :: l) = true ->
  (forall q, q ∈ l -> not_after p q) ->
  select_pull (p :: l) = Some p.
Proof.
  intros Hv Hp. unfold select_pull, array_sort. cbn [foldr].
  rewrite head_insert_sorted.
  fold (array_sort compare_pulls l).
  destruct (head (array_sort compare_pulls l)) as [y|] eqn:Ey; [|done].
  assert (Hy : y ∈ l).
  { rewrite <- (array_sort_perm compare_pulls l).
    destruct (array_sort compare_pulls l); [discriminate|].
    injection Ey as ->. by left. }
  assert (Hle : (compare_pulls p y <= 0)%Z).
  { apply compare_pulls_le; [|by apply Hp].
    apply valid_dates_cons in Hv as [Hvp Hvl].
    apply valid_dates_pair; [done|]. by eapply valid_dates_elem. }
  apply Z.leb_le in Hle. by rewrite Hle.
Qed.

Lemma select_pull_first_listed_witness :
  select_pull [pr_unmerged; MkPull 4 104 None None] = Some pr_unmerged.
Proof.
  apply (select_pull_first_listed pr_unmerged [MkPull 4 104 None None]).
  - reflexivity.
  - intros q Hq. apply list_elem_of_singleton in Hq as ->. exact I.
Defined.

(** ** The changelog extractor, for every version *)

Lemma digits_then_run ds x :
  ds <> [] -> forallb is_digit ds = true ->
  match x with [] => True | c :: _ => is_digit c = false end ->
  digits_then (ds ++ x) = Some x.
Proof.
  intros Hne Hd Hx. apply forallb_Forall_iff in Hd.
  destruct ds as [|d ds]; [done|]. apply Forall_cons in Hd as [Hd Hds].
  cbn [app digits_then]. rewrite Hd, dropWhile_app_all by done.
  f_equal. destruct x as [|c x]; [done|]. cbn [dropWhile]. by rewrite Hx.
Qed.

Lemma number_dot ds x :
  ds <> [] -> forallb is_digit ds = true ->
  digits_then (ds ++ lit "." ++ x) ≫= char_then (chr ".") = Some x.
Proof.
  intros Hne Hd. rewrite digits_then_run by done.
  change (lit "." ++ x) with (chr "." :: x). cbn [mbind option_bind char_then].
  by rewrite N.eqb_refl.
Qed.

Lemma no_hash_digit_app_r x y :
  no_hash_digit (x ++ y) = true -> no_hash_digit y = true.
Proof.
  induction x as [|c x IH]; [done|]. cbn [app no_hash_digit].
  intros H. apply andb_true_iff in H as [_ H]. by apply IH.
Qed.

Lemma digits_are_dots ds :
  forallb is_digit ds = true -> Forall (fun c => is_dot c = true) ds.
Proof.
  intros H. apply forallb_Forall_iff in H. eapply Forall_impl; [exact H|].
  intros c Hc. by apply is_digit_is_dot.
Qed.

(** X28: for every version, [getLatestChangelogEntry] on a
    changelog whose first header line is [## <version>] returns that
    version, the whole rest of the line, so also what follows the three
    numbers (as in [1.2.0-beta.1]), and as content the text of the
    section, trimmed.  ([pre] is what precedes the header line; neither
    it nor the rest of the line and the section hold a header, which is
    put as: no [## ] followed by a digit.) *)
Theorem latest_entry_any_version (pre major minor patch suffix c : str) :
  no_hash_digit pre = true -> ends_line pre = true ->
  major <> [] -> forallb is_digit major = true ->
  minor <> [] -> forallb is_digit minor = true ->
  patch <> [] -> forallb is_digit patch = true ->
  forallb is_dot suffix = true ->
  no_hash_digit (suffix ++ [LF] ++ c) = true ->
  let v := major ++ lit "." ++ minor ++ lit "." ++ patch ++ suffix in
  latestChangelogEntryOf (pre ++ lit "## " ++ v ++ [LF] ++ c)
  = inr (MkEntry v (trim c)).
Proof.
  intros Hpre Hend Hma0 Hma Hmi0 Hmi Hpa0 Hpa Hsuf Hno v.
  set (U := lit "## " ++ v ++ [LF] ++ c).
  set (r := dropWhile is_digit (suffix ++ [LF] ++ c)).
  assert (Hrest : header_rest U = Some r).
  { unfold header_rest, U. rewrite starts_with_app.
    change (drop 3 (lit "## " ++ ?x)) with x.
    unfold v. rewrite <- !app_assoc.
    rewrite number_dot by done. cbn [mbind option_bind].
    rewrite number_dot by done. cbn [mbind option_bind].
    apply forallb_Forall_iff in Hpa. destruct patch as [|p patch]; [done|].
    apply Forall_cons in Hpa as [Hp Hpa].
    cbn [app digits_then]. rewrite Hp. by rewrite dropWhile_app_all. }
  assert (Hsplit : split_header None (pre ++ U) = Some (pre, take (length U - length r) U, r)).
  { rewrite split_header_skip by done.
    assert (Hh : header_at (prev_after None pre) U = Some r).
    { unfold header_at. by rewrite line_start_ends_line. }
    by rewrite (split_header_here _ _ _ Hh), app_nil_r. }
  rewrite latestChangelogEntryOf_spec. unfold entry_of. fold U. rewrite Hsplit.
  assert (HU : U = take (length U - length r) U ++ r).
  { apply split_header_Some in Hsplit as [H _]. by apply app_inv_head in H. }
  rewrite split_header_none.
  2:{ unfold r. apply (no_hash_digit_app_r (takeWhile is_digit (suffix ++ [LF] ++ c))).
      by rewrite takeWhile_dropWhile. }
  rewrite <- HU. unfold U. change (drop 3 (lit "## " ++ ?x)) with x.
  assert (Hv : Forall (fun x => is_dot x = true) v).
  { unfold v. repeat apply Forall_app_2; try by apply digits_are_dots.
    - by repeat constructor.
    - by repeat constructor.
    - by apply forallb_Forall_iff. }
  rewrite takeWhile_app_all, dropWhile_app_all by done.
  cbn [app takeWhile dropWhile].
  change (is_dot LF) with false. cbv iota.
  rewrite app_nil_r, trim_leading_space by done. reflexivity.
Qed.

Lemma latest_entry_any_version_witness :
  latestChangelogEntryOf
    ((lit "# pkg" ++ [LF; LF]) ++ lit "## "
     ++ (lit "1" ++ lit "." ++ lit "20" ++ lit "." ++ lit "0" ++ lit "-beta.1")
     ++ [LF] ++ ([LF] ++ lit "- a change" ++ [LF]))
  = inr (MkEntry (lit "1" ++ lit "." ++ lit "20" ++ lit "." ++ lit "0" ++ lit "-beta.1")
           (trim ([LF] ++ lit "- a change" ++ [LF]))).
Proof.
  apply (latest_entry_any_version (lit "# pkg" ++ [LF; LF]) (lit "1") (lit "20")
           (lit "0") (lit "-beta.1") ([LF] ++ lit "- a change" ++ [LF]));
    (reflexivity || discriminate).
Defined.
